(** * codespell: the line scanner and its collaborators

    A shallow embedding of [codespell_lib/_codespell.py]: the dictionary
    builder ([build_dict]), the case-shape resolver ([fix_case]), the
    interactive resolver ([ask_for_word_fix]), the word/URI extractor
    ([extract_words], [extract_words_iter], [apply_uri_ignore_words]) and
    the per-file scanner ([parse_file]).

    Modelling conventions.
    - A Python [str] is a [string]; its characters are code points below
      128.  [lower], [upper], [capitalize], [strip] and the classes [\w]
      and [\s] are the ASCII restrictions of Python's; a character with
      the high bit set is caseless, not a word character and not a space.
    - [Dict[str, Misspelling]] is a [gmap string Misspelling]; the sets
      of words and lines are [gset string].  A [Misspelling] object is
      mutated in place by the interactive resolver: the model writes the
      mutated record back under the key it was read from.
    - Standard input is the list of lines still to be read ([readline]
      returns the empty string at end of input); standard output and
      standard error are the lists of the texts printed so far.
    - A compiled pattern is known by the spans [finditer] yields; the
      statements hold for any such pattern.  The two built-in patterns
      are given as terms of a small pattern syntax and run by a
      backtracking matcher with the search loop of [finditer].
    - The substitution of write mode expands the escapes of the
      correction as [re.sub] does ([Re.parse_template]).
    - [parse_file] reads the file system through what it answers about
      a path ([File]) and writes it by replacing the decoded lines with
      the texts it hands to [writelines], one for each line read. *)

From Stdlib Require Import ZArith Ascii String Bool Lia List DecimalString.
From stdpp Require Import base gmap strings list.

Local Open Scope Z_scope.

(** ** Python string primitives (ASCII) *)

Module Py.

Definition code (c : ascii) : N := N_of_ascii c.

Definition in_range (lo hi : N) (c : ascii) : bool :=
  ((lo <=? code c) && (code c <=? hi))%N.

Definition is_upper (c : ascii) : bool := in_range 65 90 c.
Definition is_lower (c : ascii) : bool := in_range 97 122 c.
Definition is_digit (c : ascii) : bool := in_range 48 57 c.

(** [str.isspace] on one character: TAB..CR, FS..US and the blank. *)
Definition is_space (c : ascii) : bool :=
  in_range 9 13 c || in_range 28 32 c.

(** The class [\w]. *)
Definition is_word (c : ascii) : bool :=
  is_upper c || is_lower c || is_digit c || Ascii.eqb c "_".

Definition lower_char (c : ascii) : ascii :=
  if is_upper c then ascii_of_N (code c + 32) else c.

Definition upper_char (c : ascii) : ascii :=
  if is_lower c then ascii_of_N (code c - 32) else c.

Fixpoint map_chars (f : ascii -> ascii) (s : string) : string :=
  match s with
  | EmptyString => EmptyString
  | String c s' => String (f c) (map_chars f s')
  end.

(** [s.lower()], [s.upper()], [s.capitalize()], for ASCII text: the
    letters are [A] to [Z] and [a] to [z], and every other character is
    left as it is *)
Definition lower : string -> string := map_chars lower_char.
Definition upper : string -> string := map_chars upper_char.
Definition capitalize (s : string) : string :=
  match s with
  | EmptyString => EmptyString
  | String c s' => String (upper_char c) (lower s')
  end.

(** [s.lstrip()], [s.rstrip()], [s.strip()] *)
Fixpoint lstrip (s : string) : string :=
  match s with
  | EmptyString => EmptyString
  | String c s' => if is_space c then lstrip s' else s
  end.

Fixpoint rstrip (s : string) : string :=
  match s with
  | EmptyString => EmptyString
  | String c s' =>
      match rstrip s' with
      | EmptyString => if is_space c then EmptyString else String c EmptyString
      | r => String c r
      end
  end.

Definition strip (s : string) : string := rstrip (lstrip s).

(** [len(s)] *)
Definition len (s : string) : Z := Z.of_nat (String.length s).

(** [s[:n]] and [s[n:]] for [0 <= n] *)
Fixpoint slice_to (n : nat) (s : string) : string :=
  match n, s with
  | S n', String c s' => String c (slice_to n' s')
  | _, _ => EmptyString
  end.

Fixpoint slice_from (n : nat) (s : string) : string :=
  match n, s with
  | S n', String c s' => slice_from n' s'
  | _, _ => s
  end.

(** [s[a:b]] for [0 <= a], [0 <= b] *)
Definition slice (a b : nat) (s : string) : string :=
  slice_to (b - a) (slice_from a s).

(** [s.rfind(c)] for a one-character needle: the highest index, or -1 *)
Fixpoint rfind_char (c : ascii) (s : string) : Z :=
  match s with
  | EmptyString => -1
  | String d s' =>
      let r := rfind_char c s' in
      if 0 <=? r then r + 1
      else if Ascii.eqb d c then 0 else -1
  end.

(** [s.split(c)] for a one-character separator *)
Fixpoint split_char (sep : ascii) (s : string) : list string :=
  match s with
  | EmptyString => [EmptyString]
  | String c s' =>
      if Ascii.eqb c sep then EmptyString :: split_char sep s'
      else match split_char sep s' with
           | p :: ps => String c p :: ps
           | [] => [String c EmptyString]
           end
  end.

(** [s.split("->")]: cut at the occurrences found left to right *)
Fixpoint split_arrow (s : string) : list string :=
  match s with
  | EmptyString => [EmptyString]
  | String c s' =>
      let keep :=
        match split_arrow s' with
        | p :: ps => String c p :: ps
        | [] => [String c EmptyString]
        end in
      match s' with
      | String d s'' =>
          if Ascii.eqb c "-" && Ascii.eqb d ">"
          then EmptyString :: split_arrow s''
          else keep
      | EmptyString => keep
      end
  end.

(** [sep.join(parts)] *)
Definition join (sep : string) (parts : list string) : string :=
  String.concat sep parts.

(** [c in s] for a one-character needle *)
Fixpoint contains (c : ascii) (s : string) : bool :=
  match s with
  | EmptyString => false
  | String d s' => Ascii.eqb d c || contains c s'
  end.

(** truth value of a string: non-empty *)
Definition truthy (s : string) : bool :=
  match s with EmptyString => false | _ => true end.

(** truth value of [x & bit] *)
Definition has_bit (x bit : Z) : bool := negb (Z.land x bit =? 0).

(** [int(s)] in base 10: an optional sign, then digits, single
    underscores allowed between digits; [None] is [ValueError] *)
Definition digit_val (c : ascii) : Z := Z.of_N (code c) - 48.

Fixpoint int_digits (acc : Z) (after_digit : bool) (s : string) : option Z :=
  match s with
  | EmptyString => if after_digit then Some acc else None
  | String c s' =>
      if is_digit c then int_digits (10 * acc + digit_val c) true s'
      else if Ascii.eqb c "_" && after_digit then int_digits acc false s'
      else None
  end.

Definition int (s : string) : option Z :=
  match strip s with
  | String c s' =>
      if Ascii.eqb c "-" then Z.opp <$> int_digits 0 false s'
      else if Ascii.eqb c "+" then int_digits 0 false s'
      else int_digits 0 false (String c s')
  | EmptyString => None
  end.

(** [l[i]] with Python's negative indices; [None] is [IndexError] *)
Definition index {A} (l : list A) (i : Z) : option A :=
  if 0 <=? i then l !! Z.to_nat i
  else if - Z.of_nat (length l) <=? i then l !! Z.to_nat (Z.of_nat (length l) + i)
  else None.

(** [str(n)] for a natural number *)
Definition str_of_nat (n : nat) : string :=
  NilZero.string_of_uint (Nat.to_uint n).

End Py.

(** ** Data model *)

(** [class Misspelling] *)
Record Misspelling := mkMisspelling {
  data : string;
  fix_ : bool;
  reason : string
}.

(** [class QuietLevels] *)
Module QuietLevels.
Definition NONE : Z := 0.
Definition ENCODING : Z := 1.
Definition BINARY_FILE : Z := 2.
Definition DISABLED_FIXES : Z := 4.
Definition NON_AUTOMATIC_FIXES : Z := 8.
Definition FIXES : Z := 16.
Definition CONFIG_FILES : Z := 32.
End QuietLevels.

(** Exceptions that abort the run. *)
Inductive exn := ValueError.

Inductive result (A : Type) : Type :=
| Ok (a : A)
| Raise (e : exn).
Arguments Ok {A} a.
Arguments Raise {A} e.

(** ** Dictionary builder *)

(** The body of the [for line in f] loop of [build_dict]:
    [None] stands for [continue]. *)
Definition parse_entry (ignore_words : gset string) (line : string)
  : result (option (string * Misspelling)) :=
  match Py.split_arrow line with
  | [key; dat] =>
      let key := Py.lower key in
      let dat := Py.lower dat in
      if decide (key ∈ ignore_words) then Ok None
      else
        let dat := Py.strip dat in
        let comma := Py.rfind_char "," dat in
        if comma <? 0 then
          Ok (Some (key, mkMisspelling dat true ""))
        else if comma =? Py.len dat - 1 then
          Ok (Some (key, mkMisspelling (Py.slice_to (Z.to_nat comma) dat) false ""))
        else
          let reason := Py.strip (Py.slice_from (Z.to_nat (comma + 1)) dat) in
          Ok (Some (key, mkMisspelling (Py.slice_to (Z.to_nat comma) dat) false reason))
  | _ => Raise ValueError
  end.

(** [build_dict(filename, misspellings, ignore_words)], on the lines of
    the file *)
Fixpoint build_dict (lines : list string)
    (misspellings : gmap string Misspelling) (ignore_words : gset string)
  : result (gmap string Misspelling) :=
  match lines with
  | [] => Ok misspellings
  | line :: rest =>
      match parse_entry ignore_words line with
      | Raise e => Raise e
      | Ok None => build_dict rest misspellings ignore_words
      | Ok (Some (key, m)) => build_dict rest (<[key := m]> misspellings) ignore_words
      end
  end.

(** ** Case-shape resolver *)

(** [fix_case(word, fixword)] *)
Definition fix_case (word fixword : string) : string :=
  if decide (word = Py.capitalize word) then
    Py.join ", " (map (fun w => Py.capitalize (Py.strip w)) (Py.split_char "," fixword))
  else if decide (word = Py.upper word) then
    Py.upper fixword
  else fixword.

(** ** Terminal *)

(** [class TermColors] *)
Record TermColors := mkTermColors {
  FILE : string;
  WWORD : string;
  FWORD : string;
  DISABLE : string
}.

Definition ESC : string := String (ascii_of_nat 27) "".

(** [TermColors()] and the object after [disable()] *)
Definition TermColors_init : TermColors :=
  mkTermColors (ESC +:+ "[33m") (ESC +:+ "[31m") (ESC +:+ "[32m") (ESC +:+ "[0m").
Definition TermColors_disabled : TermColors := mkTermColors "" "" "" "".

(** [sys.stdin], [sys.stdout], [sys.stderr] *)
Record Console := mkConsole {
  stdin : list string;
  stdout : list string;
  stderr : list string
}.

(** [print(s, end="")] *)
Definition print (s : string) (io : Console) : Console :=
  mkConsole (stdin io) (stdout io ++ [s]) (stderr io).

(** [print(s, end="", file=sys.stderr)] *)
Definition eprint (s : string) (io : Console) : Console :=
  mkConsole (stdin io) (stdout io) (stderr io ++ [s]).

Definition NL : string := String (ascii_of_nat 10) "".
Definition TAB : string := String (ascii_of_nat 9) "".

(** [print(s)] *)
Definition println (s : string) (io : Console) : Console := print (s +:+ NL) io.
Definition eprintln (s : string) (io : Console) : Console := eprint (s +:+ NL) io.

(** ** Patterns and matches *)

(** A [re.Match]: [start()], [end()] and [group()] *)
Record Match := mkMatch {
  m_start : nat;
  m_end : nat;
  m_group : string
}.

(** A compiled [re.Pattern], known by the spans of the successive
    non-overlapping matches [finditer] finds in a text. *)
Record Pattern := mkPattern {
  spans : string -> list (nat * nat)
}.

Module Re.

(** [pattern.finditer(text)] *)
Definition finditer (p : Pattern) (text : string) : list Match :=
  map (fun '(b, e) => mkMatch b e (Py.slice b e text)) (spans p text).

(** [pattern.findall(text)], for a pattern without groups or with one
    group around the whole pattern: the matched texts *)
Definition findall (p : Pattern) (text : string) : list string :=
  map m_group (finditer p text).

(** The loop of [pattern.sub]: the text between the matches is kept
    and every match is replaced.  [i] is the end of the previous
    match. *)
Fixpoint sub_go (repl text : string) (i : nat) (sp : list (nat * nat)) : string :=
  match sp with
  | [] => Py.slice_from i text
  | (b, e) :: sp' => Py.slice i b text +:+ repl +:+ sub_go repl text e sp'
  end.

(** [pattern.sub(repl, text)] for a replacement without backslash, as
    the blank is that [parse_file] puts in the place of a URI *)
Definition sub (p : Pattern) (repl text : string) : string :=
  sub_go repl text 0 (spans p text).

(** The fragment of the pattern syntax the built-in patterns use. *)
Inductive regex :=
| Cls (p : ascii -> bool)      (* one character of a class *)
| Lit (s : string)             (* literal text *)
| Seq (r1 r2 : regex)          (* r1r2 *)
| Alt (r1 r2 : regex)          (* r1|r2 *)
| Opt (r : regex)              (* r? *)
| Many1 (p : ascii -> bool)    (* [class]+ *)
| Bnd                          (* \b *)
| Eol                          (* $ *)
| Ahead (r : regex).           (* (?=r) *)

(** A position in the searched text: the character before it, the
    text from it on, its index. *)
Record cursor := mkCursor {
  before : option ascii;
  rest : string;
  pos : nat
}.

Definition next_char (c : cursor) : option ascii :=
  match rest c with String a _ => Some a | EmptyString => None end.

Definition word_at (o : option ascii) : bool :=
  match o with Some a => Py.is_word a | None => false end.

(** Greedy repetition of a class, longest first *)
Fixpoint many (p : ascii -> bool) (bef : option ascii) (s : string) (n : nat)
    (k : cursor -> option nat) : option nat :=
  match s with
  | String a s' =>
      if p a then
        match many p (Some a) s' (S n) k with
        | Some e => Some e
        | None => k (mkCursor bef s n)
        end
      else k (mkCursor bef s n)
  | EmptyString => k (mkCursor bef s n)
  end.

Fixpoint lit (l : string) (c : cursor) : option cursor :=
  match l with
  | EmptyString => Some c
  | String a l' =>
      match rest c with
      | String b s' =>
          if Ascii.eqb a b then lit l' (mkCursor (Some b) s' (S (pos c))) else None
      | EmptyString => None
      end
  end.

(** Backtracking matcher: [run r c k] is the end of the first match of
    [r] at [c] that the continuation [k] accepts. *)
Fixpoint run (r : regex) (c : cursor) (k : cursor -> option nat) : option nat :=
  match r with
  | Cls p =>
      match rest c with
      | String a s' => if p a then k (mkCursor (Some a) s' (S (pos c))) else None
      | EmptyString => None
      end
  | Lit l => lit l c ≫= k
  | Seq r1 r2 => run r1 c (fun c' => run r2 c' k)
  | Alt r1 r2 =>
      match run r1 c k with
      | Some e => Some e
      | None => run r2 c k
      end
  | Opt r1 =>
      match run r1 c k with
      | Some e => Some e
      | None => k c
      end
  | Many1 p =>
      match rest c with
      | String a s' => if p a then many p (Some a) s' (S (pos c)) k else None
      | EmptyString => None
      end
  | Bnd => if xorb (word_at (before c)) (word_at (next_char c)) then k c else None
  | Eol =>
      if decide (rest c = "" ∨ rest c = String (ascii_of_nat 10) "")
      then k c else None
  | Ahead r1 =>
      match run r1 c (fun c' => Some (pos c')) with
      | Some _ => k c
      | None => None
      end
  end.

(** One match attempt at [c]; with [must_advance] an empty match is
    refused. *)
Definition match_at (r : regex) (c : cursor) (must_advance : bool) : option nat :=
  run r c (fun c' =>
    if must_advance && (pos c' =? pos c)%nat then None else Some (pos c')).

(** The search loop of [finditer] and [sub].  [skip] counts the
    positions still inside the previous match.  After an empty match
    the search resumes at the same position, where only a non-empty
    match is accepted. *)
Fixpoint scan (r : regex) (bef : option ascii) (s : string) (n skip : nat)
  : list (nat * nat) :=
  let c := mkCursor bef s n in
  let '(found, skip') :=
    match skip with
    | S k => ([], k)
    | O =>
        match match_at r c false with
        | None => ([], O)
        | Some e =>
            if (e =? n)%nat then
              match match_at r c true with
              | None => ([(n, n)], O)
              | Some e' => ([(n, n); (n, e')], (e' - n - 1)%nat)
              end
            else ([(n, e)], (e - n - 1)%nat)
        end
    end in
  found ++
  match s with
  | String a s' => scan r (Some a) s' (S n) skip'
  | EmptyString => []
  end.

(** [re.compile] *)
Definition compile (r : regex) : Pattern :=
  mkPattern (fun text => scan r None text 0 0).

Definition one_of (l : string) (c : ascii) : bool :=
  existsb (Ascii.eqb c) (list_ascii_of_string l).

(** The characters with a special meaning in a pattern *)
Definition special (c : ascii) : bool := one_of ".^$*+?{}[]\|()" c.

Definition all_chars (p : ascii -> bool) (s : string) : bool :=
  forallb p (list_ascii_of_string s).

Definition has_backslash (s : string) : bool :=
  existsb (Ascii.eqb "\") (list_ascii_of_string s).

(** What [sub] makes of a replacement: a list of characters and of
    references to the whole match. *)
Inductive piece :=
| Chr (c : ascii)
| Whole.

Definition is_octal (c : ascii) : bool := Py.in_range 48 55 c.

Definition digit_of (c : ascii) : N := (Py.code c - 48)%N.

(** The escapes of one letter that a replacement may hold, and the
    backslash itself *)
Definition escape (c : ascii) : option ascii :=
  if Ascii.eqb c "a" then Some (ascii_of_nat 7)
  else if Ascii.eqb c "b" then Some (ascii_of_nat 8)
  else if Ascii.eqb c "f" then Some (ascii_of_nat 12)
  else if Ascii.eqb c "n" then Some (ascii_of_nat 10)
  else if Ascii.eqb c "r" then Some (ascii_of_nat 13)
  else if Ascii.eqb c "t" then Some (ascii_of_nat 9)
  else if Ascii.eqb c "v" then Some (ascii_of_nat 11)
  else if Ascii.eqb c "\" then Some c
  else None.

(** [parse_template] of the library for a pattern without groups, the
    only one [parse_file] substitutes with.  [name] is set inside
    [\g<...>] and tells whether a character of the name was read; the
    one group there is is the whole match, [\g<0>].  [None]: the library
    raises [re.error] or [IndexError] (a backslash at the end, a
    reference to a group other than the whole match, an unknown escape
    of a letter, an octal escape above [\377]); or the replacement is
    outside the model: an octal escape for a code point from 128 on, and
    a group name other than a run of ASCII digits, which raises from
    Python 3.12 on and was read by [int] before. *)
Fixpoint parse_template (name : option bool) (repl : string) : option (list piece) :=
  match name, repl with
  | Some nonempty, String c s =>
      if Ascii.eqb c "0" then parse_template (Some true) s
      else if Ascii.eqb c ">" && nonempty then cons Whole <$> parse_template None s
      else None
  | Some _, EmptyString => None
  | None, EmptyString => Some []
  | None, String c s =>
      if negb (Ascii.eqb c "\") then cons (Chr c) <$> parse_template None s
      else
        match s with
        | EmptyString => None
        | String d s1 =>
            if Ascii.eqb d "g" then
              match s1 with
              | String lt s2 =>
                  if Ascii.eqb lt "<" then parse_template (Some false) s2 else None
              | EmptyString => None
              end
            else if Ascii.eqb d "0" then
              match s1 with
              | String o1 s2 =>
                  if is_octal o1 then
                    match s2 with
                    | String o2 s3 =>
                        if is_octal o2 then
                          cons (Chr (ascii_of_N (8 * digit_of o1 + digit_of o2)))
                            <$> parse_template None s3
                        else
                          cons (Chr (ascii_of_N (digit_of o1))) <$> parse_template None s2
                    | EmptyString => Some [Chr (ascii_of_N (digit_of o1))]
                    end
                  else cons (Chr zero) <$> parse_template None s1
              | EmptyString => Some [Chr zero]
              end
            else if Py.is_digit d then
              match s1 with
              | String o1 (String o2 s3) =>
                  let v := (64 * digit_of d + 8 * digit_of o1 + digit_of o2)%N in
                  if is_octal d && is_octal o1 && is_octal o2 && (v <? 128)%N then
                    cons (Chr (ascii_of_N v)) <$> parse_template None s3
                  else None
              | _ => None
              end
            else
              match escape d with
              | Some e => cons (Chr e) <$> parse_template None s1
              | None =>
                  if Py.is_upper d || Py.is_lower d then None
                  else cons (Chr c) <$> (cons (Chr d) <$> parse_template None s1)
              end
        end
  end.

(** The text a match is replaced by *)
Fixpoint expand (template : list piece) (whole : string) : string :=
  match template with
  | [] => EmptyString
  | Chr c :: template' => String c (expand template' whole)
  | Whole :: template' => whole +:+ expand template' whole
  end.

(** The loop of [pattern.sub] for a parsed replacement *)
Fixpoint sub_template_go (template : list piece) (text : string) (i : nat)
    (sp : list (nat * nat)) : string :=
  match sp with
  | [] => Py.slice_from i text
  | (b, e) :: sp' =>
      Py.slice i b text +:+ expand template (Py.slice b e text) +:+
      sub_template_go template text e sp'
  end.

Definition sub_template (p : Pattern) (template : list piece) (text : string) : string :=
  sub_template_go template text 0 (spans p text).

End Re.

(** [word_regex_def]: a run of word characters, hyphens, apostrophes
    and backticks (the curly apostrophe of the source class lies outside
    ASCII) *)
Definition word_char (c : ascii) : bool := Py.is_word c || Re.one_of "-'`" c.
Definition word_regex_def : Re.regex := Re.Many1 word_char.

(** [uri_regex_def] *)
Definition uri_regex_def : Re.regex :=
  Re.Alt
    (Re.Seq Re.Bnd
      (Re.Seq
        (Re.Alt (Re.Seq (Re.Lit "http") (Re.Opt (Re.Lit "s")))
          (Re.Alt (Re.Seq (Re.Opt (Re.Cls (Re.one_of "ts"))) (Re.Lit "ftp"))
            (Re.Alt (Re.Lit "file") (Re.Alt (Re.Lit "git") (Re.Lit "smb")))))
        (Re.Seq (Re.Lit "://")
          (Re.Seq (Re.Many1 (fun c => negb (Py.is_space c)))
            (Re.Ahead (Re.Alt Re.Eol (Re.Cls Py.is_space)))))))
    (Re.Seq Re.Bnd
      (Re.Seq (Re.Many1 (fun c => Py.is_word c || Re.one_of ".%+-" c))
        (Re.Seq (Re.Lit "@")
          (Re.Seq (Re.Many1 (fun c => Py.is_word c || Re.one_of ".-" c))
            Re.Bnd)))).

(** The pattern [r"\b%s\b" % word] for a [word] free of special
    characters, which the pattern then matches literally *)
Definition whole_word (word : string) : Pattern :=
  Re.compile (Re.Seq Re.Bnd (Re.Seq (Re.Lit word) Re.Bnd)).

(** [re.sub(r"\b%s\b" % word, fixword, text)]: the escapes of
    [fixword] are expanded as the library does it.  [None]: the library
    raises on [fixword], or the call is outside the model (see
    [Re.parse_template]; a [word] with a special character, which the
    built-in word pattern never yields and which [main] keeps out of
    write mode by refusing a word pattern of the user's there). *)
Definition sub_whole_word (word fixword text : string) : option string :=
  if Re.all_chars (fun c => negb (Re.special c)) word then
    template ← Re.parse_template None fixword;
    Some (Re.sub_template (whole_word word) template text)
  else None.

(** ** Interactive resolver *)

(** The [while not r] loop of the confirm branch: the lines still to be
    read and the texts printed so far go in, the answer comes out with
    what is left of the input and the texts printed.  At end of input
    [readline] returns the empty string, which counts as a yes. *)
Fixpoint confirm_loop (prompt : string) (inp out : list string)
  : string * list string * list string :=
  let out := out ++ [prompt] in
  match inp with
  | [] => ("Y", [], out)
  | l :: inp' =>
      let r := Py.upper (Py.strip l) in
      let r := if Py.truthy r then r else "Y" in
      if decide (r = "Y" ∨ r = "N") then (r, inp', out)
      else confirm_loop prompt inp' (out ++ ["Say 'y' or 'n'" +:+ NL])
  end.

(** The enumerated candidates [" {i}) {fixword}"] of one prompt *)
Fixpoint option_texts (wrongword : string) (i : nat) (opt : list string)
  : list string :=
  match opt with
  | [] => []
  | o :: opt' =>
      (" " +:+ Py.str_of_nat i +:+ ") " +:+ fix_case wrongword o)
        :: option_texts wrongword (S i) opt'
  end.

(** What one round of the choose branch prints before it reads *)
Definition choose_prompt (line_ui wrongword : string) (opt : list string)
  : list string :=
  (line_ui +:+ " Choose an option (blank for none): ")
    :: option_texts wrongword 0 opt ++ [": "].

(** The [while not r] loop of the choose branch.  The answer is the
    final [r]: empty after a blank line (or at end of input), the chosen
    candidate otherwise. *)
Fixpoint choose_loop (line_ui wrongword : string) (opt : list string)
    (inp out : list string) : string * list string * list string :=
  let out := out ++ choose_prompt line_ui wrongword opt in
  match inp with
  | [] => ("", [], out)
  | l :: inp' =>
      let n := Py.strip l in
      if negb (Py.truthy n) then ("", inp', out)
      else
        match Py.int n ≫= Py.index opt with
        | Some r =>
            if Py.truthy r then (r, inp', out)
            else choose_loop line_ui wrongword opt inp' out
        | None =>
            choose_loop line_ui wrongword opt inp'
              (out ++ ["Not a valid option" +:+ NL +:+ NL])
        end
  end.

(** [line_ui]: the line with the word highlighted *)
Definition line_ui_of (line : string) (mt : Match) (colors : TermColors)
  : string :=
  Py.slice_to (m_start mt) line +:+ WWORD colors +:+ m_group mt +:+
  DISABLE colors +:+ Py.slice_from (m_end mt) line.

(** [ask_for_word_fix(line, match, misspelling, interactivity, colors)]:
    the returned pair, the [misspelling] object after the call, and the
    console after the call *)
Definition ask_for_word_fix (line : string) (mt : Match)
    (misspelling : Misspelling) (interactivity : Z) (colors : TermColors)
    (io : Console) : bool * string * Misspelling * Console :=
  let wrongword := m_group mt in
  if interactivity <=? 0 then
    (fix_ misspelling, fix_case wrongword (data misspelling), misspelling, io)
  else
    let line_ui := line_ui_of line mt colors in
    let '(misspelling, io) :=
      if fix_ misspelling && Py.has_bit interactivity 1 then
        let fixword := fix_case wrongword (data misspelling) in
        let '(r, inp, out) :=
          confirm_loop
            (line_ui +:+ TAB +:+ wrongword +:+ " ==> " +:+ fixword +:+ " (Y/n) ")
            (stdin io) (stdout io) in
        if decide (r = "N")
        then (mkMisspelling (data misspelling) false (reason misspelling),
              mkConsole inp out (stderr io))
        else (misspelling, mkConsole inp out (stderr io))
      else if Py.has_bit interactivity 2 && negb (Py.truthy (reason misspelling)) then
        let opt := map Py.strip (Py.split_char "," (data misspelling)) in
        let '(r, inp, out) :=
          choose_loop line_ui wrongword opt (stdin io) (stdout io) in
        if Py.truthy r
        then (mkMisspelling r true (reason misspelling), mkConsole inp out (stderr io))
        else (misspelling, mkConsole inp out (stderr io))
      else (misspelling, io) in
    (fix_ misspelling, fix_case wrongword (data misspelling), misspelling, io).

(** ** Word/URI extractor *)

(** [_ignore_word_sub(text, ignore_word_regex)] *)
Definition _ignore_word_sub (text : string) (ignore_word_regex : option Pattern)
  : string :=
  match ignore_word_regex with
  | Some p => Re.sub p " " text
  | None => text
  end.

(** [extract_words(text, word_regex, ignore_word_regex)] *)
Definition extract_words (text : string) (word_regex : Pattern)
    (ignore_word_regex : option Pattern) : list string :=
  Re.findall word_regex (_ignore_word_sub text ignore_word_regex).

(** [extract_words_iter(text, word_regex, ignore_word_regex)] *)
Definition extract_words_iter (text : string) (word_regex : Pattern)
    (ignore_word_regex : option Pattern) : list Match :=
  Re.finditer word_regex (_ignore_word_sub text ignore_word_regex).

(** The index at which [for i, match in enumerate(check_matches)]
    reaches its [break], counted from [i] *)
Fixpoint first_match (uri_word : string) (i : nat) (check_matches : list Match)
  : option nat :=
  match check_matches with
  | [] => None
  | mt :: rest =>
      if decide (m_group mt = uri_word) then Some i
      else first_match uri_word (S i) rest
  end.

(** The inner loop of [apply_uri_ignore_words]:
    [check_matches[:i] + check_matches[i + 1 :]] at the first hit *)
Definition remove_first (uri_word : string) (check_matches : list Match)
  : list Match :=
  match first_match uri_word 0 check_matches with
  | Some i => take i check_matches ++ drop (S i) check_matches
  | None => check_matches
  end.

(** The body of [for uri_word in extract_words(uri, ...)] *)
Definition ignore_uri_word (uri_ignore_words : gset string)
    (check_matches : list Match) (uri_word : string) : list Match :=
  if decide (uri_word ∈ uri_ignore_words)
  then remove_first uri_word check_matches
  else check_matches.

(** The words of all the URIs of a line, in the order the two outer
    loops of [apply_uri_ignore_words] visit them *)
Definition uri_words (line : string) (word_regex : Pattern)
    (ignore_word_regex : option Pattern) (uri_regex : Pattern) : list string :=
  concat (map (fun uri => extract_words uri word_regex ignore_word_regex)
              (Re.findall uri_regex line)).

(** [apply_uri_ignore_words(check_matches, line, word_regex,
    ignore_word_regex, uri_regex, uri_ignore_words)] *)
Definition apply_uri_ignore_words (check_matches : list Match) (line : string)
    (word_regex : Pattern) (ignore_word_regex : option Pattern)
    (uri_regex : Pattern) (uri_ignore_words : gset string) : list Match :=
  if decide (uri_ignore_words = ∅) then check_matches
  else
    fold_left
      (fun check_matches uri =>
         fold_left (ignore_uri_word uri_ignore_words)
           (extract_words uri word_regex ignore_word_regex) check_matches)
      (Re.findall uri_regex line) check_matches.

(** ** Line scanner *)

(** The fields of [options] that [parse_file] reads *)
Record Options := mkOptions {
  check_filenames : bool;
  quiet_level : Z;
  interactive : Z;
  write_changes : bool
}.

(** What the operating system answers about a path: not a regular file;
    [is_text_file] raises [PermissionError] or another [OSError]; the
    first 1024 bytes hold a zero byte; [file_opener.open] raises
    [OSError]; or the decoded lines and the encoding. *)
Inductive File :=
| Irregular
| PermissionDenied (strerror : string)
| ProbeFails
| Binary
| OpenFails
| Text (content : list string) (encoding : string).

(** [class Summary] *)
Definition Summary_update (wrongword : string) (summary : gmap string nat)
  : gmap string nat :=
  match summary !! wrongword with
  | Some n => <[wrongword := S n]> summary
  | None => <[wrongword := 1%nat]> summary
  end.

(** The objects that outlive one call of [parse_file]: the dictionary,
    the summary, the console and the files on disk. *)
Record Session := mkSession {
  misspellings : gmap string Misspelling;
  summary : option (gmap string nat);
  io : Console;
  disk : gmap string File
}.

(** The variables of [parse_file] that its loops update, next to the
    dictionary, the summary and the console. *)
Record Scan := mkScan {
  s_misspellings : gmap string Misspelling;
  s_summary : option (gmap string nat);
  s_io : Console;
  lines : list string;
  changed : bool;
  bad_count : Z;
  fixed_words : gset string;
  asked_for : gset string
}.

Definition set_io (io : Console) (st : Scan) : Scan :=
  mkScan (s_misspellings st) (s_summary st) io (lines st) (changed st)
    (bad_count st) (fixed_words st) (asked_for st).

(** [if summary and fix: summary.update(lword)] *)
Definition update_summary (fix' : bool) (lword : string) (st : Scan) : Scan :=
  match s_summary st with
  | Some sm =>
      if fix' then
        mkScan (s_misspellings st) (Some (Summary_update lword sm)) (s_io st)
          (lines st) (changed st) (bad_count st) (fixed_words st) (asked_for st)
      else st
  | None => st
  end.

(** [bad_count += 1] *)
Definition count_bad (st : Scan) : Scan :=
  mkScan (s_misspellings st) (s_summary st) (s_io st) (lines st) (changed st)
    (bad_count st + 1) (fixed_words st) (asked_for st).

(** [fixed_words = set()] and [asked_for = set()] *)
Definition new_line (st : Scan) : Scan :=
  mkScan (s_misspellings st) (s_summary st) (s_io st) (lines st) (changed st)
    (bad_count st) ∅ ∅.

(** [range(a, b)] *)
Definition range (a b : Z) : list Z := seqZ a (b - a).

(** [print_context(lines, index, context)] *)
Definition print_context (lines : list string) (index : nat) (context : Z * Z)
    (io : Console) : Console :=
  fold_left
    (fun io i =>
       if (0 <=? i) && (i <? Z.of_nat (length lines)) then
         println ((if i =? Z.of_nat index then ">" else ":") +:+ " " +:+
                  Py.rstrip (lines !!! Z.to_nat i)) io
       else io)
    (range (Z.of_nat index - context.1) (Z.of_nat index + context.2 + 1)) io.

(** [f"  | {colors.FILE}{reason}{colors.DISABLE}"] *)
Definition creason_of (colors : TermColors) (reason : string) : string :=
  "  | " +:+ FILE colors +:+ reason +:+ DISABLE colors.

Section Scanner.

Variable filename : string.
Variable colors : TermColors.
Variable exclude_lines : gset string.
Variable word_regex : Pattern.
Variable ignore_word_regex : option Pattern.
Variable uri_regex : Pattern.
Variable uri_ignore_words : gset string.
Variable context : option (Z * Z).
Variable options : Options.

(** The body of the loop over the words of the file name *)
Definition check_filename_word (st : Scan) (word : string) : Scan :=
  let lword := Py.lower word in
  match s_misspellings st !! lword with
  | None => st
  | Some entry =>
      let fix' := fix_ entry in
      let fixword := fix_case word (data entry) in
      let st := update_summary fix' lword st in
      let cfilename := FILE colors +:+ filename +:+ DISABLE colors in
      let cwrongword := WWORD colors +:+ word +:+ DISABLE colors in
      let crightword := FWORD colors +:+ fixword +:+ DISABLE colors in
      let report creason :=
        set_io (println (cfilename +:+ ": " +:+ cwrongword +:+ " ==> " +:+
                         crightword +:+ creason) (s_io st)) (count_bad st) in
      if Py.truthy (reason entry) then
        if Py.has_bit (quiet_level options) QuietLevels.DISABLED_FIXES then st
        else report (creason_of colors (reason entry))
      else
        if Py.has_bit (quiet_level options) QuietLevels.NON_AUTOMATIC_FIXES then st
        else report ""
  end.

(** The first part of the body of [for match in check_matches], for a
    word of the dictionary: the decision [(fix, fixword)], whether the
    context was shown, the entry after the call and the state after it. *)
Definition resolve (i : nat) (mt : Match) (entry : Misspelling) (st : Scan)
  : bool * bool * string * Misspelling * Scan :=
  let word := m_group mt in
  let lword := Py.lower word in
  if negb (interactive options =? 0) && bool_decide (lword ∉ asked_for st) then
    let context_shown := bool_decide (context <> None) in
    let io1 :=
      match context with
      | Some ctx => print_context (lines st) i ctx (s_io st)
      | None => s_io st
      end in
    let '(fix', fixword, entry', io2) :=
      ask_for_word_fix (lines st !!! i) mt entry (interactive options) colors io1 in
    (context_shown, fix', fixword, entry',
     mkScan (<[lword := entry']> (s_misspellings st)) (s_summary st) io2
       (lines st) (changed st) (bad_count st) (fixed_words st)
       ({[lword]} ∪ asked_for st))
  else
    (false, fix_ entry, fix_case word (data entry), entry, st).

(** The report of an uncorrected finding *)
Definition report_finding (i : nat) (line : string) (mt : Match)
    (context_shown : bool) (fixword creason : string) (st : Scan) : Scan :=
  let word := m_group mt in
  let cfilename := FILE colors +:+ filename +:+ DISABLE colors in
  let cline := FILE colors +:+ Py.str_of_nat (i + 1) +:+ DISABLE colors in
  let cwrongword := WWORD colors +:+ word +:+ DISABLE colors in
  let crightword := FWORD colors +:+ fixword +:+ DISABLE colors in
  let st := count_bad st in
  let io1 :=
    match context with
    | Some ctx => if context_shown then s_io st else print_context (lines st) i ctx (s_io st)
    | None => s_io st
    end in
  let io2 :=
    if decide (filename ≠ "-") then
      println (cfilename +:+ ":" +:+ cline +:+ ": " +:+ cwrongword +:+ " " +:+
               "==> " +:+ crightword +:+ creason) io1
    else
      println (cline +:+ ": " +:+ Py.strip line +:+ NL +:+ TAB +:+ cwrongword +:+ " " +:+
               "==> " +:+ crightword +:+ creason) io1 in
  set_io io2 st.

(** The body of [for match in check_matches].  [i] is the index of the
    line and [line] the text the matches were taken from.  [None]: the
    substitution raises or is outside the model (see [sub_whole_word]). *)
Definition scan_match (i : nat) (line : string) (st : Scan) (mt : Match)
  : option Scan :=
  let word := m_group mt in
  let lword := Py.lower word in
  match s_misspellings st !! lword with
  | None => Some st
  | Some entry =>
      let '(context_shown, fix', fixword, entry, st) := resolve i mt entry st in
      let st := update_summary fix' lword st in
      if decide (word ∈ fixed_words st) then Some st
      else if write_changes options && fix' then
        new_line ← sub_whole_word word fixword (lines st !!! i);
        Some (mkScan (s_misspellings st) (s_summary st) (s_io st)
                (<[i := new_line]> (lines st)) true (bad_count st)
                ({[word]} ∪ fixed_words st) (asked_for st))
      else if Py.has_bit (interactive options) 2 && negb fix'
              && negb (Py.truthy (reason entry)) then Some st
      else if Py.truthy (reason entry) then
        if Py.has_bit (quiet_level options) QuietLevels.DISABLED_FIXES then Some st
        else Some (report_finding i line mt context_shown fixword
                     (creason_of colors (reason entry)) st)
      else
        if Py.has_bit (quiet_level options) QuietLevels.NON_AUTOMATIC_FIXES then Some st
        else Some (report_finding i line mt context_shown fixword "" st)
  end.

(** [for match in check_matches] *)
Fixpoint scan_matches (i : nat) (line : string) (st : Scan)
    (check_matches : list Match) : option Scan :=
  match check_matches with
  | [] => Some st
  | mt :: rest => st' ← scan_match i line st mt; scan_matches i line st' rest
  end.

(** The text the words of a line are taken from: the line, without its
    URIs when every word of a URI is ignored *)
Definition scanned_text (line : string) : string :=
  if decide ("*" ∈ uri_ignore_words) then Re.sub uri_regex " " line else line.

(** [check_matches] when the loop over the matches of a line starts *)
Definition candidates (line : string) : list Match :=
  let line := scanned_text line in
  let check_matches := extract_words_iter line word_regex ignore_word_regex in
  if decide ("*" ∉ uri_ignore_words) then
    apply_uri_ignore_words check_matches line word_regex ignore_word_regex
      uri_regex uri_ignore_words
  else check_matches.

(** The body of [for i, line in enumerate(lines)] *)
Definition scan_line (i : nat) (line : string) (st : Scan) : option Scan :=
  if decide (line ∈ exclude_lines) then Some st
  else
    scan_matches i (scanned_text line) (new_line st) (candidates line).

(** [for i, line in enumerate(lines)], from index [i] on.  The loop
    runs over the lines as they were read: line [i] of the buffer is
    only replaced while it is being scanned. *)
Fixpoint scan_lines (i : nat) (rest : list string) (st : Scan) : option Scan :=
  match rest with
  | [] => Some st
  | line :: rest' => st' ← scan_line i line st; scan_lines (S i) rest' st'
  end.

(** The end of [parse_file]: the buffer is echoed (standard input) or
    written back (a file) when a line changed. *)
Definition finish (encoding : string) (dsk : gmap string File) (st : Scan)
  : Z * Session :=
  if changed st then
    if decide (filename = "-") then
      (bad_count st,
       mkSession (s_misspellings st) (s_summary st)
         (fold_left (fun io line => print line io) (lines st)
            (println "---" (s_io st))) dsk)
    else
      let io1 :=
        if Py.has_bit (quiet_level options) QuietLevels.FIXES then s_io st
        else eprintln (FWORD colors +:+ "FIXED:" +:+ DISABLE colors +:+ " " +:+
                       filename) (s_io st) in
      (bad_count st,
       mkSession (s_misspellings st) (s_summary st) io1
         (<[filename := Text (lines st) encoding]> dsk))
  else
    (bad_count st, mkSession (s_misspellings st) (s_summary st) (s_io st) dsk).

(** The state in which the loop over the lines starts *)
Definition start (ss : Session) (io0 : Console) (summary0 : option (gmap string nat))
    (lines0 : list string) (bad_count0 : Z) : Scan :=
  mkScan (misspellings ss) summary0 io0 lines0 false bad_count0 ∅ ∅.

(** What the part of [parse_file] before the loop over the lines
    yields: an early [return bad_count], or the lines to scan with their
    encoding. *)
Inductive Loaded :=
| Return (bad_count : Z) (ss : Session)
| Lines (lines0 : list string) (encoding : string) (st : Scan).

(** [parse_file] up to the loop over the lines *)
Definition load (ss : Session) : Loaded :=
  if decide (filename = "-") then
    let lines0 := stdin (io ss) in
    let io0 := mkConsole [] (stdout (io ss)) (stderr (io ss)) in
    Lines lines0 "utf-8" (start ss io0 (summary ss) lines0 0)
  else
    let st0 := start ss (io ss) (summary ss) [] 0 in
    let st0 :=
      if check_filenames options then
        fold_left check_filename_word
          (extract_words filename word_regex ignore_word_regex) st0
      else st0 in
    let early_return io1 :=
      Return (bad_count st0)
        (mkSession (s_misspellings st0) (s_summary st0) io1 (disk ss)) in
    match disk ss !! filename with
    | None | Some Irregular | Some ProbeFails | Some OpenFails => early_return (s_io st0)
    | Some (PermissionDenied strerror) =>
        early_return (eprintln ("WARNING: " +:+ strerror +:+ ": " +:+ filename) (s_io st0))
    | Some Binary =>
        early_return
          (if Py.has_bit (quiet_level options) QuietLevels.BINARY_FILE then s_io st0
           else eprintln ("WARNING: Binary file: " +:+ filename) (s_io st0))
    | Some (Text lines0 encoding) =>
        Lines lines0 encoding
          (start ss (s_io st0) (s_summary st0) lines0 (bad_count st0))
    end.

(** [parse_file(filename, colors, summary, misspellings, exclude_lines,
    file_opener, word_regex, ignore_word_regex, uri_regex,
    uri_ignore_words, context, options)]: the returned count and the
    session after the call.  [None]: a substitution raises, and the
    exception leaves [parse_file], or it is outside the model (see
    [sub_whole_word]). *)
Definition parse_file (ss : Session) : option (Z * Session) :=
  match load ss with
  | Return n ss' => Some (n, ss')
  | Lines lines0 encoding st =>
      finish encoding (disk ss) <$> scan_lines 0 lines0 st
  end.

End Scanner.

(** The built-in patterns, compiled *)
Definition word_pattern : Pattern := Re.compile word_regex_def.
Definition uri_pattern : Pattern := Re.compile uri_regex_def.

(** ** Option and file helpers *)

(** [parse_ignore_words_option(ignore_words_option)]; the option is
    [None] or the list of the values given on the command line *)
Definition parse_ignore_words_option (ignore_words_option : option (list string))
  : gset string :=
  match ignore_words_option with
  | None | Some [] => ∅
  | Some l =>
      fold_left
        (fun ignore_words comma_separated_words =>
           fold_left (fun ignore_words word => {[Py.strip word]} ∪ ignore_words)
             (Py.split_char "," comma_separated_words) ignore_words)
        l ∅
  end.

(** [build_exclude_hashes(filename, exclude_lines)], on the lines of
    the file *)
Definition build_exclude_hashes (file_lines : list string)
    (exclude_lines : gset string) : gset string :=
  fold_left (fun exclude_lines line => {[line]} ∪ exclude_lines)
    file_lines exclude_lines.

(** [build_ignore_words(filename, ignore_words)], on the lines of the
    file *)
Definition build_ignore_words (file_lines : list string)
    (ignore_words : gset string) : gset string :=
  fold_left (fun ignore_words line => {[Py.strip line]} ∪ ignore_words)
    file_lines ignore_words.

(** [os.path.basename] of [posixpath]: the text after the last slash *)
Definition basename (path : string) : string :=
  Py.slice_from (Z.to_nat (Py.rfind_char "/" path + 1)) path.

(** [is_hidden(filename, check_hidden)] *)
Definition is_hidden (filename : string) (check_hidden : bool) : bool :=
  let bfilename := basename filename in
  negb (bool_decide (bfilename = "" \/ bfilename = "." \/ bfilename = ".."))
  && (negb check_hidden
      && match bfilename with
         | String c _ => Ascii.eqb c "."
         | EmptyString => false
         end).

(** [class GlobMatch]: the [pattern_list] that [__init__] builds from
    the values of the skip option *)
Definition GlobMatch_init (pattern : option (list string)) : option (list string) :=
  match pattern with
  | None | Some [] => None
  | Some l => Some (Py.split_char "," (Py.join "," l))
  end.

(** [GlobMatch.match(filename)]; [fnmatch] is the matcher of the
    library *)
Definition GlobMatch_match (fnmatch : string -> string -> bool)
    (pattern_list : option (list string)) (filename : string) : bool :=
  match pattern_list with
  | None => false
  | Some l => existsb (fnmatch filename) l
  end.

(** [EX_USAGE] *)
Definition EX_USAGE : Z := 64.

(** The part of [main] that builds [context] from the options
    [--context], [--before-context] and [--after-context]: the exit
    status [EX_USAGE] on the left, the context on the right *)
Definition main_context (context before_context after_context : option Z)
  : Z + option (Z * Z) :=
  match context with
  | Some c =>
      if bool_decide (before_context <> None \/ after_context <> None)
      then inl EX_USAGE
      else let context_both := Z.max 0 c in inr (Some (context_both, context_both))
  | None =>
      if bool_decide (before_context <> None \/ after_context <> None) then
        let context_before :=
          match before_context with Some b => Z.max 0 b | None => 0 end in
        let context_after :=
          match after_context with Some a => Z.max 0 a | None => 0 end in
        inr (Some (context_before, context_after))
      else inr None
  end.

(** The part of [main] that fills [ignore_words] from the ignore files,
    after [parse_ignore_words_option]: a path that is no file ends the
    run with [EX_USAGE]; a file is given by its lines *)
Fixpoint main_ignore_words (ignore_words_files : list (option (list string)))
    (ignore_words : gset string) : Z + gset string :=
  match ignore_words_files with
  | [] => inr ignore_words
  | None :: _ => inl EX_USAGE
  | Some file_lines :: rest =>
      main_ignore_words rest (build_ignore_words file_lines ignore_words)
  end.

(** The loop of [main] over [use_dictionaries], each given by its
    lines *)
Fixpoint main_misspellings (use_dictionaries : list (list string))
    (misspellings : gmap string Misspelling) (ignore_words : gset string)
  : result (gmap string Misspelling) :=
  match use_dictionaries with
  | [] => Ok misspellings
  | dictionary :: rest =>
      match build_dict dictionary misspellings ignore_words with
      | Ok misspellings' => main_misspellings rest misspellings' ignore_words
      | Raise e => Raise e
      end
  end.

(** ** Vocabulary of the statements *)

(** The text holds the separator ["->"]. *)
Fixpoint has_arrow (s : string) : bool :=
  match s with
  | String c (String d _ as s') =>
      (Ascii.eqb c "-" && Ascii.eqb d ">") || has_arrow s'
  | _ => false
  end.

(** What the capitalized branch of [fix_case] renders *)
Definition capitalized (fixword : string) : string :=
  Py.join ", "
    (map (fun w => Py.capitalize (Py.strip w)) (Py.split_char "," fixword)).

(** Commas and white space *)
Definition is_sep (c : ascii) : bool := Ascii.eqb c "," || Py.is_space c.

(** The comma spacing of a text: its commas and white space in place,
    every other character blotted out *)
Definition comma_spacing (s : string) : string :=
  Py.map_chars (fun c => if is_sep c then c else "x"%char) s.

(** The invariant of a dictionary entry and of a dictionary *)
Definition entry_ok (m : Misspelling) : Prop :=
  reason m <> "" -> fix_ m = false.

Definition dict_ok (d : gmap string Misspelling) : Prop :=
  map_Forall (fun _ m => entry_ok m) d.

(** The stretches of a text outside the given spans, from index [i]
    on: what [sub] keeps *)
Fixpoint outside (text : string) (i : nat) (sp : list (nat * nat)) : list string :=
  match sp with
  | [] => [Py.slice_from i text]
  | (b, e) :: sp' => Py.slice i b text :: outside text e sp'
  end.

(** [part] occurs in [whole] *)
Definition substring_of (part whole : string) : Prop :=
  exists pre post, whole = pre +:+ part +:+ post.

(** C3 as stated: one candidate leaves the list of a line for every
    word of a URI that is to be ignored. *)
Definition one_removed_per_uri_word (word_regex : Pattern)
    (ignore_word_regex : option Pattern) (uri_regex : Pattern)
    (uri_ignore_words : gset string) (line : string) : Prop :=
  (length (candidates word_regex ignore_word_regex uri_regex uri_ignore_words line)
   + length (filter (fun w => w ∈ uri_ignore_words)
               (uri_words line word_regex ignore_word_regex uri_regex))
   = length (extract_words_iter line word_regex ignore_word_regex))%nat.

(** The three rules that keep a finding out of the report: a reason
    under the disabled-fixes quiet bit, no reason under the
    non-automatic-fixes quiet bit, and, in choose mode, a finding left
    unfixed that has no reason. *)
Definition suppressed (options : Options) (fix' : bool) (reason : string) : bool :=
  (Py.truthy reason && Py.has_bit (quiet_level options) QuietLevels.DISABLED_FIXES)
  || (negb (Py.truthy reason)
      && Py.has_bit (quiet_level options) QuietLevels.NON_AUTOMATIC_FIXES)
  || (Py.has_bit (interactive options) 2 && negb fix' && negb (Py.truthy reason)).

(** C2 as stated: only the first whole-word occurrence is replaced. *)
Definition sub_first_whole_word (word fixword text : string) : string :=
  match spans (whole_word word) text with
  | [] => text
  | (b, e) :: _ => Py.slice_to b text +:+ fixword +:+ Py.slice_from e text
  end.

Section Decisions.

Variable filename : string.
Variable colors : TermColors.
Variable exclude_lines : gset string.
Variable word_regex : Pattern.
Variable ignore_word_regex : option Pattern.
Variable uri_regex : Pattern.
Variable uri_ignore_words : gset string.
Variable context : option (Z * Z).
Variable options : Options.

(** The fix decision for a match is affirmative: write mode is on and
    the match is a word of the dictionary that is resolved to a fix. *)
Definition affirmative (i : nat) (st : Scan) (mt : Match) : bool :=
  write_changes options &&
  match s_misspellings st !! Py.lower (m_group mt) with
  | Some entry => (resolve colors context options i mt entry st).1.1.1.2
  | None => false
  end.

(** No fix decision is affirmative while the matches of a line are
    scanned from state [st] on. *)
Fixpoint all_declined_matches (i : nat) (line : string) (st : Scan)
    (check_matches : list Match) : bool :=
  match check_matches with
  | [] => true
  | mt :: rest =>
      negb (affirmative i st mt) &&
      match scan_match filename colors context options i line st mt with
      | Some st' => all_declined_matches i line st' rest
      | None => false
      end
  end.

(** No fix decision is affirmative while the lines are scanned. *)
Fixpoint all_declined_lines (i : nat) (rest : list string) (st : Scan) : bool :=
  match rest with
  | [] => true
  | line :: rest' =>
      (bool_decide (line ∈ exclude_lines) ||
       all_declined_matches i (scanned_text uri_regex uri_ignore_words line)
         (new_line st)
         (candidates word_regex ignore_word_regex uri_regex uri_ignore_words line)) &&
      match scan_line filename colors exclude_lines word_regex ignore_word_regex
              uri_regex uri_ignore_words context options i line st with
      | Some st' => all_declined_lines (S i) rest' st'
      | None => false
      end
  end.

(** No fix decision is affirmative during the processing of the file. *)
Definition all_declined (ss : Session) : bool :=
  match load filename colors word_regex ignore_word_regex options ss with
  | Return _ _ => true
  | Lines lines0 _ st => all_declined_lines 0 lines0 st
  end.

End Decisions.

(** Spans in line order that do not overlap and lie in a text of length
    [len], from index [i] on *)
Fixpoint chained (i len : nat) (sp : list (nat * nat)) : Prop :=
  match sp with
  | [] => True
  | (b, e) :: sp' => (i <= b)%nat /\ (b <= e)%nat /\ (e <= len)%nat /\ chained e len sp'
  end.

(** [\b] holds at index [p] of [text]: of the character before [p]
    and the character at [p], exactly one is a word character *)
Definition boundary (text : string) (p : nat) : bool :=
  xorb (Re.word_at (match p with O => None | S q => String.get q text end))
       (Re.word_at (String.get p text)).

(** The cursor of the matcher at index [n] of [text] *)
Definition cursor_at (text : string) (n : nat) : Re.cursor :=
  Re.mkCursor (match n with O => None | S q => String.get q text end)
    (Py.slice_from n text) n.

(** [word] stands at index [p] of [text] between two word boundaries *)
Definition whole_word_at (word text : string) (p : nat) : Prop :=
  Py.slice p (p + String.length word) text = word /\
  boundary text p = true /\
  boundary text (p + String.length word) = true.

(** The spans are the whole-word occurrences of [word] in [text] from
    index [i] on, found from left to right, the search going on where
    the occurrence found before ends: no occurrence starts between
    them or after the last of them. *)
Fixpoint leftmost_occurrences (word text : string) (i : nat)
    (sp : list (nat * nat)) : Prop :=
  match sp with
  | [] => forall p, (i <= p)%nat -> ~ whole_word_at word text p
  | (b, e) :: sp' =>
      (i <= b)%nat /\ e = (b + String.length word)%nat /\
      whole_word_at word text b /\
      (forall p, (i <= p < b)%nat -> ~ whole_word_at word text p) /\
      leftmost_occurrences word text e sp'
  end.




(** The line a finding is reported with: the index of the line and the
    text printed for the context window of [print_context] *)
Definition context_text (lines : list string) (index : nat) (i : Z) : string :=
  (if i =? Z.of_nat index then ">" else ":") +:+ " " +:+
  Py.rstrip (lines !!! Z.to_nat i) +:+ NL.

(** A cursor further on in the same text *)
Definition reaches (c c' : Re.cursor) : Prop :=
  (Re.pos c <= Re.pos c')%nat /\
  (Re.pos c' + String.length (Re.rest c') = Re.pos c + String.length (Re.rest c))%nat.

(** The number of candidates of the lines of a file *)
Definition total_candidates (word_regex : Pattern)
    (ignore_word_regex : option Pattern) (uri_regex : Pattern)
    (uri_ignore_words : gset string) (lines0 : list string) : Z :=
  fold_right
    (fun line n =>
       Z.of_nat (length (candidates word_regex ignore_word_regex uri_regex
                           uri_ignore_words line)) + n)
    0 lines0.

(** ** Sample runs *)

(** A dictionary with the single entry [teh->the] *)
Definition teh_dict : gmap string Misspelling :=
  {[ "teh" := mkMisspelling "the" true "" ]}.

(** The scan state at the start of a buffer, with that dictionary *)
Definition teh_scan (buffer : list string) : Scan :=
  mkScan teh_dict None (mkConsole [] [] []) buffer false 0 ∅ ∅.

(** A session with the file [f.txt] on disk and the given input *)
Definition teh_session (content inp : list string) : Session :=
  mkSession teh_dict None (mkConsole inp [] [])
    {[ "f.txt" := Text content "utf-8" ]}.

(** Options: report only; write changes; write changes and confirm *)
Definition report_only : Options := mkOptions false 0 0 false.
Definition write_all : Options := mkOptions false 0 0 true.
Definition write_confirmed : Options := mkOptions false 0 1 true.

(** * Properties *)

(** ** Strings *)

Lemma append_cons c s t : String c s +:+ t = String c (s +:+ t).
Proof. reflexivity. Qed.

Lemma append_nil_l s : "" +:+ s = s.
Proof. reflexivity. Qed.

Lemma append_nil_r s : s +:+ "" = s.
Proof. induction s as [|c s IH]; [done|]. by rewrite append_cons, IH. Qed.

Lemma append_assoc s t u : (s +:+ t) +:+ u = s +:+ t +:+ u.
Proof. induction s as [|c s IH]; [done|]. by rewrite !append_cons, IH. Qed.

Lemma length_append s t :
  String.length (s +:+ t) = (String.length s + String.length t)%nat.
Proof. induction s as [|c s IH]; [done|]. rewrite append_cons. simpl. by rewrite IH. Qed.

Lemma slice_to_append s t : Py.slice_to (String.length s) (s +:+ t) = s.
Proof. induction s as [|c s IH]; [by destruct t|]. rewrite append_cons. simpl. by rewrite IH. Qed.

Lemma slice_from_append s t : Py.slice_from (String.length s) (s +:+ t) = t.
Proof. induction s as [|c s IH]; [by destruct t|]. rewrite append_cons. simpl. by rewrite IH. Qed.

Lemma rfind_char_lower_bound c s : -1 <= Py.rfind_char c s.
Proof.
  induction s as [|d s IH]; simpl; [lia|].
  destruct (0 <=? Py.rfind_char c s) eqn:E; [lia|]. destruct (Ascii.eqb d c); lia.
Qed.

Lemma rfind_char_absent c s : Py.contains c s = false -> Py.rfind_char c s = -1.
Proof.
  induction s as [|d s IH]; simpl; [done|].
  intros [Hd Hs]%orb_false_iff. rewrite (IH Hs), Hd. done.
Qed.

Lemma rfind_char_last c s t :
  Py.contains c t = false ->
  Py.rfind_char c (s +:+ String c t) = Z.of_nat (String.length s).
Proof.
  intros Ht. induction s as [|d s IH].
  - rewrite append_nil_l. simpl. rewrite (rfind_char_absent _ _ Ht), Ascii.eqb_refl. done.
  - rewrite append_cons. simpl. rewrite IH.
    destruct (0 <=? Z.of_nat (String.length s)) eqn:E; lia.
Qed.

(** ** The dictionary builder *)

Lemma split_arrow_not_nil s : Py.split_arrow s <> [].
Proof.
  destruct s as [|c [|d s]]; simpl; try done.
  - destruct (Ascii.eqb c "-" && Ascii.eqb d ">"); [done|].
    by destruct (match s with "" => _ | String _ _ => _ end).
Qed.

Lemma split_arrow_cons c s :
  Py.split_arrow (String c s) =
    match s with
    | String d s' =>
        if Ascii.eqb c "-" && Ascii.eqb d ">" then "" :: Py.split_arrow s'
        else match Py.split_arrow s with
             | p :: ps => String c p :: ps
             | [] => [String c ""]
             end
    | "" => [String c ""]
    end.
Proof. by destruct s. Qed.

Lemma has_arrow_cons c s :
  has_arrow (String c s) =
    match s with
    | String d _ => (Ascii.eqb c "-" && Ascii.eqb d ">") || has_arrow s
    | "" => false
    end.
Proof. by destruct s. Qed.

Lemma split_arrow_free s : has_arrow s = false -> Py.split_arrow s = [s].
Proof.
  induction s as [|c s IH]; [done|].
  rewrite has_arrow_cons, split_arrow_cons. destruct s as [|d s']; [done|].
  intros [-> Hs]%orb_false_iff. by rewrite (IH Hs).
Qed.

Lemma split_arrow_first k r :
  has_arrow k = false ->
  Py.split_arrow (k +:+ "->" +:+ r) = k :: Py.split_arrow r.
Proof.
  induction k as [|c k IH].
  - intros _. rewrite append_nil_l, !append_cons, append_nil_l.
    by rewrite split_arrow_cons.
  - rewrite has_arrow_cons. intros Hk.
    pose proof (IH' := IH). rewrite append_cons, split_arrow_cons.
    destruct k as [|d k'].
    + rewrite IH by done. rewrite append_nil_l, append_cons.
      simpl. by rewrite andb_false_r.
    + apply orb_false_iff in Hk as [E Hk]. rewrite IH by done.
      rewrite append_cons. simpl. by rewrite E.
Qed.

Lemma has_arrow_first s :
  has_arrow s = true ->
  exists k r, s = k +:+ "->" +:+ r /\ has_arrow k = false.
Proof.
  induction s as [|c s IH]; [done|].
  rewrite has_arrow_cons. destruct s as [|d s']; [done|].
  destruct (Ascii.eqb c "-" && Ascii.eqb d ">") eqn:E; simpl.
  - intros _. apply andb_true_iff in E as [->%Ascii.eqb_eq ->%Ascii.eqb_eq].
    by exists "", s'.
  - intros (k & r & Hs & Hk)%IH. exists (String c k), r. split.
    + by rewrite append_cons, <- Hs.
    + rewrite has_arrow_cons. destruct k as [|d' k']; [done|].
      rewrite append_cons in Hs. injection Hs as <- _. by rewrite E, Hk.
Qed.

Lemma parse_entry_ok ignore_words line k d :
  Py.split_arrow line = [k; d] -> exists r, parse_entry ignore_words line = Ok r.
Proof.
  intros H. unfold parse_entry. rewrite H.
  repeat (case_match; eauto).
Qed.

(** C5 (as amended).  [build_dict] cuts a line at every ["->"] and
    unpacks the parts into [key, data]: a line without the separator
    fails with [ValueError], a line with exactly one occurrence yields
    the text before it and the text after it and does not fail, and a
    line with a second occurrence after the first one fails as well.
    Every line that holds the separator has a first occurrence, so the
    three cases cover all lines. *)
Theorem parse_entry_needs_one_arrow (ignore_words : gset string) (line : string) :
  (has_arrow line = false -> parse_entry ignore_words line = Raise ValueError) /\
  (forall k d, line = k +:+ "->" +:+ d -> has_arrow k = false -> has_arrow d = false ->
     Py.split_arrow line = [k; d] /\ exists r, parse_entry ignore_words line = Ok r) /\
  (forall k r, line = k +:+ "->" +:+ r -> has_arrow k = false -> has_arrow r = true ->
     parse_entry ignore_words line = Raise ValueError) /\
  (has_arrow line = true ->
     exists k r, line = k +:+ "->" +:+ r /\ has_arrow k = false).
Proof.
  repeat split.
  - intros H. unfold parse_entry. by rewrite (split_arrow_free _ H).
  - subst line. rewrite (split_arrow_first _ _ H0). by rewrite (split_arrow_free _ H1).
  - subst line. eapply parse_entry_ok.
    rewrite (split_arrow_first _ _ H0). by rewrite (split_arrow_free _ H1).
  - intros k r -> Hk Hr. unfold parse_entry. rewrite (split_arrow_first _ _ Hk).
    destruct (has_arrow_first _ Hr) as (k' & r' & -> & Hk').
    rewrite (split_arrow_first _ _ Hk').
    pose proof (split_arrow_not_nil r'). by destruct (Py.split_arrow r').
  - apply has_arrow_first.
Qed.

Lemma parse_entry_needs_one_arrow_witness :
  Py.split_arrow "teh->the" = ["teh"; "the"] /\
  exists r, parse_entry ∅ "teh->the" = Ok r.
Proof.
  apply (proj1 (proj2 (parse_entry_needs_one_arrow ∅ "teh->the")) "teh" "the");
    reflexivity.
Defined.

(** C5 as stated fails: the line [a->b->c] holds the separator, and the
    load fails on it. *)
Lemma parse_entry_two_arrows :
  ~ (forall line, has_arrow line = true -> exists r, parse_entry ∅ line = Ok r).
Proof.
  intros H. destruct (H "a->b->c" eq_refl) as [r Hr].
  vm_compute in Hr. discriminate.
Qed.

Lemma length_append_Z s t : Py.len (s +:+ t) = Py.len s + Py.len t.
Proof. unfold Py.len. rewrite length_append. lia. Qed.

Lemma slice_from_append_succ s c t :
  Py.slice_from (Z.to_nat (Py.len s + 1)) (s +:+ String c t) = t.
Proof.
  unfold Py.len. replace (Z.to_nat (Z.of_nat (String.length s) + 1)) with
    (String.length (s +:+ String c "")) by (rewrite length_append; simpl; lia).
  replace (s +:+ String c t) with ((s +:+ String c "") +:+ t)
    by (by rewrite append_assoc).
  apply slice_from_append.
Qed.

Lemma slice_to_append_Z s t : Py.slice_to (Z.to_nat (Py.len s)) (s +:+ t) = s.
Proof. unfold Py.len. rewrite Nat2Z.id. apply slice_to_append. Qed.

(** C4.  For a source line that splits into [key] and [dat], with the
    lowercased key not ignored, [build_dict] stores under the lowercased
    key an entry determined by [d], the lowercased and trimmed data: if
    [d] holds no comma, [d] itself with [fix] set and an empty reason;
    if [d] ends in its last comma, [d] without that comma, [fix] clear,
    empty reason; if text follows the last comma, the text before that
    comma, [fix] clear, and the trimmed text after it as the reason. *)
Theorem build_dict_entry_shape (ignore_words : gset string)
    (misspellings : gmap string Misspelling) (line key dat : string) :
  Py.split_arrow line = [key; dat] ->
  Py.lower key ∉ ignore_words ->
  let d := Py.strip (Py.lower dat) in
  exists m,
    build_dict [line] misspellings ignore_words
      = Ok (<[Py.lower key := m]> misspellings) /\
    (Py.contains "," d = false -> m = mkMisspelling d true "") /\
    (forall c, d = c +:+ "," -> m = mkMisspelling c false "") /\
    (forall c r, d = c +:+ "," +:+ r -> r <> "" -> Py.contains "," r = false ->
       m = mkMisspelling c false (Py.strip r)).
Proof.
  intros Hsplit Hkey d. unfold build_dict, parse_entry. rewrite Hsplit.
  destruct (decide (Py.lower key ∈ ignore_words)) as [|_]; [done|].
  fold d. pose proof (rfind_char_lower_bound "," d) as Hlow.
  assert (Hlast : forall c r, d = c +:+ "," +:+ r -> Py.contains "," r = false ->
            Py.rfind_char "," d = Py.len c /\ Py.len d = Py.len c + 1 + Py.len r).
  { intros c r -> Hr. split; [by apply rfind_char_last|].
    rewrite !length_append_Z. unfold Py.len. simpl. lia. }
  destruct (Py.rfind_char "," d <? 0) eqn:E1.
  { eexists. split; [reflexivity|]. split; [done|].
    split.
    - intros c Hd. destruct (Hlast c "" Hd eq_refl). unfold Py.len in *. lia.
    - intros c r Hd _ Hr. destruct (Hlast c r Hd Hr). unfold Py.len in *. lia. }
  destruct (Py.rfind_char "," d =? Py.len d - 1) eqn:E2.
  { eexists. split; [reflexivity|]. split; [|split].
    - intros Hno. rewrite (rfind_char_absent _ _ Hno) in E1. done.
    - intros c Hd. destruct (Hlast c "" Hd eq_refl) as [-> _].
      rewrite Hd. by rewrite slice_to_append_Z.
    - intros c r Hd Hne Hr. destruct (Hlast c r Hd Hr) as [H1 H2].
      destruct r; [done|]. unfold Py.len in *. simpl in *. lia. }
  eexists. split; [reflexivity|]. split; [|split].
  - intros Hno. rewrite (rfind_char_absent _ _ Hno) in E1. done.
  - intros c Hd. destruct (Hlast c "" Hd eq_refl) as [H1 H2].
    unfold Py.len in *. simpl in *. lia.
  - intros c r Hd Hne Hr. destruct (Hlast c r Hd Hr) as [-> _].
    rewrite Hd. rewrite slice_to_append_Z.
    change (c +:+ "," +:+ r) with (c +:+ String "," r).
    by rewrite slice_from_append_succ.
Qed.

Lemma build_dict_entry_shape_witness :
  exists m,
    build_dict ["Abandonned->Abandoned, Forsaken,  No Longer Used " +:+ NL] ∅ ∅
      = Ok (<["abandonned" := m]> ∅) /\
    m = mkMisspelling "abandoned, forsaken" false "no longer used".
Proof.
  destruct (build_dict_entry_shape ∅ ∅
    ("Abandonned->Abandoned, Forsaken,  No Longer Used " +:+ NL)
    "Abandonned" ("Abandoned, Forsaken,  No Longer Used " +:+ NL)
    eq_refl (not_elem_of_empty _)) as (m & Hm & _ & _ & H3).
  exists m. split; [exact Hm|].
  apply (H3 "abandoned, forsaken" "  no longer used"); [reflexivity|done|reflexivity].
Defined.

(** ** The case-shape resolver *)

Lemma upper_char_sep c :
  (if is_sep (Py.upper_char c) then Py.upper_char c else "x"%char)
  = (if is_sep c then c else "x"%char).
Proof. destruct c as [[] [] [] [] [] [] [] []]; reflexivity. Qed.

Lemma comma_spacing_upper s : comma_spacing (Py.upper s) = comma_spacing s.
Proof.
  induction s as [|c s IH]; [done|].
  unfold comma_spacing, Py.upper in *. simpl. by rewrite IH, upper_char_sep.
Qed.

Lemma upper_letter_shapes c :
  Py.is_upper c = true -> Py.upper_char c = c.
Proof. destruct c as [[] [] [] [] [] [] [] []]; (reflexivity || discriminate). Qed.

(** C10.  [fix_case] tests the capitalized shape first: a word equal to
    its own capitalization gets every candidate trimmed, capitalized and
    joined with a comma and a blank, also when the word equals its own
    uppercase form, as every one-letter uppercase word does.  A word
    that is not its own capitalization gets the uppercased correction
    when it is its own uppercase form, and the stored correction
    otherwise; both keep the commas and the white space of the stored
    correction in place, which the capitalized branch does not. *)
Theorem fix_case_capitalized_first (word fixword : string) :
  (word = Py.capitalize word -> fix_case word fixword = capitalized fixword) /\
  (word <> Py.capitalize word -> word = Py.upper word ->
     fix_case word fixword = Py.upper fixword /\
     comma_spacing (fix_case word fixword) = comma_spacing fixword) /\
  (word <> Py.capitalize word -> word <> Py.upper word ->
     fix_case word fixword = fixword) /\
  (forall c, Py.is_upper c = true ->
     String c "" = Py.capitalize (String c "") /\
     String c "" = Py.upper (String c "") /\
     fix_case (String c "") fixword = capitalized fixword) /\
  (fix_case "A" "b ,c" = "B, C" /\ Py.upper "b ,c" = "B ,C" /\
   comma_spacing (fix_case "A" "b ,c") <> comma_spacing "b ,c").
Proof.
  unfold fix_case, capitalized. repeat split.
  - intros H. by destruct (decide (word = Py.capitalize word)).
  - destruct (decide (word = Py.capitalize word)); [done|].
    by destruct (decide (word = Py.upper word)).
  - destruct (decide (word = Py.capitalize word)); [done|].
    destruct (decide (word = Py.upper word)); [|done].
    apply comma_spacing_upper.
  - destruct (decide (word = Py.capitalize word)); [done|].
    by destruct (decide (word = Py.upper word)).
  - simpl. by rewrite upper_letter_shapes.
  - unfold Py.upper. simpl. by rewrite upper_letter_shapes.
  - destruct (decide (String c "" = Py.capitalize (String c ""))) as [|Hn]; [done|].
    exfalso. apply Hn. simpl. by rewrite upper_letter_shapes.
  - vm_compute. discriminate.
Qed.

Lemma fix_case_capitalized_first_witness :
  fix_case "A" "b ,c" = capitalized "b ,c".
Proof.
  apply (proj1 (fix_case_capitalized_first "A" "b ,c")). reflexivity.
Defined.

(** ** The interactive resolver *)

(** The entry after [ask_for_word_fix] is the entry before the call, or
    that entry with [fix] cleared, or (for an entry without a reason) a
    chosen candidate with [fix] set. *)
Lemma ask_for_word_fix_entry line mt m interactivity colors io :
  let m' := (ask_for_word_fix line mt m interactivity colors io).1.2 in
  m' = m \/
  m' = mkMisspelling (data m) false (reason m) \/
  (reason m = "" /\ exists r, m' = mkMisspelling r true "").
Proof.
  unfold ask_for_word_fix.
  destruct (interactivity <=? 0); [by left|].
  destruct (fix_ m && Py.has_bit interactivity 1).
  - destruct (confirm_loop _ _ _) as [[r inp] out].
    destruct (decide (r = "N")); simpl; auto.
  - destruct (Py.has_bit interactivity 2 && negb (Py.truthy (reason m))) eqn:E;
      [|by left].
    apply andb_true_iff in E as [_ E].
    assert (reason m = "") as Hr by (by destruct (reason m)).
    destruct (choose_loop _ _ _ _ _) as [[r inp] out].
    destruct (Py.truthy r); simpl; [|by left].
    right. right. split; [done|]. exists r. by rewrite Hr.
Qed.

(** The pair [ask_for_word_fix] returns is read off the entry it
    leaves. *)
Lemma ask_for_word_fix_returns line mt m interactivity colors io :
  let r := ask_for_word_fix line mt m interactivity colors io in
  r.1.1.1 = fix_ r.1.2 /\ r.1.1.2 = fix_case (m_group mt) (data r.1.2).
Proof.
  unfold ask_for_word_fix.
  destruct (interactivity <=? 0); [done|].
  destruct (fix_ m && Py.has_bit interactivity 1).
  - destruct (confirm_loop _ _ _) as [[r inp] out].
    by destruct (decide (r = "N")).
  - destruct (Py.has_bit interactivity 2 && negb (Py.truthy (reason m))); [|done].
    destruct (choose_loop _ _ _ _ _) as [[r inp] out].
    by destruct (Py.truthy r).
Qed.

Lemma ask_for_word_fix_entry_ok line mt m interactivity colors io :
  entry_ok m -> entry_ok (ask_for_word_fix line mt m interactivity colors io).1.2.
Proof.
  intros Hm.
  destruct (ask_for_word_fix_entry line mt m interactivity colors io)
    as [-> | [-> | [_ [r ->]]]]; [done| |]; by intros ?.
Qed.

Lemma parse_entry_entry_ok ignore_words line key m :
  parse_entry ignore_words line = Ok (Some (key, m)) -> entry_ok m.
Proof.
  unfold parse_entry. intros H. repeat case_match; simplify_eq; by intros ?.
Qed.

Lemma build_dict_dict_ok lines d ignore_words d' :
  dict_ok d -> build_dict lines d ignore_words = Ok d' -> dict_ok d'.
Proof.
  revert d. induction lines as [|line lines IH]; intros d Hd; simpl.
  - by intros [= <-].
  - destruct (parse_entry ignore_words line) as [[[key m]|]|] eqn:E; [| |done].
    + apply IH. apply map_Forall_insert_2; [|done].
      by eapply parse_entry_entry_ok.
    + by apply IH.
Qed.

(** ** The scanner *)

Section ScannerFacts.

Variable filename : string.
Variable colors : TermColors.
Variable exclude_lines : gset string.
Variable word_regex : Pattern.
Variable ignore_word_regex : option Pattern.
Variable uri_regex : Pattern.
Variable uri_ignore_words : gset string.
Variable context : option (Z * Z).
Variable options : Options.

Local Abbreviation resolve' := (resolve colors context options).
Local Abbreviation scan_match' := (scan_match filename colors context options).
Local Abbreviation scan_matches' := (scan_matches filename colors context options).
Local Abbreviation scan_line' :=
  (scan_line filename colors exclude_lines word_regex ignore_word_regex
     uri_regex uri_ignore_words context options).
Local Abbreviation scan_lines' :=
  (scan_lines filename colors exclude_lines word_regex ignore_word_regex
     uri_regex uri_ignore_words context options).
Local Abbreviation load' :=
  (load filename colors word_regex ignore_word_regex options).
Local Abbreviation parse_file' :=
  (parse_file filename colors exclude_lines word_regex ignore_word_regex
     uri_regex uri_ignore_words context options).

Lemma update_summary_fields fx lword st :
  let st' := update_summary fx lword st in
  s_misspellings st' = s_misspellings st /\ s_io st' = s_io st /\
  lines st' = lines st /\ changed st' = changed st /\
  bad_count st' = bad_count st /\ fixed_words st' = fixed_words st /\
  asked_for st' = asked_for st.
Proof. unfold update_summary. destruct (s_summary st), fx; done. Qed.

Lemma report_finding_fields i line mt cs fixword creason st :
  let st' := report_finding filename colors context i line mt cs fixword creason st in
  s_misspellings st' = s_misspellings st /\ s_summary st' = s_summary st /\
  lines st' = lines st /\ changed st' = changed st /\
  bad_count st' = bad_count st + 1 /\ fixed_words st' = fixed_words st /\
  asked_for st' = asked_for st.
Proof. done. Qed.

(** What [resolve] leaves of the state: only the dictionary entry of the
    word, the console and the set of words asked for may differ. *)
Lemma resolve_fields i mt entry st cs fx fixword entry' st1 :
  resolve' i mt entry st = (cs, fx, fixword, entry', st1) ->
  (s_misspellings st1 = s_misspellings st \/
   s_misspellings st1 = <[Py.lower (m_group mt) := entry']> (s_misspellings st)) /\
  (entry' = entry \/
   entry' = (ask_for_word_fix (lines st !!! i) mt entry (interactive options) colors
              (match context with
               | Some ctx => print_context (lines st) i ctx (s_io st)
               | None => s_io st
               end)).1.2) /\
  fx = fix_ entry' /\ fixword = fix_case (m_group mt) (data entry') /\
  s_summary st1 = s_summary st /\ lines st1 = lines st /\
  changed st1 = changed st /\ bad_count st1 = bad_count st /\
  fixed_words st1 = fixed_words st.
Proof.
  unfold resolve.
  destruct (negb (interactive options =? 0) &&
            bool_decide (Py.lower (m_group mt) ∉ asked_for st)).
  - set (io1 := match context with Some _ => _ | None => _ end).
    pose proof (ask_for_word_fix_returns (lines st !!! i) mt entry
                  (interactive options) colors io1) as [H1 H2].
    destruct (ask_for_word_fix _ _ _ _ _ _) as [[[fx0 fw0] e0] io2].
    simpl in *. intros H. simplify_eq. simpl. auto 10.
  - intros [= <- <- <- <- <-]. auto 10.
Qed.

Lemma scan_match_absent i line st mt :
  s_misspellings st !! Py.lower (m_group mt) = None ->
  scan_match' i line st mt = Some st.
Proof. intros H. unfold scan_match. by rewrite H. Qed.

Lemma scan_match_dict_ok i line st mt st' :
  dict_ok (s_misspellings st) ->
  scan_match' i line st mt = Some st' ->
  dict_ok (s_misspellings st').
Proof.
  intros Hd. unfold scan_match.
  destruct (s_misspellings st !! Py.lower (m_group mt)) as [entry|] eqn:Hl;
    [|by intros [= <-]].
  destruct (resolve' i mt entry st) as [[[[cs fx] fw] e'] st1] eqn:Hres.
  apply resolve_fields in Hres as (Hm & He & _).
  assert (dict_ok (s_misspellings st1)) as Hd1.
  { destruct Hm as [-> | ->]; [done|].
    apply map_Forall_insert_2; [|done].
    destruct He as [-> | ->].
    - by apply (Hd _ _ Hl).
    - apply ask_for_word_fix_entry_ok. by apply (Hd _ _ Hl). }
  pose proof (update_summary_fields fx (Py.lower (m_group mt)) st1) as (Hu & _).
  cbv zeta in Hu. rewrite <- Hu in Hd1.
  intros H. repeat case_match; simplify_option_eq; done.
Qed.

(** A property of the state that every match step and every start of a
    line preserve holds after the loop over the lines. *)
Lemma scan_matches_invariant (P : Scan -> Prop) :
  (forall i line st mt st', P st -> scan_match' i line st mt = Some st' -> P st') ->
  forall check_matches i line st st',
    P st -> scan_matches' i line st check_matches = Some st' -> P st'.
Proof.
  intros Hstep. induction check_matches as [|mt rest IH]; intros i line st st' HP; simpl.
  - by intros [= <-].
  - destruct (scan_match' i line st mt) as [st1|] eqn:E; [|done]. simpl.
    eapply IH, Hstep; eauto.
Qed.

Lemma scan_lines_invariant (P : Scan -> Prop) :
  (forall st, P st -> P (new_line st)) ->
  (forall i line st mt st', P st -> scan_match' i line st mt = Some st' -> P st') ->
  forall rest i st st',
    P st -> scan_lines' i rest st = Some st' -> P st'.
Proof.
  intros Hnew Hstep. induction rest as [|line rest IH]; intros i st st' HP; simpl.
  - by intros [= <-].
  - destruct (scan_line' i line st) as [st1|] eqn:E; [|done]. simpl.
    apply IH. unfold scan_line in E.
    destruct (decide (line ∈ exclude_lines)); [by simplify_eq|].
    eapply scan_matches_invariant; [exact Hstep| |exact E]. by apply Hnew.
Qed.

Lemma check_filename_word_fields st word :
  let st' := check_filename_word filename colors options st word in
  s_misspellings st' = s_misspellings st /\ lines st' = lines st /\
  changed st' = changed st /\ bad_count st <= bad_count st'.
Proof.
  unfold check_filename_word.
  destruct (s_misspellings st !! Py.lower word) as [entry|]; [|by repeat split].
  pose proof (update_summary_fields (fix_ entry) (Py.lower word) st) as (? & ? & ? & ? & ? & _).
  repeat case_match; simpl in *; repeat split; (congruence || lia).
Qed.

Lemma check_filename_fields words st :
  let st' := fold_left (check_filename_word filename colors options) words st in
  s_misspellings st' = s_misspellings st /\ lines st' = lines st /\
  changed st' = changed st /\ bad_count st <= bad_count st'.
Proof.
  revert st. induction words as [|w words IH]; intros st; simpl; [by repeat split; lia|].
  destruct (IH (check_filename_word filename colors options st w)) as (? & ? & ? & ?).
  destruct (check_filename_word_fields st w) as (? & ? & ? & ?).
  cbv zeta in *. repeat split; (congruence || lia).
Qed.

(** What [load] hands to the loop over the lines *)
Lemma load_lines ss lines0 encoding st :
  load' ss = Lines lines0 encoding st ->
  s_misspellings st = misspellings ss /\ lines st = lines0 /\
  changed st = false /\ 0 <= bad_count st /\
  (filename <> "-" -> disk ss !! filename = Some (Text lines0 encoding)).
Proof.
  unfold load. destruct (decide (filename = "-")) as [Hf|Hf].
  - intros [= <- <- <-]. by repeat split.
  - set (st0 := if check_filenames options then _ else _).
    assert (s_misspellings st0 = misspellings ss /\ 0 <= bad_count st0) as [H1 H2].
    { unfold st0. destruct (check_filenames options); [|by split].
      destruct (check_filename_fields
        (extract_words filename word_regex ignore_word_regex)
        (start ss (io ss) (summary ss) [] 0)) as (? & _ & _ & ?). by split. }
    destruct (disk ss !! filename) as [[]|]; try done.
    intros [= <- <- <-]. by repeat split.
Qed.

Lemma load_return ss n ss' :
  load' ss = Return n ss' ->
  misspellings ss' = misspellings ss /\ disk ss' = disk ss.
Proof.
  unfold load. destruct (decide (filename = "-")) as [Hf|Hf]; [done|].
  set (st0 := if check_filenames options then _ else _).
  assert (s_misspellings st0 = misspellings ss) as H1.
  { unfold st0. destruct (check_filenames options); [|done].
    by destruct (check_filename_fields
      (extract_words filename word_regex ignore_word_regex)
      (start ss (io ss) (summary ss) [] 0)) as (? & _). }
  destruct (disk ss !! filename) as [[]|]; intros [= <- <-]; by split.
Qed.

Lemma finish_fields encoding dsk st :
  let r := finish filename colors options encoding dsk st in
  r.1 = bad_count st /\ misspellings r.2 = s_misspellings st /\
  (changed st = false -> disk r.2 = dsk).
Proof.
  unfold finish. destruct (changed st); [|done].
  by destruct (decide (filename = "-")).
Qed.

Lemma parse_file_dict_ok ss n ss' :
  dict_ok (misspellings ss) ->
  parse_file' ss = Some (n, ss') ->
  dict_ok (misspellings ss').
Proof.
  intros Hd. unfold parse_file.
  destruct (load' ss) as [n0 ss0|lines0 encoding st] eqn:Hload.
  - intros [= <- <-]. apply load_return in Hload as [-> _]. done.
  - apply load_lines in Hload as (Hm & _).
    destruct (scan_lines' 0 lines0 st) as [st'|] eqn:E; [|done].
    simpl. intros [= Hfin].
    pose proof (finish_fields encoding (disk ss) st') as (_ & H2 & _).
    cbv zeta in H2. rewrite Hfin in H2. simpl in H2. rewrite H2.
    eapply (scan_lines_invariant (fun st => dict_ok (s_misspellings st)));
      [done| |by rewrite Hm|exact E].
    intros. by eapply scan_match_dict_ok.
Qed.

End ScannerFacts.

(** C9.  An entry with a reason never has [fix] set: the entries
    [build_dict] stores satisfy this, so a dictionary loaded from
    nothing or on top of a dictionary that satisfies it does; the
    entry [ask_for_word_fix] leaves satisfies it when the entry it was
    given does; and so does the dictionary after a call of [parse_file],
    whose only changes to entries go through [ask_for_word_fix]. *)
Theorem reason_disables_fix :
  (forall lines ignore_words d, build_dict lines ∅ ignore_words = Ok d -> dict_ok d) /\
  (forall lines ignore_words d d',
     dict_ok d -> build_dict lines d ignore_words = Ok d' -> dict_ok d') /\
  (forall line mt m interactivity colors io,
     entry_ok m ->
     entry_ok (ask_for_word_fix line mt m interactivity colors io).1.2) /\
  (forall filename colors exclude_lines word_regex ignore_word_regex uri_regex
          uri_ignore_words context options ss n ss',
     dict_ok (misspellings ss) ->
     parse_file filename colors exclude_lines word_regex ignore_word_regex
       uri_regex uri_ignore_words context options ss = Some (n, ss') ->
     dict_ok (misspellings ss')).
Proof.
  split; [|split; [|split]].
  - intros lines ignore_words d. apply build_dict_dict_ok, map_Forall_empty.
  - intros lines ignore_words d d'. apply build_dict_dict_ok.
  - intros. by apply ask_for_word_fix_entry_ok.
  - intros. by eapply parse_file_dict_ok.
Qed.

Lemma reason_disables_fix_witness :
  dict_ok (<["abandonned" :=
             mkMisspelling "abandoned, forsaken" false "no longer used"]> ∅).
Proof.
  apply (proj1 reason_disables_fix
           ["Abandonned->Abandoned, Forsaken,  No Longer Used " +:+ NL] ∅).
  vm_compute. reflexivity.
Defined.

(** ** Choose mode *)

Lemma choose_loop_unfold line_ui wrongword opt inp out :
  choose_loop line_ui wrongword opt inp out =
    let out := out ++ choose_prompt line_ui wrongword opt in
    match inp with
    | [] => ("", [], out)
    | l :: inp' =>
        let n := Py.strip l in
        if negb (Py.truthy n) then ("", inp', out)
        else
          match Py.int n ≫= Py.index opt with
          | Some r =>
              if Py.truthy r then (r, inp', out)
              else choose_loop line_ui wrongword opt inp' out
          | None =>
              choose_loop line_ui wrongword opt inp'
                (out ++ ["Not a valid option" +:+ NL +:+ NL])
          end
    end.
Proof. by destruct inp. Qed.

Lemma truthy_true s : s <> "" -> Py.truthy s = true.
Proof. by destruct s. Qed.

(** The call in choose mode, when the confirm branch is not taken and
    the entry has no reason *)
Lemma ask_for_word_fix_choose line mt m interactivity colors io :
  0 < interactivity ->
  Py.has_bit interactivity 2 = true ->
  fix_ m && Py.has_bit interactivity 1 = false ->
  reason m = "" ->
  ask_for_word_fix line mt m interactivity colors io =
    let '(r, inp, out) :=
      choose_loop (line_ui_of line mt colors) (m_group mt)
        (map Py.strip (Py.split_char "," (data m))) (stdin io) (stdout io) in
    let m' := if Py.truthy r then mkMisspelling r true (reason m) else m in
    (fix_ m', fix_case (m_group mt) (data m'), m', mkConsole inp out (stderr io)).
Proof.
  intros Hpos Hb2 Hb1 Hr. unfold ask_for_word_fix.
  destruct (Z.leb_spec interactivity 0); [lia|].
  rewrite Hb1, Hb2, Hr. simpl.
  destruct (choose_loop _ _ _ _ _) as [[r inp] out].
  by destruct (Py.truthy r).
Qed.

(** The choose branch as the code has it.  With bit 2 of the
    interactivity set, the choice is offered exactly when the confirm
    branch is not taken (the entry has [fix] clear or bit 1 is clear)
    and the entry has no reason, whatever the number of candidates.  A
    blank line, or the end of the
    input, declines: the entry and the decision stay as they were.  An
    index that [int] accepts and that is in range for the candidates
    (negative indices count from the end) and selects a non-empty
    candidate sets [fix] and makes that candidate the correction.  An
    index that selects an empty candidate asks again, and so does a
    line that is not an index in range, after a notice; the call always
    returns. *)
Theorem choose_mode (line : string) (mt : Match) (m : Misspelling)
    (interactivity : Z) (colors : TermColors) (inp out err : list string) :
  0 < interactivity ->
  Py.has_bit interactivity 2 = true ->
  let ask inp out :=
    ask_for_word_fix line mt m interactivity colors (mkConsole inp out err) in
  let word := m_group mt in
  let opt := map Py.strip (Py.split_char "," (data m)) in
  let prompt := choose_prompt (line_ui_of line mt colors) word opt in
  let declined rest :=
    (fix_ m, fix_case word (data m), m, mkConsole rest (out ++ prompt) err) in
  (fix_ m && Py.has_bit interactivity 1 = true ->
     ask inp out =
       let '(r, inp', out') :=
         confirm_loop
           (line_ui_of line mt colors +:+ TAB +:+ word +:+ " ==> " +:+
            fix_case word (data m) +:+ " (Y/n) ") inp out in
       let m' := if decide (r = "N")
                 then mkMisspelling (data m) false (reason m) else m in
       (fix_ m', fix_case word (data m'), m', mkConsole inp' out' err)) /\
  (fix_ m && Py.has_bit interactivity 1 = false ->
     (reason m <> "" ->
        ask inp out = (fix_ m, fix_case word (data m), m, mkConsole inp out err)) /\
     (reason m = "" ->
        (inp = [] -> ask inp out = declined []) /\
        (forall l rest, inp = l :: rest -> Py.strip l = "" ->
           ask inp out = declined rest) /\
        (forall l rest i r, inp = l :: rest -> Py.strip l <> "" ->
           Py.int (Py.strip l) = Some i -> Py.index opt i = Some r -> r <> "" ->
           ask inp out =
             (true, fix_case word r, mkMisspelling r true (reason m),
              mkConsole rest (out ++ prompt) err)) /\
        (forall l rest i, inp = l :: rest -> Py.strip l <> "" ->
           Py.int (Py.strip l) = Some i -> Py.index opt i = Some "" ->
           ask inp out = ask rest (out ++ prompt)) /\
        (forall l rest, inp = l :: rest -> Py.strip l <> "" ->
           Py.int (Py.strip l) ≫= Py.index opt = None ->
           ask inp out =
             ask rest (out ++ prompt ++ ["Not a valid option" +:+ NL +:+ NL])))).
Proof.
  intros Hpos Hb2 ask word opt prompt declined. split.
  - intros Hb1. unfold ask, ask_for_word_fix.
    destruct (Z.leb_spec interactivity 0); [lia|].
    rewrite Hb1. simpl. fold word.
    destruct (confirm_loop _ _ _) as [[r inp'] out'].
    by destruct (decide (r = "N")).
  - intros Hb1. split.
    + intros Hr. unfold ask, ask_for_word_fix.
      destruct (Z.leb_spec interactivity 0); [lia|].
      rewrite Hb1, Hb2, (truthy_true _ Hr). done.
    + intros Hr. unfold ask.
      repeat split.
      * intros ->. rewrite ask_for_word_fix_choose by done. done.
      * intros l rest -> Hl. rewrite ask_for_word_fix_choose by done.
        simpl stdin. rewrite choose_loop_unfold. cbv zeta. by rewrite Hl.
      * intros l rest i r -> Hl Hi Hidx Hne.
        rewrite ask_for_word_fix_choose by done.
        simpl stdin. rewrite choose_loop_unfold. cbv zeta.
        rewrite (truthy_true _ Hl), Hi. simpl. fold opt. rewrite Hidx.
        rewrite (truthy_true _ Hne). cbv beta iota.
        by rewrite (truthy_true _ Hne).
      * intros l rest i -> Hl Hi Hidx.
        rewrite !ask_for_word_fix_choose by done.
        simpl stdin. rewrite (choose_loop_unfold _ _ _ (l :: rest)). cbv zeta.
        rewrite (truthy_true _ Hl), Hi. simpl. fold opt. rewrite Hidx. done.
      * intros l rest -> Hl Hidx.
        rewrite !ask_for_word_fix_choose by done.
        simpl stdin. rewrite (choose_loop_unfold _ _ _ (l :: rest)). cbv zeta.
        rewrite (truthy_true _ Hl). fold opt. rewrite Hidx.
        simpl stdout. by rewrite <- app_assoc.
Qed.

Lemma choose_mode_witness :
  ask_for_word_fix "a teh b" (mkMatch 2 5 "teh") (mkMisspelling "the, ten" false "")
    2 TermColors_disabled (mkConsole ["-1" +:+ NL] [] [])
  = (true, "ten", mkMisspelling "ten" true "",
     mkConsole []
       ["a teh b Choose an option (blank for none): "; " 0) the"; " 1) ten"; ": "]
       []).
Proof.
  refine (proj1 (proj2 (proj2 (proj2 (proj2 (choose_mode "a teh b" (mkMatch 2 5 "teh")
    (mkMisspelling "the, ten" false "") 2 TermColors_disabled ["-1" +:+ NL] [] []
    _ _) _) _))) ("-1" +:+ NL) [] (-1) "ten" _ _ _ _ _);
    (reflexivity || lia || discriminate).
Defined.

(** The choice is not kept to entries with more than one candidate:
    with bit 2 alone, an entry with a single candidate and [fix] set is
    offered for choice. *)
Lemma choose_mode_single_candidate :
  ~ (forall line mt m colors io,
       stdout (ask_for_word_fix line mt m 2 colors io).2 <> stdout io ->
       reason m = "" /\ (1 < length (Py.split_char "," (data m)))%nat).
Proof.
  intros H.
  destruct (H "teh" (mkMatch 0 3 "teh") (mkMisspelling "the" true "")
              TermColors_disabled (mkConsole ["0" +:+ NL] [] [])) as [_ Hlen].
  - vm_compute. discriminate.
  - vm_compute in Hlen. lia.
Qed.

(** C7.  The code at the failing input: the entry [teh->the], with its
    single candidate and [fix] set, under interactivity 2.  The comment
    in the choose branch and the help text of the option keep the
    choice to entries with more than one possible fix; the code asks
    all the same, lists the one candidate, and takes the answer [0]. *)
Theorem choose_mode_offers_single_candidate :
  Py.split_char "," (data (mkMisspelling "the" true "")) = ["the"] /\
  ask_for_word_fix "teh" (mkMatch 0 3 "teh") (mkMisspelling "the" true "") 2
    TermColors_disabled (mkConsole ["0" +:+ NL] [] [])
  = (true, "the", mkMisspelling "the" true "",
     mkConsole [] ["teh Choose an option (blank for none): "; " 0) the"; ": "] []).
Proof. split; vm_compute; reflexivity. Qed.

(** ** The word/URI extractor *)

Lemma first_match_hit uri_word i before mt after :
  Forall (fun x => m_group x <> uri_word) before ->
  m_group mt = uri_word ->
  first_match uri_word i (before ++ mt :: after) = Some (i + length before)%nat.
Proof.
  intros Hb Hm. revert i. induction Hb as [|x before Hx _ IH]; intros i; simpl.
  - rewrite decide_True by done. f_equal. lia.
  - rewrite decide_False by done. rewrite IH. f_equal. lia.
Qed.

Lemma first_match_miss uri_word i check_matches :
  Forall (fun x => m_group x <> uri_word) check_matches ->
  first_match uri_word i check_matches = None.
Proof.
  intros H. revert i. induction H as [|x l Hx _ IH]; intros i; simpl; [done|].
  by rewrite decide_False.
Qed.

Lemma remove_first_hit uri_word before mt after :
  Forall (fun x => m_group x <> uri_word) before ->
  m_group mt = uri_word ->
  remove_first uri_word (before ++ mt :: after) = before ++ after.
Proof.
  intros Hb Hm. unfold remove_first. rewrite (first_match_hit _ _ _ _ _ Hb Hm).
  simpl. rewrite take_app_length.
  f_equal. replace (before ++ mt :: after) with ((before ++ [mt]) ++ after)
    by (by rewrite <- app_assoc).
  apply drop_app_length'. rewrite length_app. simpl. lia.
Qed.

Lemma remove_first_miss uri_word check_matches :
  Forall (fun x => m_group x <> uri_word) check_matches ->
  remove_first uri_word check_matches = check_matches.
Proof. intros H. unfold remove_first. by rewrite first_match_miss. Qed.

Lemma fold_left_concat {A B} (f : A -> B -> A) (ls : list (list B)) (a : A) :
  fold_left f (concat ls) a = fold_left (fun a l => fold_left f l a) ls a.
Proof.
  revert a. induction ls as [|l ls IH]; intros a; simpl; [done|].
  by rewrite fold_left_app, IH.
Qed.

Lemma ignore_uri_word_empty check_matches uri_words :
  fold_left (ignore_uri_word ∅) uri_words check_matches = check_matches.
Proof.
  induction uri_words as [|w ws IH]; simpl; [done|].
  unfold ignore_uri_word at 2. by rewrite decide_False by set_solver.
Qed.

Lemma apply_uri_ignore_words_fold check_matches line word_regex ignore_word_regex
    uri_regex uri_ignore_words :
  apply_uri_ignore_words check_matches line word_regex ignore_word_regex
    uri_regex uri_ignore_words
  = fold_left (ignore_uri_word uri_ignore_words)
      (uri_words line word_regex ignore_word_regex uri_regex) check_matches.
Proof.
  unfold apply_uri_ignore_words, uri_words.
  destruct (decide (uri_ignore_words = ∅)) as [->|_].
  - by rewrite ignore_uri_word_empty.
  - rewrite fold_left_concat. generalize (Re.findall uri_regex line).
    intros uris. revert check_matches.
    induction uris as [|u us IH]; intros cm; simpl; [done|]. by rewrite IH.
Qed.

(** C3 (as amended).  When the wildcard is not among the URI ignore
    words, the candidates of a line are its word matches, from which
    the words of its URIs are struck in the order they are found: a word
    that is not to be ignored strikes nothing; a word to be ignored that
    no remaining match spells strikes nothing either; otherwise exactly
    one match goes, the first in line order that spells the word, and
    every later match stays, a second occurrence of the same literal
    included. *)
Theorem uri_ignore_words_strike_first (word_regex : Pattern)
    (ignore_word_regex : option Pattern) (uri_regex : Pattern)
    (uri_ignore_words : gset string) (line : string) :
  "*" ∉ uri_ignore_words ->
  candidates word_regex ignore_word_regex uri_regex uri_ignore_words line
    = fold_left (ignore_uri_word uri_ignore_words)
        (uri_words line word_regex ignore_word_regex uri_regex)
        (extract_words_iter line word_regex ignore_word_regex) /\
  (forall check_matches uri_word,
     uri_word ∉ uri_ignore_words ->
     ignore_uri_word uri_ignore_words check_matches uri_word = check_matches) /\
  (forall check_matches uri_word,
     uri_word ∈ uri_ignore_words ->
     Forall (fun x => m_group x <> uri_word) check_matches ->
     ignore_uri_word uri_ignore_words check_matches uri_word = check_matches) /\
  (forall before mt after uri_word,
     uri_word ∈ uri_ignore_words ->
     Forall (fun x => m_group x <> uri_word) before ->
     m_group mt = uri_word ->
     ignore_uri_word uri_ignore_words (before ++ mt :: after) uri_word
       = before ++ after).
Proof.
  intros Hstar. repeat split.
  - unfold candidates, scanned_text.
    rewrite (decide_False (P := "*" ∈ uri_ignore_words)) by done.
    rewrite (decide_True (P := "*" ∉ uri_ignore_words)) by done.
    apply apply_uri_ignore_words_fold.
  - intros cm w Hw. unfold ignore_uri_word. by rewrite decide_False.
  - intros cm w Hw Hall. unfold ignore_uri_word. rewrite decide_True by done.
    by apply remove_first_miss.
  - intros before mt after w Hw Hb Hm. unfold ignore_uri_word.
    rewrite decide_True by done. by apply remove_first_hit.
Qed.

Lemma uri_ignore_words_strike_first_witness :
  candidates word_pattern None uri_pattern {["foo"]} "see http://x.com/foo and foo"
  = [mkMatch 0 3 "see"; mkMatch 4 8 "http"; mkMatch 11 12 "x";
     mkMatch 13 16 "com"; mkMatch 21 24 "and"; mkMatch 25 28 "foo"].
Proof.
  assert ("*" ∉ ({["foo"]} : gset string)) as Hstar
    by (apply not_elem_of_singleton; discriminate).
  rewrite (proj1 (uri_ignore_words_strike_first word_pattern None uri_pattern
                    {["foo"]} "see http://x.com/foo and foo" Hstar)).
  vm_compute. reflexivity.
Defined.

(** C3 as stated fails: in [a-http://x/foo] the URI starts inside the
    word [a-http], so the URI word [http] spells no match of the line
    and nothing is struck for it. *)
Lemma uri_word_without_match :
  ~ one_removed_per_uri_word word_pattern None uri_pattern {["http"]}
      "a-http://x/foo".
Proof. vm_compute. discriminate. Qed.

(** ** The wildcard *)

Lemma join_cons sep x y l :
  Py.join sep (x :: y :: l) = x +:+ sep +:+ Py.join sep (y :: l).
Proof. reflexivity. Qed.

Lemma outside_not_nil text i sp : outside text i sp <> [].
Proof. by destruct sp as [|[b e] sp]. Qed.

(** [sub] keeps the stretches outside the matches and puts the
    replacement between them. *)
Lemma sub_go_outside repl text i sp :
  Re.sub_go repl text i sp = Py.join repl (outside text i sp).
Proof.
  revert i. induction sp as [|[b e] sp IH]; intros i; [done|].
  cbn [Re.sub_go outside]. rewrite IH.
  destruct (outside text e sp) eqn:E; [by apply outside_not_nil in E|].
  by rewrite join_cons.
Qed.


Lemma slice_to_from n s : s = Py.slice_to n s +:+ Py.slice_from n s.
Proof.
  revert s. induction n as [|n IH]; intros [|c s]; simpl; try done.
  rewrite append_cons. by rewrite <- IH.
Qed.

Lemma substring_of_refl s : substring_of s s.
Proof. exists "", "". by rewrite append_nil_l, append_nil_r. Qed.

Lemma substring_of_trans s t u :
  substring_of s t -> substring_of t u -> substring_of s u.
Proof.
  intros (a & b & ->) (c & d & ->). exists (c +:+ a), (b +:+ d).
  by rewrite !append_assoc.
Qed.

Lemma slice_to_substring n s : substring_of (Py.slice_to n s) s.
Proof.
  exists "", (Py.slice_from n s). rewrite append_nil_l. apply slice_to_from.
Qed.

Lemma slice_from_substring n s : substring_of (Py.slice_from n s) s.
Proof.
  exists (Py.slice_to n s), "". rewrite append_nil_r. apply slice_to_from.
Qed.

Lemma slice_substring a b s : substring_of (Py.slice a b s) s.
Proof.
  eapply substring_of_trans; [apply slice_to_substring|apply slice_from_substring].
Qed.

Lemma outside_substring text i sp s :
  s ∈ outside text i sp -> substring_of s text.
Proof.
  revert i. induction sp as [|[b e] sp IH]; intros i; simpl.
  - intros ->%list_elem_of_singleton. apply slice_from_substring.
  - intros [->|H]%elem_of_cons; [apply slice_substring|by eapply IH].
Qed.

Lemma contains_append c s t :
  Py.contains c (s +:+ t) = Py.contains c s || Py.contains c t.
Proof.
  induction s as [|d s IH]; [done|]. rewrite append_cons. simpl.
  by rewrite IH, orb_assoc.
Qed.

(** A text without [c] that starts where [q] starts, in front of a [c],
    ends inside [q]. *)
Lemma prefix_before_char c g post q rest :
  Py.contains c g = false ->
  g +:+ post = q +:+ String c rest ->
  exists post', q = g +:+ post'.
Proof.
  revert q. induction g as [|x g IH]; intros q Hc H.
  - by exists q.
  - simpl in Hc. apply orb_false_iff in Hc as [Hx Hg].
    rewrite append_cons in H. destruct q as [|y q].
    + rewrite append_nil_l in H. injection H as -> _. by rewrite Ascii.eqb_refl in Hx.
    + rewrite append_cons in H. injection H as -> H.
      destruct (IH q Hg H) as [post' ->]. by exists post'.
Qed.

(** A text without [c] that occurs in [p c rest] occurs in [p] or in
    [rest]. *)
Lemma substring_split c g p rest :
  Py.contains c g = false ->
  substring_of g (p +:+ String c rest) ->
  substring_of g p \/ substring_of g rest.
Proof.
  intros Hc (pre & post & H). revert p H.
  induction pre as [|a pre IH]; intros p H.
  - rewrite append_nil_l in H. left.
    destruct (prefix_before_char c g post p rest Hc (eq_sym H)) as [post' ->].
    by exists "", post'.
  - rewrite append_cons in H. destruct p as [|b p].
    + rewrite append_nil_l in H. injection H as _ ->. right. by exists pre, post.
    + rewrite append_cons in H. injection H as Hab H.
      destruct (IH p H) as [(x & y & ->)|Hr]; [|by right].
      left. exists (String a x), y. by rewrite Hab.
Qed.

(** A text without blanks that occurs in stretches joined by blanks
    occurs in one of the stretches. *)
Lemma substring_of_join g pieces :
  pieces <> [] ->
  Py.contains " " g = false ->
  substring_of g (Py.join " " pieces) ->
  exists s, s ∈ pieces /\ substring_of g s.
Proof.
  intros Hne Hc. induction pieces as [|p pieces IH]; [done|].
  destruct pieces as [|q pieces].
  - intros H. exists p. split; [by left|done].
  - rewrite join_cons. change (" " +:+ Py.join " " (q :: pieces))
      with (String " " (Py.join " " (q :: pieces))).
    intros H. apply substring_split in H as [H|H]; [| |done].
    + exists p. split; [by left|done].
    + destruct (IH ltac:(done) H) as (s & Hs & Hg). exists s. split; [by right|done].
Qed.

Lemma finditer_group p text mt :
  mt ∈ Re.finditer p text -> substring_of (m_group mt) text.
Proof.
  unfold Re.finditer. intros H%list_elem_of_In. apply in_map_iff in H as ([b e] & <- & _).
  apply slice_substring.
Qed.

(** *** The matches of a repeated class *)

Lemma all_chars_cons p a s :
  Re.all_chars p (String a s) = p a && Re.all_chars p s.
Proof. reflexivity. Qed.

(** Where the greedy repetition of a class hands over, the characters
    it has passed are all of the class. *)
Lemma many_end p bef s n k e :
  Re.many p bef s n k = Some e ->
  exists j bef',
    Re.all_chars p (Py.slice_to j s) = true /\
    k (Re.mkCursor bef' (Py.slice_from j s) (n + j)) = Some e.
Proof.
  revert bef n. induction s as [|a s IH]; intros bef n; simpl.
  - intros H. exists 0%nat, bef. rewrite Nat.add_0_r. by split.
  - destruct (p a) eqn:Ha.
    + destruct (Re.many p (Some a) s (S n) k) as [e'|] eqn:E.
      * intros [= <-]. destruct (IH _ _ E) as (j & bef' & Hall & Hk).
        exists (S j), bef'. cbn [Py.slice_to Py.slice_from].
        rewrite all_chars_cons, Ha, Hall.
        split; [done|]. by rewrite Nat.add_succ_r.
      * intros H. exists 0%nat, bef. rewrite Nat.add_0_r. by split.
    + intros H. exists 0%nat, bef. rewrite Nat.add_0_r. by split.
Qed.

Lemma match_at_many1 p c must_advance e :
  Re.match_at (Re.Many1 p) c must_advance = Some e ->
  (Re.pos c <= e)%nat /\
  Re.all_chars p (Py.slice_to (e - Re.pos c) (Re.rest c)) = true.
Proof.
  unfold Re.match_at. simpl. destruct (Re.rest c) as [|a s]; [done|].
  destruct (p a) eqn:Ha; [|done].
  intros (j & bef' & Hall & Hk)%many_end. simpl in Hk.
  destruct (must_advance && _); [done|]. injection Hk as <-.
  split; [lia|].
  match goal with
  | |- context [Py.slice_to ?m _] => replace m with (S j) by lia
  end.
  cbn [Py.slice_to]. by rewrite all_chars_cons, Ha, Hall.
Qed.

Lemma slice_cons a b c s :
  (0 < a)%nat -> Py.slice a b (String c s) = Py.slice (a - 1) (b - 1) s.
Proof.
  intros Ha. unfold Py.slice. destruct a as [|a]; [lia|]. simpl.
  rewrite Nat.sub_0_r. destruct b as [|b]; simpl; [done|]. by rewrite Nat.sub_0_r.
Qed.

(** Every span the search loop finds for a repeated class covers
    characters of the class only. *)
Lemma scan_many1 p bef s n skip b e :
  (b, e) ∈ Re.scan (Re.Many1 p) bef s n skip ->
  (n <= b)%nat /\ Re.all_chars p (Py.slice (b - n) (e - n) s) = true.
Proof.
  revert bef n skip. induction s as [|a s IH]; intros bef n skip.
  - cbn [Re.scan]. set (c := Re.mkCursor bef "" n).
    assert (Re.match_at (Re.Many1 p) c false = None) as -> by done.
    destruct skip; simpl; by intros ?%elem_of_nil.
  - cbn [Re.scan]. set (c := Re.mkCursor bef (String a s) n).
    set (found := match skip with S k => _ | O => _ end).
    assert (forall b e, (b, e) ∈ found.1 ->
              b = n /\ Re.all_chars p (Py.slice_to (e - n) (String a s)) = true)
      as Hfound.
    { unfold found. intros b' e'. destruct skip as [|k]; [|by intros ?%elem_of_nil].
      destruct (Re.match_at (Re.Many1 p) c false) as [e0|] eqn:E0;
        [|by intros ?%elem_of_nil].
      apply match_at_many1 in E0 as [_ H0].
      assert (Re.all_chars p (Py.slice_to (n - n) (String a s)) = true) as Hnn
        by (by rewrite Nat.sub_diag).
      destruct (e0 =? n)%nat;
        [destruct (Re.match_at (Re.Many1 p) c true) as [e1|] eqn:E1;
           [apply match_at_many1 in E1 as [_ H1]|]|];
        simpl; intros H;
        repeat (apply elem_of_cons in H as [H|H]);
        try (by apply elem_of_nil in H);
        injection H as -> ->; by split. }
    destruct found as [fnd skip']. simpl in Hfound.
    intros [H|H]%elem_of_app.
    + destruct (Hfound _ _ H) as [-> Hall]. split; [lia|].
      unfold Py.slice. by rewrite Nat.sub_diag, Nat.sub_0_r.
    + apply IH in H as [Hle Hall]. split; [lia|].
      rewrite slice_cons by lia.
      by replace (b - n - 1)%nat with (b - S n)%nat by lia;
         replace (e - n - 1)%nat with (e - S n)%nat by lia.
Qed.

Lemma all_chars_contains p c s :
  p c = false -> Re.all_chars p s = true -> Py.contains c s = false.
Proof.
  intros Hc. induction s as [|a s IH]; [done|].
  rewrite all_chars_cons. intros [Ha Hs]%andb_true_iff. simpl.
  rewrite (IH Hs), orb_false_r. apply Ascii.eqb_neq. intros ->. congruence.
Qed.

(** No match of the built-in word pattern holds a blank. *)
Lemma word_pattern_no_blank text mt :
  mt ∈ Re.finditer word_pattern text -> Py.contains " " (m_group mt) = false.
Proof.
  unfold Re.finditer. intros H%list_elem_of_In.
  apply in_map_iff in H as ([b e] & <- & H%list_elem_of_In).
  apply scan_many1 in H as [_ H]. rewrite !Nat.sub_0_r in H. simpl.
  by apply (all_chars_contains word_char).
Qed.


(** ** The matcher: where matches lie *)

Lemma lit_reach l c c' :
  Re.lit l c = Some c' ->
  Re.rest c = l +:+ Re.rest c' /\ Re.pos c' = (Re.pos c + String.length l)%nat.
Proof.
  revert c. induction l as [|a l IH]; intros c; simpl.
  - intros [= <-]. split; [done|lia].
  - destruct (Re.rest c) as [|b s] eqn:E; [done|].
    destruct (Ascii.eqb_spec a b) as [->|]; [|done].
    intros [H1 H2]%IH. simpl in *. split; [by rewrite append_cons, <- H1|lia].
Qed.

Lemma reaches_refl c : reaches c c.
Proof. by split. Qed.

Lemma reaches_trans c1 c2 c3 : reaches c1 c2 -> reaches c2 c3 -> reaches c1 c3.
Proof. unfold reaches. lia. Qed.

Lemma many_reach p bef s n k e :
  Re.many p bef s n k = Some e ->
  exists c', k c' = Some e /\ reaches (Re.mkCursor bef s n) c'.
Proof.
  revert bef n. induction s as [|a s IH]; intros bef n; simpl.
  - intros H. eexists. split; [exact H|apply reaches_refl].
  - destruct (p a).
    + destruct (Re.many p (Some a) s (S n) k) as [e'|] eqn:E.
      * intros [= <-]. destruct (IH _ _ E) as (c' & Hk & Hr).
        exists c'. split; [done|]. unfold reaches in *. simpl in *. lia.
      * intros H. eexists. split; [exact H|apply reaches_refl].
    + intros H. eexists. split; [exact H|apply reaches_refl].
Qed.

(** The matcher hands over at a cursor further on in the same text. *)
Lemma run_reach r c k e :
  Re.run r c k = Some e -> exists c', k c' = Some e /\ reaches c c'.
Proof.
  revert c k e. induction r as [p|l|r1 IH1 r2 IH2|r1 IH1 r2 IH2|r1 IH1|p| | |r1 IH1];
    intros c k e; simpl.
  - destruct c as [bef [|a s] n]; simpl; [done|]. destruct (p a); [|done].
    intros H. eexists. split; [exact H|]. unfold reaches. simpl. lia.
  - destruct (Re.lit l c) as [c1|] eqn:E; [|done]. simpl.
    intros H. exists c1. split; [done|].
    apply lit_reach in E as [E1 E2]. unfold reaches. rewrite E1, E2, length_append. lia.
  - intros (c1 & (c2 & Hk & H2)%IH2 & H1)%IH1. exists c2. split; [done|].
    by eapply reaches_trans.
  - destruct (Re.run r1 c k) as [e1|] eqn:E.
    + intros [= <-]. by apply IH1.
    + apply IH2.
  - destruct (Re.run r1 c k) as [e1|] eqn:E.
    + intros [= <-]. by apply IH1.
    + intros H. exists c. split; [done|apply reaches_refl].
  - destruct c as [bef [|a s] n]; simpl; [done|]. destruct (p a); [|done].
    intros (c' & Hk & Hr)%many_reach. exists c'. split; [done|].
    unfold reaches in *. simpl in *. lia.
  - destruct (xorb _ _); [|done]. intros H. exists c. split; [done|apply reaches_refl].
  - destruct (decide _); [|done]. intros H. exists c. split; [done|apply reaches_refl].
  - destruct (Re.run r1 c _); [|done]. intros H. exists c. split; [done|apply reaches_refl].
Qed.

Lemma match_at_bounds r c must_advance e :
  Re.match_at r c must_advance = Some e ->
  (Re.pos c <= e <= Re.pos c + String.length (Re.rest c))%nat.
Proof.
  unfold Re.match_at. intros (c' & Hk & Hr)%run_reach.
  destruct (must_advance && _); [done|]. injection Hk as <-.
  unfold reaches in Hr. lia.
Qed.

Lemma chained_le i j len sp : (j <= i)%nat -> chained i len sp -> chained j len sp.
Proof. destruct sp as [|[b e] sp]; simpl; [done|]. intros ? (? & ? & ? & ?). repeat split; (done || lia). Qed.

Lemma scan_chained r bef s n skip i len :
  (i <= n + skip)%nat -> (n + String.length s <= len)%nat ->
  chained i len (Re.scan r bef s n skip).
Proof.
  revert bef n skip i. induction s as [|a s IH]; intros bef n skip i Hi Hlen.
  - cbn [Re.scan]. set (c := Re.mkCursor bef "" n).
    destruct skip as [|k]; [|done].
    destruct (Re.match_at r c false) as [e|] eqn:E; [|done].
    apply match_at_bounds in E. simpl in E, Hlen.
    assert (e = n) as -> by lia. rewrite Nat.eqb_refl.
    destruct (Re.match_at r c true) as [e'|] eqn:E'.
    + apply match_at_bounds in E'. simpl in *. repeat split; lia.
    + simpl. repeat split; lia.
  - cbn [Re.scan]. set (c := Re.mkCursor bef (String a s) n).
    simpl in Hlen.
    destruct skip as [|k].
    + destruct (Re.match_at r c false) as [e|] eqn:E.
      * pose proof (match_at_bounds _ _ _ _ E) as Hb. simpl in Hb.
        destruct (Nat.eqb_spec e n) as [->|Hne].
        -- destruct (Re.match_at r c true) as [e'|] eqn:E'.
           ++ pose proof (match_at_bounds _ _ _ _ E') as Hb'. simpl in Hb'.
              simpl. repeat split; try lia. apply IH; lia.
           ++ simpl. repeat split; try lia. apply IH; lia.
        -- simpl. repeat split; try lia. apply IH; lia.
      * simpl. apply IH; lia.
    + simpl. apply IH; lia.
Qed.

(** The matches [finditer] finds for a compiled pattern come in text
    order, do not overlap and lie inside the text. *)
Lemma compile_spans_chained (r : Re.regex) (text : string) :
  chained 0 (String.length text) (spans (Re.compile r) text).
Proof. apply (scan_chained r None text 0 0); simpl; lia. Qed.

(** Every span the search loop finds starts a text that the pattern
    matches over the length of the span. *)
Lemma scan_groups r (R : nat -> string -> Prop) bef s n skip b e :
  (forall c must_advance e,
     Re.match_at r c must_advance = Some e -> R (e - Re.pos c)%nat (Re.rest c)) ->
  (b, e) ∈ Re.scan r bef s n skip ->
  (n <= b)%nat /\ R (e - b)%nat (Py.slice_from (b - n) s).
Proof.
  intros HR. revert bef n skip.
  assert (forall bef s n skip,
    let c := Re.mkCursor bef s n in
    let found :=
      match skip with
      | S k => ([], k)
      | O =>
          match Re.match_at r c false with
          | None => ([], O)
          | Some e =>
              if (e =? n)%nat then
                match Re.match_at r c true with
                | None => ([(n, n)], O)
                | Some e' => ([(n, n); (n, e')], (e' - n - 1)%nat)
                end
              else ([(n, e)], (e - n - 1)%nat)
          end
      end in
    (b, e) ∈ found.1 -> b = n /\ R (e - b)%nat s) as Hfound.
  { intros bef0 s0 n0 skip0 c found. unfold found.
    destruct skip0 as [|k]; [|by intros ?%elem_of_nil].
    destruct (Re.match_at r c false) as [e0|] eqn:E0; [|by intros ?%elem_of_nil].
    pose proof (HR _ _ _ E0) as H0. simpl in H0.
    destruct (Nat.eqb_spec e0 n0) as [->|];
      [destruct (Re.match_at r c true) as [e1|] eqn:E1;
         [pose proof (HR _ _ _ E1) as H1; simpl in H1|]|];
      simpl; intros H;
      repeat (apply elem_of_cons in H as [H|H]);
      try (by apply elem_of_nil in H);
      injection H as -> ->; by split. }
  induction s as [|a s IH]; intros bef n skip.
  - cbn [Re.scan]. specialize (Hfound bef "" n skip). cbv zeta in Hfound.
    destruct (match skip with S k => _ | O => _ end) as [fnd skip'].
    rewrite app_nil_r. intros H. destruct (Hfound H) as [-> HR'].
    split; [done|]. by rewrite Nat.sub_diag.
  - cbn [Re.scan]. specialize (Hfound bef (String a s) n skip). cbv zeta in Hfound.
    destruct (match skip with S k => _ | O => _ end) as [fnd skip'].
    intros [H|H]%elem_of_app.
    + destruct (Hfound H) as [-> HR']. split; [done|]. by rewrite Nat.sub_diag.
    + apply IH in H as [Hle H]. split; [lia|].
      replace (b - n)%nat with (S (b - S n)) by lia. done.
Qed.

Lemma slice_from_add m n s :
  Py.slice_from m (Py.slice_from n s) = Py.slice_from (n + m) s.
Proof.
  revert s. induction n as [|n IH]; intros s; [done|].
  destruct s as [|c s]; simpl; [by destruct m|]. apply IH.
Qed.

Lemma slice_from_split i b e text :
  (i <= b)%nat -> (b <= e)%nat ->
  Py.slice_from i text
    = Py.slice i b text +:+ Py.slice b e text +:+ Py.slice_from e text.
Proof.
  intros Hib Hbe. unfold Py.slice.
  rewrite (slice_to_from (b - i) (Py.slice_from i text)) at 1.
  rewrite slice_from_add. replace (i + (b - i))%nat with b by lia. f_equal.
  rewrite (slice_to_from (e - b) (Py.slice_from b text)) at 1.
  rewrite slice_from_add. by replace (b + (e - b))%nat with e by lia.
Qed.

(** Putting the matched texts back between the stretches gives the
    text again. *)
Lemma join_outside w text i len sp :
  chained i len sp ->
  Forall (fun '(b, e) => Py.slice b e text = w) sp ->
  Py.join w (outside text i sp) = Py.slice_from i text.
Proof.
  revert i. induction sp as [|[b e] sp IH]; intros i; [done|].
  intros (Hib & Hbe & _ & Hch) Hall. apply Forall_cons in Hall as [Hw Hall].
  cbn [outside]. pose proof (IH e Hch Hall) as IHe.
  destruct (outside text e sp) eqn:E; [by apply outside_not_nil in E|].
  rewrite join_cons, IHe, <- Hw. symmetry. by apply slice_from_split.
Qed.

Lemma match_at_whole_word w c must_advance e :
  Re.match_at (Re.Seq Re.Bnd (Re.Seq (Re.Lit w) Re.Bnd)) c must_advance = Some e ->
  (e - Re.pos c)%nat = String.length w /\
  Py.slice_to (String.length w) (Re.rest c) = w.
Proof.
  unfold Re.match_at. simpl. destruct (xorb _ _); [|done].
  destruct (Re.lit w c) as [c'|] eqn:E; [|done]. simpl.
  destruct (xorb _ _); [|done]. destruct (must_advance && _); [done|].
  intros [= <-]. apply lit_reach in E as [E1 E2].
  split; [lia|]. rewrite E1. apply slice_to_append.
Qed.

Lemma whole_word_spans w text :
  Forall (fun '(b, e) => Py.slice b e text = w) (spans (whole_word w) text).
Proof.
  apply Forall_forall. intros [b e] H. simpl in H.
  apply (scan_groups _ (fun len rest =>
           len = String.length w /\ Py.slice_to (String.length w) rest = w)) in H
    as [_ [H1 H2]].
  - unfold Py.slice. rewrite H1. by rewrite Nat.sub_0_r in H2.
  - intros c ma e0. apply match_at_whole_word.
Qed.

(** ** Whole-word occurrences *)

Lemma get_slice_from n text :
  Re.next_char (cursor_at text n) = String.get n text.
Proof.
  unfold Re.next_char, cursor_at. simpl. revert text.
  induction n as [|n IH]; intros [|c s]; simpl; try done.
Qed.

Lemma slice_from_succ n text a s :
  Py.slice_from n text = String a s ->
  Py.slice_from (S n) text = s /\ String.get n text = Some a.
Proof.
  revert text. induction n as [|n IH]; intros [|c t]; simpl; try done.
  all: try by intros [= -> ->].
  all: try apply IH.
Qed.

Lemma length_slice_from n text :
  String.length (Py.slice_from n text) = (String.length text - n)%nat.
Proof.
  revert text. induction n as [|n IH]; intros [|c t]; simpl; try done.
Qed.

Lemma boundary_cursor text p :
  boundary text p
  = xorb (Re.word_at (Re.before (cursor_at text p)))
         (Re.word_at (Re.next_char (cursor_at text p))).
Proof. by rewrite get_slice_from. Qed.

(** The literal is read at a cursor exactly when the text goes on with
    it, and the cursor is then the one behind it. *)
Lemma lit_cursor l text n :
  Re.lit l (cursor_at text n)
  = if decide (Py.slice_to (String.length l) (Py.slice_from n text) = l)
    then Some (cursor_at text (n + String.length l)) else None.
Proof.
  revert n. induction l as [|a l IH]; intros n.
  - cbn [Re.lit String.length].
    rewrite decide_True by (by destruct (Py.slice_from n text)).
    by rewrite Nat.add_0_r.
  - cbn [Re.lit String.length]. unfold cursor_at at 1. cbn [Re.rest Re.pos].
    destruct (Py.slice_from n text) as [|b s'] eqn:E.
    + by rewrite decide_False.
    + apply slice_from_succ in E as [E1 E2].
      destruct (Ascii.eqb_spec a b) as [->|Hab].
      * change (Re.pos (cursor_at text n)) with n.
        replace (Re.mkCursor (Some b) s' (S n)) with (cursor_at text (S n))
          by (unfold cursor_at; by rewrite E1, E2).
        rewrite IH, E1. cbn [Py.slice_to].
        replace (n + S (String.length l))%nat with (S n + String.length l)%nat by lia.
        destruct (decide (Py.slice_to (String.length l) s' = l)) as [Hl|Hl].
        -- by rewrite decide_True by (by rewrite Hl).
        -- rewrite decide_False; [done|]. by intros [= ?].
      * rewrite decide_False; [done|]. cbn [Py.slice_to]. by intros [= ?].
Qed.

Lemma match_at_whole_word_iff w text n must_advance :
  w <> "" ->
  Re.match_at (Re.Seq Re.Bnd (Re.Seq (Re.Lit w) Re.Bnd)) (cursor_at text n) must_advance
  = if decide (whole_word_at w text n) then Some (n + String.length w)%nat else None.
Proof.
  intros Hw. unfold Re.match_at. cbn [Re.run]. rewrite <- boundary_cursor.
  unfold whole_word_at, Py.slice.
  replace (n + String.length w - n)%nat with (String.length w) by lia.
  destruct (boundary text n) eqn:Hb; [|by rewrite decide_False by (intros (? & ? & ?); congruence)].
  rewrite lit_cursor.
  destruct (decide (Py.slice_to (String.length w) (Py.slice_from n text) = w)) as [Hs|Hs];
    [|by rewrite decide_False by (intros (? & ? & ?); congruence)].
  cbn [mbind option_bind Re.run]. rewrite <- boundary_cursor.
  destruct (boundary text (n + String.length w)) eqn:Hb2;
    [|by rewrite decide_False by (intros (? & ? & ?); congruence)].
  rewrite decide_True by done. cbn [Re.pos cursor_at].
  destruct w as [|a w]; [done|]. simpl.
  destruct (Nat.eqb_spec (n + S (String.length w)) n); [lia|].
  by rewrite andb_false_r.
Qed.

Lemma no_occurrence_beyond w text p :
  w <> "" -> (String.length text <= p)%nat -> ~ whole_word_at w text p.
Proof.
  intros Hw Hp [H _]. unfold Py.slice in H.
  assert (Py.slice_from p text = "") as E.
  { pose proof (length_slice_from p text) as Hl.
    destruct (Py.slice_from p text); [done|simpl in Hl; lia]. }
  rewrite E in H. by destruct (p + String.length w - p)%nat, w.
Qed.

Lemma leftmost_occurrences_extend w text n sp :
  ~ whole_word_at w text n ->
  leftmost_occurrences w text (S n) sp -> leftmost_occurrences w text n sp.
Proof.
  intros Hn. destruct sp as [|[b e] sp]; simpl.
  - intros H p Hp. destruct (decide (p = n)) as [->|]; [done|]. apply H. lia.
  - intros (? & ? & ? & H & ?). split; [lia|]. do 2 (split; [done|]).
    split; [|done].
    intros p Hp. destruct (decide (p = n)) as [->|]; [done|]. apply H. lia.
Qed.

Lemma scan_whole_word w text s n skip :
  w <> "" ->
  s = Py.slice_from n text -> (n <= String.length text)%nat ->
  leftmost_occurrences w text (n + skip)
    (Re.scan (Re.Seq Re.Bnd (Re.Seq (Re.Lit w) Re.Bnd))
       (Re.before (cursor_at text n)) s n skip).
Proof.
  intros Hw. revert n skip. induction s as [|a s IH]; intros n skip Hs Hn.
  - assert (String.length text <= n)%nat as Hlen.
    { pose proof (length_slice_from n text) as Hl. rewrite <- Hs in Hl. simpl in Hl. lia. }
    cbn [Re.scan].
    replace (Re.mkCursor (Re.before (cursor_at text n)) "" n) with (cursor_at text n)
      by (unfold cursor_at; by rewrite <- Hs).
    rewrite match_at_whole_word_iff by done.
    rewrite decide_False by (apply no_occurrence_beyond; [done|lia]).
    destruct skip; simpl; intros p Hp; apply no_occurrence_beyond; (done || lia).
  - pose proof (slice_from_succ n text a s (eq_sym Hs)) as [E1 E2].
    assert (n < String.length text)%nat as Hlt.
    { pose proof (length_slice_from n text) as Hl. rewrite <- Hs in Hl. simpl in Hl. lia. }
    assert (Some a = Re.before (cursor_at text (S n))) as Hbef by (by simpl).
    cbn [Re.scan].
    replace (Re.mkCursor (Re.before (cursor_at text n)) (String a s) n)
      with (cursor_at text n) by (unfold cursor_at; by rewrite <- Hs).
    rewrite !match_at_whole_word_iff by done. rewrite Hbef.
    destruct skip as [|k].
    + destruct (decide (whole_word_at w text n)) as [Hocc|Hocc].
      * destruct (Nat.eqb_spec (n + String.length w) n) as [Heq|_].
        { destruct w; [done|simpl in Heq; lia]. }
        cbn [app]. cbn [leftmost_occurrences].
        rewrite Nat.add_0_r. do 3 (split; [done|]). split; [lia|].
        specialize (IH (S n) (n + String.length w - n - 1)%nat (eq_sym E1) Hlt).
        replace (S n + (n + String.length w - n - 1))%nat
          with (n + String.length w)%nat in IH; [done|].
        destruct w; [done|simpl; lia].
      * cbn [app]. rewrite Nat.add_0_r. apply leftmost_occurrences_extend; [done|].
        specialize (IH (S n) 0%nat (eq_sym E1) Hlt). by rewrite Nat.add_0_r in IH.
    + cbn [app]. specialize (IH (S n) k (eq_sym E1) Hlt).
      by replace (n + S k)%nat with (S n + k)%nat by lia.
Qed.

(** The matches of the whole-word pattern are the whole-word
    occurrences of the word, taken from left to right. *)
Lemma whole_word_leftmost w text :
  w <> "" -> leftmost_occurrences w text 0 (spans (whole_word w) text).
Proof.
  intros Hw.
  apply (scan_whole_word w text text 0 0 Hw); [by destruct text|lia].
Qed.

(** ** The replacement *)

Lemma sub_template_go_whole template w text i sp :
  Forall (fun '(b, e) => Py.slice b e text = w) sp ->
  Re.sub_template_go template text i sp = Re.sub_go (Re.expand template w) text i sp.
Proof.
  revert i. induction sp as [|[b e] sp IH]; intros i; [done|].
  intros [Hw Hall]%Forall_cons. cbn [Re.sub_template_go Re.sub_go].
  by rewrite Hw, IH.
Qed.

(** A replacement without backslash stands for itself. *)
Lemma parse_template_plain repl :
  Re.has_backslash repl = false ->
  exists template,
    Re.parse_template None repl = Some template /\
    forall whole, Re.expand template whole = repl.
Proof.
  unfold Re.has_backslash. induction repl as [|c s IH]; cbn -[Ascii.eqb].
  - intros _. by exists [].
  - intros [Hc Hs]%orb_false_iff. destruct (IH Hs) as (t & -> & Ht).
    rewrite Ascii.eqb_sym, Hc. cbn -[Ascii.eqb]. exists (Re.Chr c :: t).
    split; [done|]. intros whole. cbn [Re.expand]. by rewrite Ht.
Qed.

(** What the substitution of write mode returns: the stretches of the
    text outside the matches of the whole-word pattern, joined by the
    expansion of the correction. *)
Lemma sub_whole_word_some word fixword text new_line :
  sub_whole_word word fixword text = Some new_line ->
  exists template,
    Re.parse_template None fixword = Some template /\
    new_line = Py.join (Re.expand template word)
                 (outside text 0 (spans (whole_word word) text)).
Proof.
  unfold sub_whole_word. destruct (Re.all_chars _ _); [|done].
  destruct (Re.parse_template None fixword) as [t|]; [|done]. simpl.
  intros [= <-]. exists t. split; [done|].
  unfold Re.sub_template.
  rewrite (sub_template_go_whole t word) by apply whole_word_spans.
  apply sub_go_outside.
Qed.

(** ** The stretches outside the URIs and their words *)







(** *** The matches of a repeated class in joined texts *)











(** ** The steps of the scanner *)

Section ScannerSteps.

Variable filename : string.
Variable colors : TermColors.
Variable exclude_lines : gset string.
Variable word_regex : Pattern.
Variable ignore_word_regex : option Pattern.
Variable uri_regex : Pattern.
Variable uri_ignore_words : gset string.
Variable context : option (Z * Z).
Variable options : Options.

Local Abbreviation resolve' := (resolve colors context options).
Local Abbreviation scan_match' := (scan_match filename colors context options).
Local Abbreviation scan_matches' := (scan_matches filename colors context options).
Local Abbreviation scan_line' :=
  (scan_line filename colors exclude_lines word_regex ignore_word_regex
     uri_regex uri_ignore_words context options).
Local Abbreviation scan_lines' :=
  (scan_lines filename colors exclude_lines word_regex ignore_word_regex
     uri_regex uri_ignore_words context options).
Local Abbreviation load' :=
  (load filename colors word_regex ignore_word_regex options).
Local Abbreviation parse_file' :=
  (parse_file filename colors exclude_lines word_regex ignore_word_regex
     uri_regex uri_ignore_words context options).

(** The step for a word of the dictionary, once the decision is known:
    skipped when the literal was fixed on this line already; fixed in
    write mode when the decision is to fix; left out when suppressed;
    reported and counted otherwise. *)
Lemma scan_match_resolved i line st mt entry cs fx fixword entry' st1 :
  s_misspellings st !! Py.lower (m_group mt) = Some entry ->
  resolve' i mt entry st = (cs, fx, fixword, entry', st1) ->
  let st2 := update_summary fx (Py.lower (m_group mt)) st1 in
  scan_match' i line st mt =
    if decide (m_group mt ∈ fixed_words st) then Some st2
    else if write_changes options && fx then
      new_line ← sub_whole_word (m_group mt) fixword (lines st !!! i);
      Some (mkScan (s_misspellings st2) (s_summary st2) (s_io st2)
              (<[i := new_line]> (lines st)) true (bad_count st)
              ({[m_group mt]} ∪ fixed_words st) (asked_for st2))
    else if suppressed options fx (reason entry') then Some st2
    else Some (report_finding filename colors context i line mt cs fixword
                 (if Py.truthy (reason entry')
                  then creason_of colors (reason entry') else "") st2).
Proof.
  intros Hl Hres st2. unfold scan_match. rewrite Hl, Hres. fold st2.
  apply resolve_fields in Hres as (_ & _ & _ & _ & _ & Hlines & _ & Hbad & Hfw).
  destruct (update_summary_fields fx (Py.lower (m_group mt)) st1)
    as (_ & _ & Hl2 & _ & Hb2 & Hf2 & _).
  fold st2 in Hl2, Hb2, Hf2.
  rewrite Hl2, Hb2, Hf2, Hlines, Hbad, Hfw.
  destruct (decide (m_group mt ∈ fixed_words st)); [done|].
  destruct (write_changes options && fx); [done|].
  unfold suppressed.
  destruct (Py.has_bit (interactive options) 2), fx, (Py.truthy (reason entry')),
    (Py.has_bit (quiet_level options) QuietLevels.DISABLED_FIXES),
    (Py.has_bit (quiet_level options) QuietLevels.NON_AUTOMATIC_FIXES); done.
Qed.

Lemma scan_match_bad_count i line st mt st' :
  scan_match' i line st mt = Some st' -> bad_count st <= bad_count st'.
Proof.
  destruct (s_misspellings st !! Py.lower (m_group mt)) as [entry|] eqn:Hl.
  - destruct (resolve' i mt entry st) as [[[[cs fx] fw] e'] st1] eqn:Hres.
    rewrite (scan_match_resolved _ _ _ _ _ _ _ _ _ _ Hl Hres).
    apply resolve_fields in Hres as (_ & _ & _ & _ & _ & _ & _ & Hbad & _).
    destruct (update_summary_fields fx (Py.lower (m_group mt)) st1)
      as (_ & _ & _ & _ & Hb2 & _).
    cbv zeta in *. intros H. repeat case_match; simplify_option_eq; simpl; lia.
  - rewrite scan_match_absent by done. intros [= <-]. lia.
Qed.

Lemma scan_matches_bad_count check_matches i line st st' :
  scan_matches' i line st check_matches = Some st' -> bad_count st <= bad_count st'.
Proof.
  apply (scan_matches_invariant filename colors context options
           (fun s => bad_count st <= bad_count s)); [|lia].
  intros ????? H1 H2%scan_match_bad_count. lia.
Qed.

Lemma scan_lines_bad_count rest i st st' :
  scan_lines' i rest st = Some st' -> bad_count st <= bad_count st'.
Proof.
  apply (scan_lines_invariant filename colors exclude_lines word_regex
           ignore_word_regex uri_regex uri_ignore_words context options
           (fun s => bad_count st <= bad_count s)); [done| |lia].
  intros ????? H1 H2%scan_match_bad_count. lia.
Qed.

(** C1 (as amended).  For a match that is a word of the dictionary,
    with the decision resolved: when the literal was not fixed on this
    line before, write mode does not fix it (write mode is off or the
    decision is not to fix) and none of the three suppression rules
    applies, the step adds exactly one to the count; in every other
    case (the literal was fixed on this line already, write mode fixes
    it, or it is suppressed) the count stays as it is.  The count never
    decreases in the later steps and lines, and [parse_file] returns the
    count reached at the end of the file. *)
Theorem uncorrected_finding_counts (i : nat) (line : string) (st : Scan)
    (mt : Match) (entry : Misspelling) (cs fx : bool) (fixword : string)
    (entry' : Misspelling) (st1 : Scan) :
  s_misspellings st !! Py.lower (m_group mt) = Some entry ->
  resolve' i mt entry st = (cs, fx, fixword, entry', st1) ->
  let counted :=
    bool_decide (m_group mt ∉ fixed_words st)
    && negb (write_changes options && fx)
    && negb (suppressed options fx (reason entry')) in
  (counted = true ->
     exists st', scan_match' i line st mt = Some st' /\
                 bad_count st' = bad_count st + 1) /\
  (counted = false ->
     forall st', scan_match' i line st mt = Some st' ->
                 bad_count st' = bad_count st) /\
  (forall st' rest st'',
     scan_match' i line st mt = Some st' ->
     scan_matches' i line st' rest = Some st'' ->
     bad_count st' <= bad_count st'') /\
  (forall j rest st' st'',
     scan_lines' j rest st' = Some st'' -> bad_count st' <= bad_count st'') /\
  (forall ss n ss',
     parse_file' ss = Some (n, ss') ->
     load' ss = Return n ss' \/
     exists lines0 encoding st0 st_end,
       load' ss = Lines lines0 encoding st0 /\
       scan_lines' 0 lines0 st0 = Some st_end /\ n = bad_count st_end).
Proof.
  intros Hl Hres counted.
  pose proof (scan_match_resolved i line _ _ _ _ _ _ _ _ Hl Hres) as Hstep.
  cbv zeta in Hstep.
  pose proof (resolve_fields _ _ _ _ _ _ _ _ _ _ _ _ Hres)
    as (_ & _ & _ & _ & _ & _ & _ & Hbad & _).
  destruct (update_summary_fields fx (Py.lower (m_group mt)) st1)
    as (_ & _ & _ & _ & Hb2 & _). cbv zeta in Hb2.
  split; [|split; [|split; [|split]]].
  - unfold counted. intros [[Hfw Hw]%andb_true_iff Hs]%andb_true_iff.
    apply bool_decide_eq_true in Hfw. apply negb_true_iff in Hw, Hs.
    rewrite Hstep, decide_False, Hw, Hs by done.
    eexists. split; [done|]. simpl. lia.
  - unfold counted. intros Hc st'. rewrite Hstep.
    destruct (decide (m_group mt ∈ fixed_words st)) as [|Hfw].
    { intros [= <-]. lia. }
    rewrite bool_decide_eq_true_2 in Hc by done.
    destruct (write_changes options && fx).
    { intros H. simplify_option_eq. done. }
    destruct (suppressed options fx (reason entry')); [|done].
    intros [= <-]. lia.
  - intros st' rest st'' _. apply scan_matches_bad_count.
  - intros j rest st' st''. apply scan_lines_bad_count.
  - intros ss n ss'. unfold parse_file.
    destruct (load' ss) as [n0 ss0|lines0 encoding st0]; [intros [= <- <-]; by left|].
    destruct (scan_lines' 0 lines0 st0) as [st_end|] eqn:E; [|done].
    simpl. intros [= Hfin]. right. exists lines0, encoding, st0, st_end.
    repeat split; [done|].
    destruct (finish_fields filename colors options encoding (disk ss) st_end) as (<- & _).
    by rewrite Hfin.
Qed.

(** C2 (as amended).  When write mode is on, the resolved decision for
    a word of the dictionary is to fix, and the literal was not fixed on
    this line before, the step replaces the line by the result of one
    whole-word substitution of the exact-case literal, adds the literal
    to the literals fixed on this line, marks the file as changed and
    leaves the count alone.  The substitution replaces every whole-word
    occurrence of the literal on the line, not the first one only: the
    spans it replaces are the occurrences of the literal between two
    word boundaries, taken from left to right, and no such occurrence
    is left between them; each is replaced by the expansion of the
    correction as a replacement template, which is the correction
    itself when it holds no backslash.  A later match on the line whose
    literal is among those fixed changes neither the lines nor the mark
    nor the count.  The literals fixed are those of the line only:
    whatever was fixed on the lines before, the first candidate of a
    line that the dictionary fixes is substituted, and it is then the
    one literal fixed on this line. *)
Theorem write_mode_fix_replaces_all (i : nat) (line : string) (st : Scan)
    (mt : Match) (entry : Misspelling) (cs : bool) (fixword : string)
    (entry' : Misspelling) (st1 : Scan) (fixed_line : string) :
  s_misspellings st !! Py.lower (m_group mt) = Some entry ->
  resolve' i mt entry st = (cs, true, fixword, entry', st1) ->
  write_changes options = true ->
  m_group mt ∉ fixed_words st ->
  sub_whole_word (m_group mt) fixword (lines st !!! i) = Some fixed_line ->
  (exists st',
     scan_match' i line st mt = Some st' /\
     lines st' = <[i := fixed_line]> (lines st) /\
     changed st' = true /\
     fixed_words st' = {[m_group mt]} ∪ fixed_words st /\
     bad_count st' = bad_count st) /\
  (m_group mt <> "" ->
   leftmost_occurrences (m_group mt) (lines st !!! i) 0
     (spans (whole_word (m_group mt)) (lines st !!! i))) /\
  (exists template,
     Re.parse_template None fixword = Some template /\
     fixed_line =
       Py.join (Re.expand template (m_group mt))
         (outside (lines st !!! i) 0
            (spans (whole_word (m_group mt)) (lines st !!! i))) /\
     (Re.has_backslash fixword = false ->
      Re.expand template (m_group mt) = fixword)) /\
  (forall st2 mt2,
     m_group mt2 ∈ fixed_words st2 ->
     exists st3,
       scan_match' i line st2 mt2 = Some st3 /\
       lines st3 = lines st2 /\ changed st3 = changed st2 /\
       bad_count st3 = bad_count st2 /\ fixed_words st3 = fixed_words st2) /\
  (forall j line0 st0 mt0 rest0 entry0 new_line0,
     line0 ∉ exclude_lines ->
     candidates word_regex ignore_word_regex uri_regex uri_ignore_words line0
       = mt0 :: rest0 ->
     interactive options = 0 ->
     s_misspellings st0 !! Py.lower (m_group mt0) = Some entry0 ->
     fix_ entry0 = true ->
     sub_whole_word (m_group mt0) (fix_case (m_group mt0) (data entry0))
       (lines st0 !!! j) = Some new_line0 ->
     exists st0',
       scan_line' j line0 st0
         = scan_matches' j (scanned_text uri_regex uri_ignore_words line0) st0' rest0 /\
       lines st0' = <[j := new_line0]> (lines st0) /\
       changed st0' = true /\
       fixed_words st0' = {[m_group mt0]} /\
       bad_count st0' = bad_count st0).
Proof.
  intros Hl Hres Hw Hfw Hsub. split; [|split; [|split; [|split]]].
  - rewrite (scan_match_resolved i line _ _ _ _ _ _ _ _ Hl Hres).
    rewrite decide_False, Hw, Hsub by done. simpl. eauto 10.
  - apply whole_word_leftmost.
  - destruct (sub_whole_word_some _ _ _ _ Hsub) as (t & Ht & Hnew).
    exists t. split; [done|]. split; [done|].
    intros (t' & Ht' & Hexp)%parse_template_plain.
    rewrite Ht in Ht'. injection Ht' as <-. apply Hexp.
  - intros st2 mt2 Hin.
    destruct (s_misspellings st2 !! Py.lower (m_group mt2)) as [e2|] eqn:Hl2.
    + destruct (resolve' i mt2 e2 st2) as [[[[cs2 fx2] fw2] e2'] st2'] eqn:Hres2.
      rewrite (scan_match_resolved i line _ _ _ _ _ _ _ _ Hl2 Hres2).
      rewrite decide_True by done.
      apply resolve_fields in Hres2 as (_ & _ & _ & _ & _ & ? & ? & ? & ?).
      destruct (update_summary_fields fx2 (Py.lower (m_group mt2)) st2')
        as (_ & _ & ? & ? & ? & ? & _).
      eexists. split; [done|]. cbv zeta in *. repeat split; congruence.
    + rewrite scan_match_absent by done. eauto 10.
  - intros j line0 st0 mt0 rest0 entry0 new0 Hex Hcand Hi Hl0 Hfix Hsub0.
    unfold scan_line. rewrite decide_False by done. rewrite Hcand.
    cbn [scan_matches].
    assert (resolve' j mt0 entry0 (new_line st0)
            = (false, true, fix_case (m_group mt0) (data entry0), entry0, new_line st0))
      as Hres0.
    { unfold resolve. rewrite Hi, Hfix. done. }
    rewrite (scan_match_resolved j _ (new_line st0) mt0 entry0 _ _ _ _ _ Hl0 Hres0).
    rewrite decide_False by (simpl; apply not_elem_of_empty).
    rewrite Hw. cbn [andb new_line lines]. rewrite Hsub0. cbn [mbind option_bind].
    eexists. split; [reflexivity|]. cbn. do 2 (split; [done|]).
    split; [apply (right_id_L ∅ (∪))|done].
Qed.




Lemma scan_match_declined i line st mt :
  affirmative colors context options i st mt = false ->
  exists st', scan_match' i line st mt = Some st' /\ changed st' = changed st.
Proof.
  unfold affirmative.
  destruct (s_misspellings st !! Py.lower (m_group mt)) as [entry|] eqn:Hl.
  - destruct (resolve' i mt entry st) as [[[[cs fx] fw] e'] st1] eqn:Hres.
    simpl. intros Hw.
    rewrite (scan_match_resolved i line _ _ _ _ _ _ _ _ Hl Hres). rewrite Hw.
    apply resolve_fields in Hres as (_ & _ & _ & _ & _ & _ & Hch & _).
    destruct (update_summary_fields fx (Py.lower (m_group mt)) st1)
      as (_ & _ & _ & Hc2 & _). cbv zeta in *.
    repeat case_match; eexists; (split; [done|]); simpl; congruence.
  - intros _. rewrite scan_match_absent by done. eauto.
Qed.

Lemma scan_matches_declined check_matches i line st :
  all_declined_matches filename colors context options i line st check_matches = true ->
  exists st', scan_matches' i line st check_matches = Some st' /\
              changed st' = changed st.
Proof.
  revert st. induction check_matches as [|mt rest IH]; intros st; simpl; [eauto|].
  intros [Ha Hrest]%andb_true_iff. apply negb_true_iff in Ha.
  destruct (scan_match_declined i line st mt Ha) as (st1 & Hst1 & Hc1).
  rewrite Hst1 in *. simpl.
  destruct (IH st1 Hrest) as (st' & Hst' & Hc'). exists st'. split; [done|congruence].
Qed.

Lemma scan_lines_declined rest i st :
  all_declined_lines filename colors exclude_lines word_regex ignore_word_regex
    uri_regex uri_ignore_words context options i rest st = true ->
  exists st', scan_lines' i rest st = Some st' /\ changed st' = changed st.
Proof.
  revert i st. induction rest as [|line rest IH]; intros i st; simpl; [eauto|].
  intros [Hline Hrest]%andb_true_iff.
  destruct (scan_line' i line st) as [st1|] eqn:E; [|done]. simpl.
  destruct (IH _ _ Hrest) as (st' & Hst' & Hc'). exists st'. split; [done|].
  rewrite Hc'. unfold scan_line in E.
  destruct (decide (line ∈ exclude_lines)) as [|Hex]; [by simplify_eq|].
  rewrite bool_decide_eq_false_2 in Hline by done. simpl in Hline.
  destruct (scan_matches_declined _ _ _ _ Hline) as (st1' & Hs & Hc).
  rewrite Hs in E. by simplify_eq.
Qed.

(** C8.  If no fix decision is affirmative while a file is processed
    (no match is resolved to a fix while write mode is on), [parse_file]
    returns and leaves the files on disk as they were: the file is not
    written. *)
Theorem declined_fixes_leave_disk (ss : Session) :
  all_declined filename colors exclude_lines word_regex ignore_word_regex
    uri_regex uri_ignore_words context options ss = true ->
  exists n ss', parse_file' ss = Some (n, ss') /\ disk ss' = disk ss.
Proof.
  unfold all_declined, parse_file.
  destruct (load' ss) as [n0 ss0|lines0 encoding st0] eqn:Hload.
  - intros _. exists n0, ss0. split; [done|]. by apply load_return in Hload as [_ ?].
  - intros (st' & Hst' & Hc)%scan_lines_declined. rewrite Hst'. simpl.
    apply load_lines in Hload as (_ & _ & Hch & _).
    destruct (finish_fields filename colors options encoding (disk ss) st')
      as (_ & _ & Hd).
    destruct (finish _ _ _ _ _ _) as [n ss']. exists n, ss'. split; [done|].
    apply Hd. congruence.
Qed.

Lemma affirmative_write_off i st mt :
  write_changes options = false -> affirmative colors context options i st mt = false.
Proof. intros H. unfold affirmative. by rewrite H. Qed.

End ScannerSteps.

(** ** Sample runs of the scanner *)

Lemma uncorrected_finding_counts_witness :
  exists st',
    scan_match "f.txt" TermColors_disabled None report_only 0 ("teh" +:+ NL)
      (teh_scan ["teh" +:+ NL]) (mkMatch 0 3 "teh") = Some st' /\
    bad_count st' = bad_count (teh_scan ["teh" +:+ NL]) + 1.
Proof.
  refine (proj1 (uncorrected_finding_counts "f.txt" TermColors_disabled ∅
    word_pattern None uri_pattern ∅ None report_only 0 ("teh" +:+ NL)
    (teh_scan ["teh" +:+ NL]) (mkMatch 0 3 "teh") (mkMisspelling "the" true "")
    false true "the" (mkMisspelling "the" true "") (teh_scan ["teh" +:+ NL])
    _ _) _); vm_compute; reflexivity.
Defined.

(** C1 as stated fails: in write mode the finding [teh] is fixed, it is
    not suppressed, and the count stays at zero. *)
Lemma fixed_finding_not_counted :
  ~ (forall filename colors context options i line st mt entry cs fx fixword
            entry' st1,
       s_misspellings st !! Py.lower (m_group mt) = Some entry ->
       resolve colors context options i mt entry st = (cs, fx, fixword, entry', st1) ->
       suppressed options fx (reason entry') = false ->
       exists st', scan_match filename colors context options i line st mt = Some st' /\
                   bad_count st' = bad_count st + 1).
Proof.
  intros H.
  destruct (H "f.txt" TermColors_disabled None write_all 0%nat ("teh" +:+ NL)
              (teh_scan ["teh" +:+ NL]) (mkMatch 0 3 "teh")
              (mkMisspelling "the" true "") false true "the"
              (mkMisspelling "the" true "") (teh_scan ["teh" +:+ NL]))
    as (st' & Hst & Hb); try (vm_compute; reflexivity).
  vm_compute in Hst. injection Hst as <-. vm_compute in Hb. discriminate.
Qed.

Lemma write_mode_fix_replaces_all_witness :
  exists st',
    scan_match "f.txt" TermColors_disabled None write_all 0 ("teh teh" +:+ NL)
      (teh_scan ["teh teh" +:+ NL]) (mkMatch 0 3 "teh") = Some st' /\
    lines st' = <[0%nat := "the the" +:+ NL]> ["teh teh" +:+ NL] /\
    changed st' = true /\
    fixed_words st' = {["teh"]} ∪ ∅ /\
    bad_count st' = 0.
Proof.
  refine (proj1 (write_mode_fix_replaces_all "f.txt" TermColors_disabled ∅
    word_pattern None uri_pattern ∅ None
    write_all 0 ("teh teh" +:+ NL) (teh_scan ["teh teh" +:+ NL])
    (mkMatch 0 3 "teh") (mkMisspelling "the" true "") false "the"
    (mkMisspelling "the" true "") (teh_scan ["teh teh" +:+ NL])
    ("the the" +:+ NL) _ _ _ _ _)); try (vm_compute; reflexivity).
  apply not_elem_of_empty.
Defined.

(** C2 as stated fails: on the line [teh teh] the fix of the first
    match replaces both occurrences, not the first one only. *)
Lemma write_mode_fix_not_first_only :
  ~ (forall filename colors context options i line st mt entry cs fixword
            entry' st1 st',
       s_misspellings st !! Py.lower (m_group mt) = Some entry ->
       resolve colors context options i mt entry st
         = (cs, true, fixword, entry', st1) ->
       write_changes options = true ->
       m_group mt ∉ fixed_words st ->
       scan_match filename colors context options i line st mt = Some st' ->
       lines st' =
         <[i := sub_first_whole_word (m_group mt) fixword (lines st !!! i)]>
           (lines st)).
Proof.
  intros H.
  pose proof (H "f.txt" TermColors_disabled None write_all 0%nat
                ("teh teh" +:+ NL) (teh_scan ["teh teh" +:+ NL])
                (mkMatch 0 3 "teh") (mkMisspelling "the" true "") false "the"
                (mkMisspelling "the" true "") (teh_scan ["teh teh" +:+ NL])
                (mkScan teh_dict None (mkConsole [] [] []) ["the the" +:+ NL]
                   true 0 {["teh"]} ∅)) as Hlines.
  assert (["the the" +:+ NL] = ["the teh" +:+ NL]) as Habs; [|discriminate].
  apply Hlines; try (vm_compute; reflexivity). apply not_elem_of_empty.
Qed.


Lemma declined_fixes_leave_disk_witness :
  exists n ss',
    parse_file "f.txt" TermColors_disabled ∅ word_pattern None uri_pattern ∅
      None write_confirmed (teh_session ["teh" +:+ NL] ["n" +:+ NL])
      = Some (n, ss') /\
    disk ss' = disk (teh_session ["teh" +:+ NL] ["n" +:+ NL]).
Proof.
  apply (declined_fixes_leave_disk "f.txt" TermColors_disabled ∅ word_pattern
           None uri_pattern ∅ None write_confirmed).
  vm_compute. reflexivity.
Defined.

(** ** The examples of the specification *)

Example fix_case_Teh : fix_case "Teh" "the" = "The".
Proof. reflexivity. Qed.

Example fix_case_TEH : fix_case "TEH" "the" = "THE".
Proof. reflexivity. Qed.

Example fix_case_teh : fix_case "teh" "the" = "the".
Proof. reflexivity. Qed.

(** In write mode the line [teh teh] is rewritten to [the the], and
    nothing is counted. *)
Example write_mode_teh_teh :
  (fun r => (r.1, disk r.2 !! "f.txt")) <$>
    parse_file "f.txt" TermColors_disabled ∅ word_pattern None uri_pattern ∅
      None write_all (teh_session ["teh teh" +:+ NL] [])
  = Some (0, Some (Text ["the the" +:+ NL] "utf-8")).
Proof. vm_compute. reflexivity. Qed.

(** With a reason the line stays and the finding is reported with it. *)
Example write_mode_reason :
  (fun r => (r.1, disk r.2 !! "f.txt", stdout (io r.2))) <$>
    parse_file "f.txt" TermColors_disabled ∅ word_pattern None uri_pattern ∅
      None write_all
      (mkSession {[ "teh" := mkMisspelling "the" false "context needed" ]} None
         (mkConsole [] [] []) {[ "f.txt" := Text ["teh teh" +:+ NL] "utf-8" ]})
  = Some (2, Some (Text ["teh teh" +:+ NL] "utf-8"),
          ["f.txt:1: teh ==> the  | context needed" +:+ NL;
           "f.txt:1: teh ==> the  | context needed" +:+ NL]).
Proof. vm_compute. reflexivity. Qed.

(** An excluded line yields no finding. *)
Example excluded_line :
  fst <$>
    parse_file "f.txt" TermColors_disabled {["teh" +:+ NL]} word_pattern None
      uri_pattern ∅ None report_only (teh_session ["teh" +:+ NL] [])
  = Some 0.
Proof. vm_compute. reflexivity. Qed.

(** With the wildcard the [foo] inside the URI is no candidate, the one
    after it is, and it is the one reported. *)
Example wildcard_see_foo :
  candidates word_pattern None uri_pattern {["*"]} "see http://x.com/foo and foo"
  = [mkMatch 0 3 "see"; mkMatch 6 9 "and"; mkMatch 10 13 "foo"] /\
  (fun r => (r.1, stdout (io r.2))) <$>
    parse_file "f.txt" TermColors_disabled ∅ word_pattern None uri_pattern
      {["*"]} None report_only
      (mkSession {[ "foo" := mkMisspelling "bar" true "" ]} None
         (mkConsole [] [] [])
         {[ "f.txt" := Text ["see http://x.com/foo and foo"] "utf-8" ]})
  = Some (1, ["f.txt:1: foo ==> bar" +:+ NL]).
Proof. split; vm_compute; reflexivity. Qed.

(** One [foo] is struck for the URI, the other one is reported. *)
Example uri_ignore_word_foo :
  (fun r => (r.1, stdout (io r.2))) <$>
    parse_file "f.txt" TermColors_disabled ∅ word_pattern None uri_pattern
      {["foo"]} None report_only
      (mkSession {[ "foo" := mkMisspelling "bar" true "" ]} None
         (mkConsole [] [] [])
         {[ "f.txt" := Text ["see http://x.com/foo and foo"] "utf-8" ]})
  = Some (1, ["f.txt:1: foo ==> bar" +:+ NL]).
Proof. vm_compute. reflexivity. Qed.

(** * Further properties *)

(** ** The dictionary builder: sources, keys, failures *)

Lemma build_dict_concat lines1 lines2 d ignore_words :
  build_dict (lines1 ++ lines2) d ignore_words =
    match build_dict lines1 d ignore_words with
    | Ok d1 => build_dict lines2 d1 ignore_words
    | Raise e => Raise e
    end.
Proof.
  revert d. induction lines1 as [|line lines1 IH]; intros d; simpl; [done|].
  destruct (parse_entry ignore_words line) as [[[key m]|]|]; by rewrite ?IH.
Qed.

(** X1.  Loading the lines of two sources one after the other is loading
    the first source and then the second one on top of its result; a
    failure in the first source is the failure of the whole load. *)
Theorem build_dict_app (lines1 lines2 : list string)
    (d : gmap string Misspelling) (ignore_words : gset string) :
  build_dict (lines1 ++ lines2) d ignore_words =
    match build_dict lines1 d ignore_words with
    | Ok d1 => build_dict lines2 d1 ignore_words
    | Raise e => Raise e
    end.
Proof.
  revert d. induction lines1 as [|line lines1 IH]; intros d; simpl; [done|].
  destruct (parse_entry ignore_words line) as [[[key m]|]|]; by rewrite ?IH.
Qed.

Lemma build_dict_other lines d ignore_words d' k :
  build_dict lines d ignore_words = Ok d' ->
  (forall line m, line ∈ lines -> parse_entry ignore_words line <> Ok (Some (k, m))) ->
  d' !! k = d !! k.
Proof.
  revert d. induction lines as [|line lines IH]; intros d; simpl.
  - by intros [= <-].
  - intros H Hk.
    assert (forall line0 m, line0 ∈ lines ->
              parse_entry ignore_words line0 <> Ok (Some (k, m))) as Hk'
      by (intros ?? Hin; apply Hk; by right).
    destruct (parse_entry ignore_words line) as [[[key m]|]|] eqn:E; [| |done].
    + rewrite (IH _ H Hk'). apply lookup_insert_ne. intros ->.
      by apply (Hk line m); [left|].
    + by apply IH.
Qed.

(** X2.  The last line of the sources that defines a key wins: when no
    later line defines the key, the loaded dictionary holds the entry of
    that line under it. *)
Theorem build_dict_last_wins (lines1 lines2 : list string) (line : string)
    (d d' : gmap string Misspelling) (ignore_words : gset string)
    (k : string) (m : Misspelling) :
  build_dict (lines1 ++ line :: lines2) d ignore_words = Ok d' ->
  parse_entry ignore_words line = Ok (Some (k, m)) ->
  (forall line2 m2, line2 ∈ lines2 ->
     parse_entry ignore_words line2 <> Ok (Some (k, m2))) ->
  d' !! k = Some m.
Proof.
  rewrite build_dict_concat.
  destruct (build_dict lines1 d ignore_words) as [d1|]; [|done].
  simpl. intros H Hline Hlater. rewrite Hline in H.
  rewrite (build_dict_other _ _ _ _ _ H Hlater). apply lookup_insert_eq.
Qed.

Lemma build_dict_last_wins_witness :
  exists d',
    build_dict ["teh->the"; "teh->ten"; "abd->and"] ∅ ∅ = Ok d' /\
    d' !! "teh" = Some (mkMisspelling "ten" true "").
Proof.
  eexists. split; [vm_compute; reflexivity|].
  apply (build_dict_last_wins ["teh->the"] ["abd->and"] "teh->ten" ∅ _ ∅).
  - vm_compute. reflexivity.
  - vm_compute. reflexivity.
  - intros line2 m2 ->%list_elem_of_singleton. vm_compute. discriminate.
Defined.

Lemma parse_entry_key_not_ignored ignore_words line k m :
  parse_entry ignore_words line = Ok (Some (k, m)) -> k ∉ ignore_words.
Proof.
  unfold parse_entry. intros H. repeat case_match; simplify_eq; done.
Qed.

(** X3.  An ignored word is never stored: whatever the sources hold, the
    loaded dictionary has under an ignored word what the dictionary had
    before the load. *)
Theorem build_dict_skips_ignored (lines : list string)
    (d d' : gmap string Misspelling) (ignore_words : gset string) (k : string) :
  build_dict lines d ignore_words = Ok d' ->
  k ∈ ignore_words ->
  d' !! k = d !! k.
Proof.
  intros H Hk. apply (build_dict_other _ _ _ _ _ H).
  intros line m _ E. by apply parse_entry_key_not_ignored in E.
Qed.

Lemma build_dict_skips_ignored_witness :
  exists d',
    build_dict ["Teh->the"; "abd->and"] ∅ {["teh"]} = Ok d' /\
    d' !! "teh" = (∅ : gmap string Misspelling) !! "teh".
Proof.
  eexists. split; [vm_compute; reflexivity|].
  apply (build_dict_skips_ignored ["Teh->the"; "abd->and"] ∅ _ {["teh"]}).
  - vm_compute. reflexivity.
  - apply elem_of_singleton. reflexivity.
Defined.

(** X4.  The load fails exactly when some line of the sources does not
    split into two parts at the separator; neither the dictionary
    loaded so far nor the ignored words play a part in that. *)
Theorem build_dict_fails_iff (lines : list string)
    (d : gmap string Misspelling) (ignore_words : gset string) :
  build_dict lines d ignore_words = Raise ValueError <->
  exists line, line ∈ lines /\ length (Py.split_arrow line) <> 2%nat.
Proof.
  assert (forall line,
    (parse_entry ignore_words line = Raise ValueError <->
     length (Py.split_arrow line) <> 2%nat)) as Hline.
  { intros line. unfold parse_entry.
    destruct (Py.split_arrow line) as [|k [|dat [|x l]]]; simpl;
      try (split; [lia|done]); try (split; [done|lia]).
    repeat case_match; split; (done || lia). }
  revert d. induction lines as [|line lines IH]; intros d; simpl.
  - split; [done|]. by intros (? & ?%elem_of_nil & _).
  - destruct (parse_entry ignore_words line) as [[[key m]|]|[]] eqn:E.
    + rewrite IH. split.
      * intros (l & Hl & Hn). exists l. split; [by right|done].
      * intros (l & [->|Hl]%elem_of_cons & Hn); [|by eauto].
        apply Hline in Hn. congruence.
    + rewrite IH. split.
      * intros (l & Hl & Hn). exists l. split; [by right|done].
      * intros (l & [->|Hl]%elem_of_cons & Hn); [|by eauto].
        apply Hline in Hn. congruence.
    + split; [|done]. intros _. exists line. split; [by left|]. by apply Hline.
Qed.

(** *** Lower case *)

Lemma lower_char_idemp c : Py.lower_char (Py.lower_char c) = Py.lower_char c.
Proof. destruct c as [[] [] [] [] [] [] [] []]; reflexivity. Qed.

Lemma lower_char_space c : Py.is_space (Py.lower_char c) = Py.is_space c.
Proof. destruct c as [[] [] [] [] [] [] [] []]; reflexivity. Qed.

Lemma lower_idemp s : Py.lower (Py.lower s) = Py.lower s.
Proof.
  unfold Py.lower. induction s as [|c s IH]; [done|].
  simpl. by rewrite IH, lower_char_idemp.
Qed.

Lemma lower_lstrip s : Py.lower (Py.lstrip s) = Py.lstrip (Py.lower s).
Proof.
  unfold Py.lower. induction s as [|c s IH]; [done|].
  simpl. rewrite lower_char_space. by destruct (Py.is_space c).
Qed.

Lemma lower_rstrip s : Py.lower (Py.rstrip s) = Py.rstrip (Py.lower s).
Proof.
  unfold Py.lower. induction s as [|c s IH]; [done|].
  simpl. rewrite <- IH, lower_char_space.
  destruct (Py.rstrip s); simpl; [|done]. by destruct (Py.is_space c).
Qed.

Lemma lower_strip s : Py.lower (Py.strip s) = Py.strip (Py.lower s).
Proof. unfold Py.strip. by rewrite lower_rstrip, lower_lstrip. Qed.

Lemma lower_slice_to n s : Py.lower (Py.slice_to n s) = Py.slice_to n (Py.lower s).
Proof.
  unfold Py.lower. revert s. induction n as [|n IH]; intros [|c s]; simpl; try done.
  by rewrite IH.
Qed.

Lemma lower_slice_from n s : Py.lower (Py.slice_from n s) = Py.slice_from n (Py.lower s).
Proof.
  unfold Py.lower. revert s. induction n as [|n IH]; intros [|c s]; simpl; try done.
Qed.

(** X5.  What the builder stores is in lower case: the key, the
    correction and the reason of every entry it adds are their own
    lowercase forms, so a lookup by the lowercased word finds them. *)
Theorem build_dict_lowercase (lines : list string)
    (d d' : gmap string Misspelling) (ignore_words : gset string)
    (k : string) (m : Misspelling) :
  build_dict lines d ignore_words = Ok d' ->
  d' !! k = Some m ->
  d !! k = Some m \/
  (Py.lower k = k /\ Py.lower (data m) = data m /\ Py.lower (reason m) = reason m).
Proof.
  revert d. induction lines as [|line lines IH]; intros d; simpl.
  - intros [= <-] H. by left.
  - destruct (parse_entry ignore_words line) as [[[key m0]|]|] eqn:E; [| |done].
    + intros H Hk. destruct (IH _ H Hk) as [Hin|Hlow]; [|by right].
      destruct (decide (key = k)) as [->|Hne];
        [|left; by rewrite lookup_insert_ne in Hin].
      rewrite lookup_insert_eq in Hin. injection Hin as ->. right.
      unfold parse_entry in E.
      repeat case_match; simplify_eq; simpl;
        rewrite ?lower_strip, ?lower_slice_to, ?lower_slice_from, ?lower_strip,
          ?lower_idemp; done.
    + apply IH.
Qed.

Lemma build_dict_lowercase_witness :
  (∅ : gmap string Misspelling) !! "teh" = Some (mkMisspelling "the" true "") \/
  (Py.lower "teh" = "teh" /\ Py.lower "the" = "the" /\ Py.lower "" = "").
Proof.
  apply (build_dict_lowercase ["TEH->The" +:+ NL] ∅
           (<["teh" := mkMisspelling "the" true ""]> ∅) ∅ "teh"
           (mkMisspelling "the" true "")).
  - vm_compute. reflexivity.
  - vm_compute. reflexivity.
Defined.

(** X6.  An ignore word with an upper-case letter in it is inert: the
    builder compares it with lowercased keys only, so the load is the
    same with and without it. *)
Theorem build_dict_uppercase_ignore_word (lines : list string)
    (d : gmap string Misspelling) (ignore_words : gset string) (w : string) :
  w <> Py.lower w ->
  build_dict lines d ({[w]} ∪ ignore_words) = build_dict lines d ignore_words.
Proof.
  intros Hw.
  assert (forall line, parse_entry ({[w]} ∪ ignore_words) line
                       = parse_entry ignore_words line) as Hline.
  { intros line. unfold parse_entry.
    destruct (Py.split_arrow line) as [|k [|dat [|x l]]]; try done.
    destruct (decide (Py.lower k ∈ ignore_words)) as [Hin|Hin].
    - rewrite decide_True by set_solver. done.
    - rewrite decide_False; [done|].
      intros [H%elem_of_singleton|?]%elem_of_union; [|done].
      apply Hw. rewrite <- H. by rewrite lower_idemp. }
  revert d. induction lines as [|line lines IH]; intros d; simpl; [done|].
  rewrite Hline. destruct (parse_entry ignore_words line) as [[[key m]|]|]; by rewrite ?IH.
Qed.

Lemma build_dict_uppercase_ignore_word_witness :
  build_dict ["teh->the"] ∅ ({["Teh"]} ∪ ∅) = build_dict ["teh->the"] ∅ ∅.
Proof.
  apply (build_dict_uppercase_ignore_word ["teh->the"] ∅ ∅ "Teh"). discriminate.
Defined.

(** *** Trimming *)

Lemma rstrip_empty_iff s :
  Py.rstrip s = "" <-> Re.all_chars Py.is_space s = true.
Proof.
  induction s as [|c s IH]; [done|].
  rewrite all_chars_cons. simpl. destruct (Py.rstrip s) eqn:E.
  - destruct (Py.is_space c); simpl; [by rewrite <- IH|]. split; done.
  - split; [done|]. intros [_ H]%andb_true_iff. by apply IH in H.
Qed.

Lemma rstrip_app a b :
  Py.rstrip (a +:+ b) =
    match Py.rstrip b with
    | "" => Py.rstrip a
    | _ => a +:+ Py.rstrip b
    end.
Proof.
  induction a as [|c a IH];
    [rewrite append_nil_l; by destruct (Py.rstrip b)|].
  rewrite append_cons. simpl. rewrite IH.
  destruct (Py.rstrip b) eqn:E; [done|]. rewrite append_cons.
  by destruct a.
Qed.

Lemma rstrip_idemp s : Py.rstrip (Py.rstrip s) = Py.rstrip s.
Proof.
  induction s as [|c s IH]; [done|]. simpl.
  destruct (Py.rstrip s) eqn:E.
  - destruct (Py.is_space c) eqn:Ec; [done|]. simpl. by rewrite Ec.
  - change (Py.rstrip (String c (String a s0)))
      with (match Py.rstrip (String a s0) with
            | "" => if Py.is_space c then "" else String c ""
            | r => String c r
            end).
    by rewrite IH.
Qed.

Lemma lstrip_all_space s :
  Re.all_chars Py.is_space (Py.lstrip s) = Re.all_chars Py.is_space s.
Proof.
  induction s as [|c s IH]; [done|]. simpl.
  destruct (Py.is_space c) eqn:E; [by rewrite all_chars_cons, E|done].
Qed.

Lemma strip_empty_iff s :
  Py.strip s = "" <-> Re.all_chars Py.is_space s = true.
Proof. unfold Py.strip. by rewrite rstrip_empty_iff, lstrip_all_space. Qed.

Lemma strip_rstrip s : Py.rstrip (Py.strip s) = Py.strip s.
Proof. apply rstrip_idemp. Qed.

Lemma last_occurrence c s :
  Py.contains c s = true ->
  exists a r, s = a +:+ String c r /\ Py.contains c r = false.
Proof.
  induction s as [|d s IH]; [done|]. simpl.
  destruct (Py.contains c s) eqn:E.
  - intros _. destruct (IH eq_refl) as (a & r & -> & Hr). by exists (String d a), r.
  - rewrite orb_false_r. intros ->%Ascii.eqb_eq. by exists "", s.
Qed.

Lemma append_eq_nil_r a b : a +:+ b = a -> b = "".
Proof.
  induction a as [|c a IH]; [done|]. rewrite append_cons. intros [= H]. auto.
Qed.

(** X7.  What the shape of the data decides: [fix] is set exactly when
    the trimmed data holds no comma, and the reason is empty exactly
    when it holds no comma or ends in one; text after the last comma
    always gives a non-empty reason. *)
Theorem parse_entry_reason_empty (ignore_words : gset string)
    (line key dat : string) :
  Py.split_arrow line = [key; dat] ->
  Py.lower key ∉ ignore_words ->
  let d := Py.strip (Py.lower dat) in
  exists m,
    parse_entry ignore_words line = Ok (Some (Py.lower key, m)) /\
    (fix_ m = true <-> Py.contains "," d = false) /\
    (reason m = "" <-> Py.contains "," d = false \/ exists c, d = c +:+ ",").
Proof.
  intros Hsplit Hkey d. unfold parse_entry. rewrite Hsplit.
  rewrite decide_False by done. fold d.
  destruct (Py.contains "," d) eqn:Hc.
  - destruct (last_occurrence _ _ Hc) as (a & r & Hd & Hr).
    pose proof (rfind_char_last "," a r Hr) as Hfind. rewrite <- Hd in Hfind.
    change (Z.of_nat (String.length a)) with (Py.len a) in Hfind.
    assert (Py.len d = Py.len a + 1 + Py.len r) as Hlen.
    { rewrite Hd, length_append_Z. unfold Py.len. simpl. lia. }
    rewrite Hfind.
    destruct (Z.ltb_spec (Py.len a) 0) as [E1|E1]; [unfold Py.len in E1; lia|].
    destruct (Z.eqb_spec (Py.len a) (Py.len d - 1)) as [E2|E2].
    + eexists. split; [done|]. simpl. split; [done|]. split; [|done].
      intros _. right. exists a. destruct r; [done|].
      unfold Py.len in *. simpl in *. lia.
    + eexists. split; [done|]. simpl. split; [done|].
      assert (r <> "") as Hne.
      { intros ->. unfold Py.len in *. simpl in *. lia. }
      split.
      * intros Hreason. exfalso.
        rewrite Hd in Hreason. rewrite slice_from_append_succ in Hreason.
        apply strip_empty_iff, rstrip_empty_iff in Hreason.
        pose proof (strip_rstrip (Py.lower dat)) as Hrs. fold d in Hrs.
        rewrite Hd in Hrs.
        change (a +:+ String "," r) with (a +:+ "," +:+ r) in Hrs.
        rewrite <- append_assoc in Hrs. rewrite rstrip_app, Hreason in Hrs.
        rewrite rstrip_app in Hrs. simpl in Hrs.
        rewrite append_assoc in Hrs. apply Hne.
        apply (append_eq_nil_r (a +:+ ",")). by rewrite append_assoc.
      * intros [?|[c Hdc]]; [done|]. exfalso.
        assert (Py.rfind_char "," d = Py.len c) as Hf2
          by (rewrite Hdc; by apply rfind_char_last).
        assert (Py.len d = Py.len c + 1)
          by (rewrite Hdc, length_append_Z; unfold Py.len; simpl; lia).
        lia.
  - rewrite (rfind_char_absent _ _ Hc). simpl.
    eexists. split; [done|]. simpl. split; [done|]. split; auto.
Qed.

Lemma parse_entry_reason_empty_witness :
  exists m,
    parse_entry ∅ "teh->the, ten," = Ok (Some (Py.lower "teh", m)) /\
    (fix_ m = true <-> Py.contains "," (Py.strip (Py.lower "the, ten,")) = false) /\
    (reason m = "" <->
       Py.contains "," (Py.strip (Py.lower "the, ten,")) = false \/
       exists c, Py.strip (Py.lower "the, ten,") = c +:+ ",").
Proof.
  apply (parse_entry_reason_empty ∅ "teh->the, ten," "teh" "the, ten,").
  - reflexivity.
  - apply not_elem_of_empty.
Defined.

(** ** The case-shape resolver: what it leaves alone *)

Lemma upper_char_lower c : Py.is_lower c = true -> Py.upper_char c <> c.
Proof. destruct c as [[] [] [] [] [] [] [] []]; (discriminate || by intros _). Qed.

(** X8.  A word that starts with one of the ASCII letters [a] to [z]
    is neither its own capitalization nor its own upper-case form,
    whatever follows the letter: it gets the stored correction
    unchanged.  (The letters outside ASCII are outside the model; among
    them are lower-case letters without an upper-case form, for which
    this does not hold.) *)
Theorem fix_case_lowercase_initial (c : ascii) (rest fixword : string) :
  Py.is_lower c = true ->
  fix_case (String c rest) fixword = fixword.
Proof.
  intros Hc. unfold fix_case. pose proof (upper_char_lower c Hc) as Hne.
  rewrite decide_False; [rewrite decide_False; [done|]|].
  - unfold Py.upper. simpl. intros [= H _]. by apply Hne.
  - simpl. intros [= H _]. by apply Hne.
Qed.

Lemma fix_case_lowercase_initial_witness : fix_case "tEH" "the, ten" = "the, ten".
Proof. apply (fix_case_lowercase_initial "t" "EH" "the, ten"). reflexivity. Defined.

(** ** The interactive resolver: confirm mode and what a call leaves *)

Lemma confirm_loop_unfold prompt inp out :
  confirm_loop prompt inp out =
    let out := out ++ [prompt] in
    match inp with
    | [] => ("Y", [], out)
    | l :: inp' =>
        let r := Py.upper (Py.strip l) in
        let r := if Py.truthy r then r else "Y" in
        if decide (r = "Y" \/ r = "N") then (r, inp', out)
        else confirm_loop prompt inp' (out ++ ["Say 'y' or 'n'" +:+ NL])
    end.
Proof. by destruct inp. Qed.

(** X9.  With bit 1 of the interactivity set, an entry whose [fix] is
    set is put to the user: the end of the input, a blank line and [y]
    (in either case, with white space around) keep the entry and the
    decision to fix; [n] clears [fix] in the entry, for the rest of the
    run, and leaves its correction and its reason; any other line is
    answered with a notice and the question is asked again. *)
Theorem confirm_mode (line : string) (mt : Match) (m : Misspelling)
    (interactivity : Z) (colors : TermColors) (inp out err : list string) :
  0 < interactivity ->
  Py.has_bit interactivity 1 = true ->
  fix_ m = true ->
  let ask inp out :=
    ask_for_word_fix line mt m interactivity colors (mkConsole inp out err) in
  let word := m_group mt in
  let prompt :=
    line_ui_of line mt colors +:+ TAB +:+ word +:+ " ==> " +:+
    fix_case word (data m) +:+ " (Y/n) " in
  let kept rest :=
    (true, fix_case word (data m), m, mkConsole rest (out ++ [prompt]) err) in
  (inp = [] -> ask inp out = kept []) /\
  (forall l rest, inp = l :: rest ->
     Py.upper (Py.strip l) = "" \/ Py.upper (Py.strip l) = "Y" ->
     ask inp out = kept rest) /\
  (forall l rest, inp = l :: rest -> Py.upper (Py.strip l) = "N" ->
     ask inp out =
       (false, fix_case word (data m), mkMisspelling (data m) false (reason m),
        mkConsole rest (out ++ [prompt]) err)) /\
  (forall l rest, inp = l :: rest ->
     Py.upper (Py.strip l) <> "" -> Py.upper (Py.strip l) <> "Y" ->
     Py.upper (Py.strip l) <> "N" ->
     ask inp out = ask rest (out ++ [prompt; "Say 'y' or 'n'" +:+ NL])).
Proof.
  intros Hpos Hb1 Hfix ask word prompt kept.
  assert (forall inp out,
    ask inp out =
      let '(r, inp', out') := confirm_loop prompt inp out in
      let m' := if decide (r = "N")
                then mkMisspelling (data m) false (reason m) else m in
      (fix_ m', fix_case word (data m'), m', mkConsole inp' out' err)) as Hask.
  { intros inp0 out0. unfold ask, ask_for_word_fix.
    destruct (Z.leb_spec interactivity 0); [lia|].
    rewrite Hfix, Hb1. simpl. fold word. fold prompt.
    destruct (confirm_loop _ _ _) as [[r inp'] out'].
    by destruct (decide (r = "N")). }
  split; [|split; [|split]].
  - intros ->. rewrite Hask. simpl. by rewrite Hfix.
  - intros l rest -> Hl. rewrite Hask, confirm_loop_unfold. cbv zeta.
    destruct Hl as [-> | ->]; simpl; by rewrite Hfix.
  - intros l rest -> Hl. rewrite Hask, confirm_loop_unfold. cbv zeta.
    rewrite Hl. done.
  - intros l rest -> H0 HY HN. rewrite !Hask.
    rewrite (confirm_loop_unfold _ (l :: rest)). cbv zeta.
    rewrite (truthy_true _ H0).
    rewrite decide_False by (by intros [|]).
    by rewrite <- app_assoc.
Qed.

Lemma confirm_mode_witness :
  ask_for_word_fix "teh" (mkMatch 0 3 "teh") (mkMisspelling "the" true "") 1
    TermColors_disabled (mkConsole [" n " +:+ NL] [] [])
  = (false, "the", mkMisspelling "the" false "",
     mkConsole [] ["teh" +:+ TAB +:+ "teh ==> the (Y/n) "] []).
Proof.
  refine (proj1 (proj2 (proj2 (confirm_mode "teh" (mkMatch 0 3 "teh")
    (mkMisspelling "the" true "") 1 TermColors_disabled [" n " +:+ NL] [] []
    _ _ _))) (" n " +:+ NL) [] _ _); (reflexivity || lia).
Defined.

Lemma confirm_loop_frame prompt inp out :
  let r := confirm_loop prompt inp out in
  r.1.2 `suffix_of` inp /\ out `prefix_of` r.2.
Proof.
  revert out. induction inp as [|l inp IH]; intros out; simpl.
  - split; [done|]. by apply prefix_app_r.
  - destruct (decide _).
    + simpl. split; [by apply suffix_cons_r|by apply prefix_app_r].
    + destruct (IH ((out ++ [prompt]) ++ ["Say 'y' or 'n'" +:+ NL])) as [H1 H2].
      split; [by apply suffix_cons_r|].
      etrans; [|exact H2]. rewrite <- app_assoc. by apply prefix_app_r.
Qed.

Lemma choose_loop_frame line_ui wrongword opt inp out :
  let r := choose_loop line_ui wrongword opt inp out in
  r.1.2 `suffix_of` inp /\ out `prefix_of` r.2.
Proof.
  revert out. induction inp as [|l inp IH]; intros out.
  - rewrite choose_loop_unfold. simpl. split; [done|]. by apply prefix_app_r.
  - rewrite choose_loop_unfold. cbv zeta.
    destruct (negb (Py.truthy (Py.strip l))).
    { simpl. split; [by apply suffix_cons_r|by apply prefix_app_r]. }
    destruct (Py.int (Py.strip l) ≫= Py.index opt) as [r|].
    + destruct (Py.truthy r).
      { simpl. split; [by apply suffix_cons_r|by apply prefix_app_r]. }
      destruct (IH (out ++ choose_prompt line_ui wrongword opt)) as [H1 H2].
      split; [by apply suffix_cons_r|].
      etrans; [|exact H2]. by apply prefix_app_r.
    + destruct (IH ((out ++ choose_prompt line_ui wrongword opt)
                      ++ ["Not a valid option" +:+ NL +:+ NL])) as [H1 H2].
      split; [by apply suffix_cons_r|].
      etrans; [|exact H2]. rewrite <- app_assoc. by apply prefix_app_r.
Qed.

(** X10.  A call of [ask_for_word_fix] only reads and prints: what is
    left of the input is the end of the input it found, what it printed
    comes after what was printed before, nothing goes to standard
    error, and the reason of the entry is never changed. *)
Theorem ask_for_word_fix_frame (line : string) (mt : Match) (m : Misspelling)
    (interactivity : Z) (colors : TermColors) (io : Console) :
  let r := ask_for_word_fix line mt m interactivity colors io in
  stdin r.2 `suffix_of` stdin io /\
  stdout io `prefix_of` stdout r.2 /\
  stderr r.2 = stderr io /\
  reason r.1.2 = reason m.
Proof.
  unfold ask_for_word_fix.
  destruct (interactivity <=? 0); [done|].
  destruct (fix_ m && Py.has_bit interactivity 1).
  - pose proof (confirm_loop_frame
      (line_ui_of line mt colors +:+ TAB +:+ m_group mt +:+ " ==> " +:+
       fix_case (m_group mt) (data m) +:+ " (Y/n) ") (stdin io) (stdout io)) as H.
    destruct (confirm_loop _ _ _) as [[r inp] out].
    simpl in H. destruct H as [H1 H2].
    by destruct (decide (r = "N")).
  - destruct (Py.has_bit interactivity 2 && negb (Py.truthy (reason m))); [|done].
    pose proof (choose_loop_frame (line_ui_of line mt colors) (m_group mt)
      (map Py.strip (Py.split_char "," (data m))) (stdin io) (stdout io)) as H.
    destruct (choose_loop _ _ _ _ _) as [[r inp] out].
    simpl in H. destruct H as [H1 H2].
    by destruct (Py.truthy r).
Qed.

(** X11.  An entry with a reason is never put to the user: whatever the
    interactivity, the call returns the decision not to fix with the
    case-adjusted correction and leaves the entry and the console as
    they were. *)
Theorem ask_for_word_fix_disabled (line : string) (mt : Match) (m : Misspelling)
    (interactivity : Z) (colors : TermColors) (io : Console) :
  entry_ok m ->
  reason m <> "" ->
  ask_for_word_fix line mt m interactivity colors io
    = (false, fix_case (m_group mt) (data m), m, io).
Proof.
  intros Hok Hr. pose proof (Hok Hr) as Hfix. unfold ask_for_word_fix.
  rewrite Hfix, (truthy_true _ Hr), andb_false_r. simpl.
  rewrite Hfix. by destruct (interactivity <=? 0).
Qed.

Lemma ask_for_word_fix_disabled_witness :
  ask_for_word_fix "abd" (mkMatch 0 3 "abd") (mkMisspelling "and" false "why") 3
    TermColors_disabled (mkConsole ["1" +:+ NL] [] [])
  = (false, "and", mkMisspelling "and" false "why", mkConsole ["1" +:+ NL] [] []).
Proof.
  apply (ask_for_word_fix_disabled "abd" (mkMatch 0 3 "abd")
           (mkMisspelling "and" false "why") 3 TermColors_disabled).
  - intros _. reflexivity.
  - discriminate.
Defined.

(** ** The extractor: what is struck and what stays *)

Lemma first_match_cases uri_word check_matches :
  Forall (fun x => m_group x <> uri_word) check_matches \/
  exists before mt after,
    check_matches = before ++ mt :: after /\
    Forall (fun x => m_group x <> uri_word) before /\ m_group mt = uri_word.
Proof.
  induction check_matches as [|x l IH]; [by left|].
  destruct (decide (m_group x = uri_word)) as [Hx|Hx].
  - right. by exists [], x, l.
  - destruct IH as [IH|(before & mt & after & -> & Hb & Hm)].
    + left. by constructor.
    + right. exists (x :: before), mt, after. split; [done|]. split; [|done].
      by constructor.
Qed.

Lemma ignore_uri_word_keeps uri_ignore_words check_matches uri_word :
  let result := ignore_uri_word uri_ignore_words check_matches uri_word in
  result `sublist_of` check_matches /\
  filter (fun mt => m_group mt ∉ uri_ignore_words) result
    = filter (fun mt => m_group mt ∉ uri_ignore_words) check_matches.
Proof.
  unfold ignore_uri_word. destruct (decide (uri_word ∈ uri_ignore_words)) as [Hw|]; [|done].
  destruct (first_match_cases uri_word check_matches)
    as [Hall|(before & mt & after & -> & Hb & Hm)].
  - by rewrite remove_first_miss.
  - rewrite remove_first_hit by done. split.
    + apply sublist_app; [done|]. by apply sublist_cons.
    + rewrite !filter_app, filter_cons_False; [done|].
      intros Hn. apply Hn. by rewrite Hm.
Qed.

(** X12.  [apply_uri_ignore_words] only strikes matches: what it
    returns is the list it was given with some matches left out, in the
    same order, and every match whose literal is not a URI ignore word
    is still there. *)
Theorem apply_uri_ignore_words_keeps (check_matches : list Match) (line : string)
    (word_regex : Pattern) (ignore_word_regex : option Pattern)
    (uri_regex : Pattern) (uri_ignore_words : gset string) :
  let result :=
    apply_uri_ignore_words check_matches line word_regex ignore_word_regex
      uri_regex uri_ignore_words in
  result `sublist_of` check_matches /\
  filter (fun mt => m_group mt ∉ uri_ignore_words) result
    = filter (fun mt => m_group mt ∉ uri_ignore_words) check_matches.
Proof.
  cbv zeta. rewrite apply_uri_ignore_words_fold.
  generalize (uri_words line word_regex ignore_word_regex uri_regex).
  intros ws. revert check_matches.
  induction ws as [|w ws IH]; intros cm; simpl; [done|].
  destruct (IH (ignore_uri_word uri_ignore_words cm w)) as [H1 H2].
  destruct (ignore_uri_word_keeps uri_ignore_words cm w) as [H3 H4].
  cbv zeta in *. split; [by etrans|congruence].
Qed.


(** Write mode substitutes between the stretches of the line that the
    literal joins. *)
Lemma sub_whole_word_join word fixword text new_text :
  sub_whole_word word fixword text = Some new_text ->
  exists stretches template,
    stretches <> [] /\
    Re.parse_template None fixword = Some template /\
    text = Py.join word stretches /\
    new_text = Py.join (Re.expand template word) stretches.
Proof.
  intros (t & Ht & ->)%sub_whole_word_some.
  exists (outside text 0 (spans (whole_word word) text)), t.
  split; [apply outside_not_nil|]. split; [done|]. split; [|done].
  symmetry. apply (join_outside word text 0 (String.length text)).
  - apply compile_spans_chained.
  - apply whole_word_spans.
Qed.

Lemma special_backslash w :
  Re.all_chars (fun c => negb (Re.special c)) w = true -> Re.has_backslash w = false.
Proof.
  unfold Re.has_backslash. induction w as [|c w IH]; [done|].
  rewrite all_chars_cons. intros [Hc Hw]%andb_true_iff.
  cbn [list_ascii_of_string existsb]. rewrite (IH Hw), orb_false_r.
  apply Ascii.eqb_neq. intros <-. vm_compute in Hc. discriminate.
Qed.

(** X13.  The substitution of write mode puts the correction where the
    literal stands and keeps the rest: the line is a list of stretches
    joined by the literal, and the new line is the same stretches
    joined by the expansion of the correction as a replacement
    template: the correction itself when it holds no backslash, and
    with a line break for [\n] in it. *)
Theorem sub_whole_word_stretches (word fixword text new_text : string) :
  sub_whole_word word fixword text = Some new_text ->
  exists stretches template,
    stretches <> [] /\
    Re.parse_template None fixword = Some template /\
    text = Py.join word stretches /\
    new_text = Py.join (Re.expand template word) stretches /\
    (Re.has_backslash fixword = false -> Re.expand template word = fixword) /\
    (forall a b, fixword = a +:+ "\n" +:+ b ->
       Re.has_backslash a = false -> Re.has_backslash b = false ->
       Re.expand template word = a +:+ NL +:+ b).
Proof.
  intros (stretches & t & Hne & Ht & Htext & Hnew)%sub_whole_word_join.
  exists stretches, t. do 4 (split; [done|]). split.
  - intros (t' & Ht' & Hexp)%parse_template_plain.
    rewrite Ht in Ht'. injection Ht' as <-. apply Hexp.
  - intros a b -> Ha Hb.
    destruct (parse_template_plain b Hb) as (tb & Htb & Hexpb).
    change ("\n" +:+ b) with (String "\" (String "n" b)) in *.
    clear Hnew Htext. revert t Ht.
    unfold Re.has_backslash in Ha.
    induction a as [|c a IH]; intros t Ht.
    + rewrite append_nil_l in Ht. cbn -[Ascii.eqb] in Ht. rewrite Htb in Ht.
      injection Ht as <-. rewrite append_nil_l. cbn [Re.expand].
      by rewrite Hexpb.
    + cbn [list_ascii_of_string existsb] in Ha.
      apply orb_false_iff in Ha as [Hc Ha].
      rewrite append_cons in Ht. cbn -[Ascii.eqb] in Ht.
      rewrite Ascii.eqb_sym, Hc in Ht. cbn -[Ascii.eqb] in Ht.
      destruct (Re.parse_template None (a +:+ String "\" (String "n" b)))
        as [t0|] eqn:E; [|done].
      injection Ht as <-. rewrite append_cons. cbn [Re.expand].
      f_equal. by apply (IH Ha t0).
Qed.

Lemma sub_whole_word_stretches_witness :
  exists stretches template,
    stretches <> [] /\
    Re.parse_template None "a\nb" = Some template /\
    "teh, teh." = Py.join "teh" stretches /\
    "a" +:+ NL +:+ "b, a" +:+ NL +:+ "b." = Py.join (Re.expand template "teh") stretches /\
    (Re.has_backslash "a\nb" = false -> Re.expand template "teh" = "a\nb") /\
    (forall a b, "a\nb" = a +:+ "\n" +:+ b ->
       Re.has_backslash a = false -> Re.has_backslash b = false ->
       Re.expand template "teh" = a +:+ NL +:+ b).
Proof.
  apply (sub_whole_word_stretches "teh" "a\nb" "teh, teh."
           ("a" +:+ NL +:+ "b, a" +:+ NL +:+ "b.")).
  vm_compute. reflexivity.
Defined.

Lemma join_substring w x y l : substring_of w (Py.join w (x :: y :: l)).
Proof. rewrite join_cons. by exists x, (Py.join w (y :: l)). Qed.

(** X14.  A line in which the literal does not occur is left as it is
    by the substitution of write mode, and so is any line when the
    correction is the literal itself. *)
Theorem sub_whole_word_unchanged (word fixword text new_line : string) :
  sub_whole_word word fixword text = Some new_line ->
  ~ substring_of word text \/ fixword = word ->
  new_line = text.
Proof.
  intros Hsub.
  destruct (sub_whole_word_join _ _ _ _ Hsub) as (stretches & t & Hne & Ht & -> & ->).
  intros [Habs| ->].
  - destruct stretches as [|x [|y l]]; [done|done|].
    exfalso. apply Habs. apply join_substring.
  - unfold sub_whole_word in Hsub.
    destruct (Re.all_chars _ word) eqn:Hw; [|done].
    destruct (parse_template_plain word (special_backslash _ Hw)) as (t' & Ht' & Hexp).
    rewrite Ht in Ht'. injection Ht' as <-. by rewrite Hexp.
Qed.

Lemma sub_whole_word_unchanged_witness :
  sub_whole_word "teh" "teh" "a teh b" = Some "a teh b" /\ "a teh b" = "a teh b".
Proof.
  split; [vm_compute; reflexivity|].
  apply (sub_whole_word_unchanged "teh" "teh" "a teh b" "a teh b").
  - vm_compute. reflexivity.
  - by right.
Defined.

Lemma match_at_many1_run p c must_advance e :
  Re.match_at (Re.Many1 p) c must_advance = Some e ->
  Py.slice_to (e - Re.pos c) (Re.rest c) <> "" /\
  Re.all_chars p (Py.slice_to (e - Re.pos c) (Re.rest c)) = true.
Proof.
  intros H. split; [|by apply match_at_many1 in H as [_ ?]].
  unfold Re.match_at in H. simpl in H. destruct (Re.rest c) as [|a s]; [done|].
  destruct (p a); [|done].
  apply many_end in H as (j & bef' & _ & Hk). simpl in Hk.
  destruct (must_advance && _); [done|]. injection Hk as <-.
  by replace (S (Re.pos c + j) - Re.pos c)%nat with (S j) by lia.
Qed.

(** X15.  The words the built-in word pattern yields are never empty
    and hold nothing but word characters, hyphens, apostrophes and
    backticks, whatever the text and the ignore pattern. *)
Theorem extract_words_word_chars (text : string) (ignore_word_regex : option Pattern)
    (word : string) :
  word ∈ extract_words text word_pattern ignore_word_regex ->
  word <> "" /\ Re.all_chars word_char word = true.
Proof.
  unfold extract_words, Re.findall, Re.finditer.
  generalize (_ignore_word_sub text ignore_word_regex). intros t.
  rewrite map_map. intros H%list_elem_of_In.
  apply in_map_iff in H as ([b e] & <- & H%list_elem_of_In). simpl in H.
  apply (scan_groups _ (fun len rest =>
           Py.slice_to len rest <> "" /\
           Re.all_chars word_char (Py.slice_to len rest) = true))
    in H as [_ H].
  - by rewrite Nat.sub_0_r in H.
  - intros c ma e0. apply match_at_many1_run.
Qed.

Lemma extract_words_word_chars_witness :
  "don't" <> "" /\ Re.all_chars word_char "don't" = true.
Proof.
  apply (extract_words_word_chars "I don't know" None "don't").
  assert (extract_words "I don't know" word_pattern None = ["I"; "don't"; "know"])
    as -> by (vm_compute; reflexivity).
  apply elem_of_cons. right. apply elem_of_cons. by left.
Defined.

(** ** The scanner: what a call leaves alone *)

Section ScannerFrames.

Variable filename : string.
Variable colors : TermColors.
Variable exclude_lines : gset string.
Variable word_regex : Pattern.
Variable ignore_word_regex : option Pattern.
Variable uri_regex : Pattern.
Variable uri_ignore_words : gset string.
Variable context : option (Z * Z).
Variable options : Options.

Local Abbreviation resolve' := (resolve colors context options).
Local Abbreviation scan_match' := (scan_match filename colors context options).
Local Abbreviation scan_matches' := (scan_matches filename colors context options).
Local Abbreviation scan_line' :=
  (scan_line filename colors exclude_lines word_regex ignore_word_regex
     uri_regex uri_ignore_words context options).
Local Abbreviation scan_lines' :=
  (scan_lines filename colors exclude_lines word_regex ignore_word_regex
     uri_regex uri_ignore_words context options).
Local Abbreviation load' :=
  (load filename colors word_regex ignore_word_regex options).
Local Abbreviation parse_file' :=
  (parse_file filename colors exclude_lines word_regex ignore_word_regex
     uri_regex uri_ignore_words context options).
Local Abbreviation candidates' :=
  (candidates word_regex ignore_word_regex uri_regex uri_ignore_words).

(** What a call of [parse_file] returns, in terms of the loop over the
    lines *)
Lemma parse_file_cases ss n ss' :
  parse_file' ss = Some (n, ss') ->
  load' ss = Return n ss' \/
  exists lines0 encoding st0 st_end,
    load' ss = Lines lines0 encoding st0 /\
    scan_lines' 0 lines0 st0 = Some st_end /\
    finish filename colors options encoding (disk ss) st_end = (n, ss').
Proof.
  unfold parse_file.
  destruct (load' ss) as [n0 ss0|lines0 encoding st0]; [intros [= <- <-]; by left|].
  destruct (scan_lines' 0 lines0 st0) as [st_end|] eqn:E; [|done].
  simpl. intros [= Hfin]. right. by exists lines0, encoding, st0, st_end.
Qed.

Lemma all_declined_matches_write_off check_matches i line st :
  write_changes options = false ->
  all_declined_matches filename colors context options i line st check_matches = true.
Proof.
  intros Hw. revert st. induction check_matches as [|mt rest IH]; intros st; simpl; [done|].
  pose proof (affirmative_write_off colors context options i st mt Hw) as Ha.
  rewrite Ha. simpl.
  destruct (scan_match_declined filename colors context options i line st mt Ha)
    as (st' & -> & _). apply IH.
Qed.

Lemma all_declined_lines_write_off rest i st :
  write_changes options = false ->
  all_declined_lines filename colors exclude_lines word_regex ignore_word_regex
    uri_regex uri_ignore_words context options i rest st = true.
Proof.
  intros Hw. revert i st. induction rest as [|line rest IH]; intros i st; simpl; [done|].
  rewrite all_declined_matches_write_off, orb_true_r by done. simpl.
  unfold scan_line. destruct (decide (line ∈ exclude_lines)); [apply IH|].
  destruct (scan_matches_declined filename colors context options
              (candidates' line) i (scanned_text uri_regex uri_ignore_words line)
              (new_line st)
              (all_declined_matches_write_off _ _ _ _ Hw)) as (st' & -> & _).
  apply IH.
Qed.

(** X16.  Without write mode [parse_file] always returns, and it leaves
    every file on disk as it was. *)
Theorem report_only_leaves_disk (ss : Session) :
  write_changes options = false ->
  exists n ss', parse_file' ss = Some (n, ss') /\ disk ss' = disk ss.
Proof.
  intros Hw. unfold parse_file.
  destruct (load' ss) as [n0 ss0|lines0 encoding st0] eqn:Hload.
  - exists n0, ss0. split; [done|]. by apply load_return in Hload as [_ ?].
  - destruct (scan_lines_declined filename colors exclude_lines word_regex
                ignore_word_regex uri_regex uri_ignore_words context options
                lines0 0 st0 (all_declined_lines_write_off _ _ _ Hw))
      as (st' & -> & Hc).
    simpl. apply load_lines in Hload as (_ & _ & Hch & _).
    destruct (finish_fields filename colors options encoding (disk ss) st')
      as (_ & _ & Hd).
    destruct (finish _ _ _ _ _ _) as [n ss']. exists n, ss'. split; [done|].
    apply Hd. congruence.
Qed.

(** X17.  A call of [parse_file] touches no file but its own, and never
    the disk for the standard-input pseudo file; the file it writes
    back is a text file it has read, and it is written in the encoding
    it was read in. *)
Theorem parse_file_disk_frame (ss : Session) (n : Z) (ss' : Session) :
  parse_file' ss = Some (n, ss') ->
  (forall other, other <> filename -> disk ss' !! other = disk ss !! other) /\
  (filename = "-" -> disk ss' = disk ss) /\
  (disk ss' !! filename = disk ss !! filename \/
   exists lines0 lines1 encoding,
     disk ss !! filename = Some (Text lines0 encoding) /\
     disk ss' !! filename = Some (Text lines1 encoding)).
Proof.
  intros [Hret|(lines0 & encoding & st0 & st_end & Hload & Hscan & Hfin)]%parse_file_cases.
  - apply load_return in Hret as [_ ->]. auto.
  - apply load_lines in Hload as (_ & Hl0 & _ & _ & Hdisk).
    unfold finish in Hfin. destruct (changed st_end).
    + destruct (decide (filename = "-")) as [Hf|Hf]; injection Hfin as <- <-; simpl.
      * auto.
      * split; [intros other Ho; by rewrite lookup_insert_ne|].
        split; [done|]. right. exists lines0, (lines st_end), encoding.
        by rewrite lookup_insert_eq, Hdisk.
    + injection Hfin as <- <-. simpl. auto.
Qed.

Lemma print_context_console lines0 index ctx io0 :
  stdin (print_context lines0 index ctx io0) = stdin io0 /\
  stderr (print_context lines0 index ctx io0) = stderr io0.
Proof.
  unfold print_context. generalize (range (Z.of_nat index - ctx.1)
                                      (Z.of_nat index + ctx.2 + 1)).
  intros l. revert io0. induction l as [|i l IH]; intros io0; simpl; [done|].
  destruct (IH (if (0 <=? i) && (i <? Z.of_nat (length lines0))
                then println ((if i =? Z.of_nat index then ">" else ":") +:+ " " +:+
                              Py.rstrip (lines0 !!! Z.to_nat i)) io0
                else io0)) as [-> ->].
  by destruct (_ && _).
Qed.

(** The step without interactivity: the dictionary and the input stay. *)
Lemma scan_match_non_interactive i line st mt st' :
  interactive options = 0 ->
  scan_match' i line st mt = Some st' ->
  s_misspellings st' = s_misspellings st /\ stdin (s_io st') = stdin (s_io st).
Proof.
  intros Hi.
  destruct (s_misspellings st !! Py.lower (m_group mt)) as [entry|] eqn:Hl.
  - destruct (resolve' i mt entry st) as [[[[cs fx] fw] e'] st1] eqn:Hres.
    rewrite (scan_match_resolved _ _ _ _ i line _ _ _ _ _ _ _ _ Hl Hres).
    unfold resolve in Hres. rewrite Hi in Hres. simpl in Hres.
    injection Hres as <- <- <- <- <-.
    destruct (update_summary_fields (fix_ entry) (Py.lower (m_group mt)) st)
      as (Hm & Hio & _).
    cbv zeta in *. intros H.
    repeat case_match; simplify_option_eq; simpl; rewrite ?Hm, ?Hio; try done.
    all: unfold report_finding; simpl; rewrite ?Hio;
      destruct context as [ctx|]; simpl;
      try (destruct (print_context_console (lines (update_summary (fix_ entry)
             (Py.lower (m_group mt)) st)) i ctx (s_io st)) as [-> _]);
      by repeat case_match.
  - rewrite scan_match_absent by done. by intros [= <-].
Qed.

Lemma check_filename_stdin ws st :
  stdin (s_io (fold_left (check_filename_word filename colors options) ws st))
  = stdin (s_io st).
Proof.
  revert st. induction ws as [|w ws IH]; intros st; simpl; [done|].
  rewrite IH. unfold check_filename_word.
  destruct (s_misspellings st !! Py.lower w) as [entry|]; [|done].
  destruct (update_summary_fields (fix_ entry) (Py.lower w) st)
    as (_ & Hio & _). cbv zeta in Hio.
  repeat case_match; simpl; by rewrite ?Hio.
Qed.

(** For a file, [load] reads nothing from standard input. *)
Lemma load_stdin ss :
  filename <> "-" ->
  match load' ss with
  | Return _ ss' => stdin (io ss') = stdin (io ss)
  | Lines _ _ st => stdin (s_io st) = stdin (io ss)
  end.
Proof.
  intros Hf. unfold load. rewrite decide_False by done.
  set (st0 := if check_filenames options then _ else _).
  assert (stdin (s_io st0) = stdin (io ss)) as Hst0.
  { unfold st0. destruct (check_filenames options); [|done].
    by rewrite check_filename_stdin. }
  destruct (disk ss !! filename) as [[]|]; simpl; try done.
  by destruct (Py.has_bit _ _).
Qed.

Lemma finish_stdin encoding dsk st :
  filename <> "-" ->
  stdin (io (finish filename colors options encoding dsk st).2) = stdin (s_io st).
Proof.
  intros Hf. unfold finish. destruct (changed st); [|done].
  rewrite decide_False by done. simpl. by destruct (Py.has_bit _ _).
Qed.

(** X18.  Without interactivity a call of [parse_file] leaves the
    dictionary as it was, and for a file it reads nothing from standard
    input. *)
Theorem non_interactive_leaves_dictionary (ss : Session) (n : Z) (ss' : Session) :
  interactive options = 0 ->
  parse_file' ss = Some (n, ss') ->
  misspellings ss' = misspellings ss /\
  (filename <> "-" -> stdin (io ss') = stdin (io ss)).
Proof.
  intros Hi [Hret|(lines0 & encoding & st0 & st_end & Hload & Hscan & Hfin)]%parse_file_cases.
  - split; [by apply load_return in Hret as [-> _]|].
    intros Hf. pose proof (load_stdin ss Hf) as H. by rewrite Hret in H.
  - assert (s_misspellings st_end = s_misspellings st0 /\
            stdin (s_io st_end) = stdin (s_io st0)) as [Hm Hin].
    { eapply (scan_lines_invariant filename colors exclude_lines word_regex
                ignore_word_regex uri_regex uri_ignore_words context options
                (fun s => s_misspellings s = s_misspellings st0 /\
                          stdin (s_io s) = stdin (s_io st0)));
        [done| |done|exact Hscan].
      intros ????? [HP1 HP2] [Hs1 Hs2]%scan_match_non_interactive; [|done].
      split; congruence. }
    destruct (finish_fields filename colors options encoding (disk ss) st_end)
      as (_ & Hfm & _). rewrite Hfin in Hfm. simpl in Hfm.
    split.
    + apply load_lines in Hload as (Hm0 & _). congruence.
    + intros Hf. pose proof (finish_stdin encoding (disk ss) st_end Hf) as H1.
      rewrite Hfin in H1. simpl in H1.
      pose proof (load_stdin ss Hf) as H2. rewrite Hload in H2. congruence.
Qed.

(** X19.  A path that is not a readable text file is skipped: without
    the check of file names, [parse_file] returns zero for it and
    leaves the dictionary, the summary, the disk, the input and the
    standard output as they were; unless it is the opening of the file
    that fails, at most one warning goes to standard error. *)
Theorem skipped_file (ss : Session) :
  check_filenames options = false ->
  filename <> "-" ->
  (forall lines0 encoding, disk ss !! filename <> Some (Text lines0 encoding)) ->
  exists io',
    parse_file' ss
      = Some (0, mkSession (misspellings ss) (summary ss) io' (disk ss)) /\
    stdin io' = stdin (io ss) /\ stdout io' = stdout (io ss) /\
    (disk ss !! filename <> Some OpenFails ->
     stderr io' = stderr (io ss) \/
     exists warning, stderr io' = stderr (io ss) ++ [warning]).
Proof.
  intros Hc Hf Hd. unfold parse_file, load.
  rewrite decide_False by done. rewrite Hc.
  destruct (disk ss !! filename) as [[]|] eqn:E; simpl;
    try (eexists; split; [reflexivity|]; simpl; by eauto 6).
  - destruct (Py.has_bit _ _); eexists; (split; [reflexivity|]); simpl; by eauto 6.
  - by destruct (Hd content encoding).
Qed.

Lemma scan_match_reasons i line st mt st' k :
  scan_match' i line st mt = Some st' ->
  reason <$> s_misspellings st' !! k = reason <$> s_misspellings st !! k.
Proof.
  unfold scan_match.
  destruct (s_misspellings st !! Py.lower (m_group mt)) as [entry|] eqn:Hl;
    [|by intros [= <-]].
  destruct (resolve' i mt entry st) as [[[[cs fx] fw] e'] st1] eqn:Hres.
  apply resolve_fields in Hres as (Hm & He & _).
  assert (reason <$> s_misspellings st1 !! k = reason <$> s_misspellings st !! k) as H1.
  { destruct Hm as [-> | ->]; [done|].
    destruct (decide (Py.lower (m_group mt) = k)) as [<-|Hne];
      [|by rewrite lookup_insert_ne].
    rewrite lookup_insert_eq, Hl. simpl. f_equal.
    destruct He as [-> | ->]; [done|].
    destruct (ask_for_word_fix_entry (lines st !!! i) mt entry (interactive options)
                colors (match context with
                        | Some ctx => print_context (lines st) i ctx (s_io st)
                        | None => s_io st
                        end)) as [-> | [-> | [Hr [r ->]]]]; done. }
  pose proof (update_summary_fields fx (Py.lower (m_group mt)) st1) as (Hu & _).
  cbv zeta in Hu. rewrite <- H1, <- Hu.
  intros H. repeat case_match; simplify_option_eq; done.
Qed.

(** X20.  A call of [parse_file] neither adds nor removes a word of the
    dictionary and never changes the reason of an entry, whatever the
    user answers. *)
Theorem parse_file_keeps_reasons (ss : Session) (n : Z) (ss' : Session) (k : string) :
  parse_file' ss = Some (n, ss') ->
  reason <$> misspellings ss' !! k = reason <$> misspellings ss !! k.
Proof.
  intros [Hret|(lines0 & encoding & st0 & st_end & Hload & Hscan & Hfin)]%parse_file_cases.
  - by apply load_return in Hret as [-> _].
  - apply load_lines in Hload as (Hm0 & _).
    destruct (finish_fields filename colors options encoding (disk ss) st_end)
      as (_ & Hfm & _). rewrite Hfin in Hfm. simpl in Hfm. rewrite Hfm, <- Hm0.
    eapply (scan_lines_invariant filename colors exclude_lines word_regex
              ignore_word_regex uri_regex uri_ignore_words context options
              (fun s => reason <$> s_misspellings s !! k
                        = reason <$> s_misspellings st0 !! k));
      [done| |done|exact Hscan].
    intros ????? HP Hs. rewrite <- HP. by eapply scan_match_reasons.
Qed.

Lemma suppressed_quiet fx r :
  Py.has_bit (quiet_level options) QuietLevels.DISABLED_FIXES = true ->
  Py.has_bit (quiet_level options) QuietLevels.NON_AUTOMATIC_FIXES = true ->
  suppressed options fx r = true.
Proof. intros H4 H8. unfold suppressed. rewrite H4, H8. by destruct (Py.truthy r). Qed.

Lemma scan_match_quiet i line st mt st' :
  Py.has_bit (quiet_level options) QuietLevels.DISABLED_FIXES = true ->
  Py.has_bit (quiet_level options) QuietLevels.NON_AUTOMATIC_FIXES = true ->
  scan_match' i line st mt = Some st' -> bad_count st' = bad_count st.
Proof.
  intros H4 H8.
  destruct (s_misspellings st !! Py.lower (m_group mt)) as [entry|] eqn:Hl.
  - destruct (resolve' i mt entry st) as [[[[cs fx] fw] e'] st1] eqn:Hres.
    rewrite (scan_match_resolved _ _ _ _ i line _ _ _ _ _ _ _ _ Hl Hres).
    rewrite suppressed_quiet by done.
    apply resolve_fields in Hres as (_ & _ & _ & _ & _ & _ & _ & Hbad & _).
    destruct (update_summary_fields fx (Py.lower (m_group mt)) st1)
      as (_ & _ & _ & _ & Hb2 & _).
    cbv zeta in *. intros H. repeat case_match; simplify_option_eq; simpl; congruence.
  - rewrite scan_match_absent by done. by intros [= <-].
Qed.

Lemma check_filename_quiet ws st :
  Py.has_bit (quiet_level options) QuietLevels.DISABLED_FIXES = true ->
  Py.has_bit (quiet_level options) QuietLevels.NON_AUTOMATIC_FIXES = true ->
  bad_count (fold_left (check_filename_word filename colors options) ws st)
  = bad_count st.
Proof.
  intros H4 H8. revert st. induction ws as [|w ws IH]; intros st; simpl; [done|].
  rewrite IH. unfold check_filename_word.
  destruct (s_misspellings st !! Py.lower w) as [entry|]; [|done].
  destruct (update_summary_fields (fix_ entry) (Py.lower w) st)
    as (_ & _ & _ & _ & Hb & _). cbv zeta in Hb.
  rewrite H4, H8. by destruct (Py.truthy (reason entry)).
Qed.

(** X21.  With both the disabled-fixes and the non-automatic-fixes
    quiet bits set, nothing is counted: [parse_file] returns zero,
    whatever the file holds. *)
Theorem quiet_counts_nothing (ss : Session) (n : Z) (ss' : Session) :
  Py.has_bit (quiet_level options) QuietLevels.DISABLED_FIXES = true ->
  Py.has_bit (quiet_level options) QuietLevels.NON_AUTOMATIC_FIXES = true ->
  parse_file' ss = Some (n, ss') ->
  n = 0.
Proof.
  intros H4 H8.
  assert (match load' ss with
          | Return n0 _ => n0 = 0
          | Lines _ _ st => bad_count st = 0
          end) as Hload0.
  { unfold load. destruct (decide (filename = "-")); [done|].
    set (st0 := if check_filenames options then _ else _).
    assert (bad_count st0 = 0) as Hst0.
    { unfold st0. destruct (check_filenames options); [|done].
      by rewrite check_filename_quiet. }
    by destruct (disk ss !! filename) as [[]|]. }
  intros [Hret|(lines0 & encoding & st0 & st_end & Hload & Hscan & Hfin)]%parse_file_cases.
  - by rewrite Hret in Hload0.
  - rewrite Hload in Hload0.
    destruct (finish_fields filename colors options encoding (disk ss) st_end)
      as (Hn & _). rewrite Hfin in Hn. simpl in Hn. rewrite Hn.
    eapply (scan_lines_invariant filename colors exclude_lines word_regex
              ignore_word_regex uri_regex uri_ignore_words context options
              (fun s => bad_count s = 0)); [done| |exact Hload0|exact Hscan].
    intros ????? HP Hs. rewrite <- HP. by eapply scan_match_quiet.
Qed.

Lemma scan_match_at_most_one i line st mt st' :
  scan_match' i line st mt = Some st' -> bad_count st' <= bad_count st + 1.
Proof.
  destruct (s_misspellings st !! Py.lower (m_group mt)) as [entry|] eqn:Hl.
  - destruct (resolve' i mt entry st) as [[[[cs fx] fw] e'] st1] eqn:Hres.
    rewrite (scan_match_resolved _ _ _ _ i line _ _ _ _ _ _ _ _ Hl Hres).
    apply resolve_fields in Hres as (_ & _ & _ & _ & _ & _ & _ & Hbad & _).
    destruct (update_summary_fields fx (Py.lower (m_group mt)) st1)
      as (_ & _ & _ & _ & Hb2 & _).
    cbv zeta in *. intros H. repeat case_match; simplify_option_eq; simpl; lia.
  - rewrite scan_match_absent by done. intros [= <-]. lia.
Qed.

Lemma scan_matches_at_most check_matches i line st st' :
  scan_matches' i line st check_matches = Some st' ->
  bad_count st' <= bad_count st + Z.of_nat (length check_matches).
Proof.
  revert st. induction check_matches as [|mt rest IH]; intros st; simpl.
  - intros [= <-]. lia.
  - destruct (scan_match' i line st mt) as [st1|] eqn:E; [|done]. simpl.
    intros H%IH. apply scan_match_at_most_one in E. lia.
Qed.

Lemma total_candidates_nonneg lines0 :
  0 <= total_candidates word_regex ignore_word_regex uri_regex uri_ignore_words lines0.
Proof. induction lines0 as [|l ls IH]; simpl; lia. Qed.

Lemma scan_lines_at_most rest i st st' :
  scan_lines' i rest st = Some st' ->
  bad_count st' <= bad_count st
    + total_candidates word_regex ignore_word_regex uri_regex uri_ignore_words rest.
Proof.
  revert i st. induction rest as [|line rest IH]; intros i st; simpl.
  - intros [= <-]. lia.
  - destruct (scan_line' i line st) as [st1|] eqn:E; [|done]. simpl.
    intros H%IH. unfold scan_line in E.
    pose proof (total_candidates_nonneg rest).
    destruct (decide (line ∈ exclude_lines)); [simplify_eq; lia|].
    apply scan_matches_at_most in E. simpl in E. lia.
Qed.

(** X22.  The count [parse_file] returns for a text file is never
    negative and, without the check of file names, never more than the
    number of candidate words of its lines. *)
Theorem count_bounds (ss : Session) (n : Z) (ss' : Session)
    (lines0 : list string) (encoding : string) :
  check_filenames options = false ->
  filename <> "-" ->
  disk ss !! filename = Some (Text lines0 encoding) ->
  parse_file' ss = Some (n, ss') ->
  0 <= n <=
    total_candidates word_regex ignore_word_regex uri_regex uri_ignore_words lines0.
Proof.
  intros Hc Hf Hd.
  intros [Hret|(l0 & enc & st0 & st_end & Hload & Hscan & Hfin)]%parse_file_cases.
  - unfold load in Hret. rewrite decide_False, Hc, Hd in Hret by done. done.
  - unfold load in Hload. rewrite decide_False, Hc, Hd in Hload by done.
    injection Hload as <- <- <-.
    destruct (finish_fields filename colors options encoding (disk ss) st_end)
      as (Hn & _). rewrite Hfin in Hn. simpl in Hn. rewrite Hn.
    pose proof (scan_lines_at_most _ _ _ _ Hscan) as Hup.
    pose proof (scan_lines_bad_count filename colors exclude_lines word_regex
                  ignore_word_regex uri_regex uri_ignore_words context options
                  _ _ _ _ Hscan) as Hlow.
    simpl in *. lia.
Qed.

Lemma scan_matches_clean check_matches i line st :
  (forall mt, mt ∈ check_matches ->
     s_misspellings st !! Py.lower (m_group mt) = None) ->
  scan_matches' i line st check_matches = Some st.
Proof.
  induction check_matches as [|mt rest IH]; intros H; simpl; [done|].
  rewrite scan_match_absent by (apply H; by left). simpl.
  apply IH. intros mt' Hin. apply H. by right.
Qed.

(** X23.  A text file none of whose candidate words is in the
    dictionary counts nothing and changes nothing: without the check of
    file names, [parse_file] returns zero and leaves the dictionary, the
    summary, the disk, the input and the standard output as they
    were. *)
Theorem clean_file (ss : Session) (lines0 : list string) (encoding : string) :
  check_filenames options = false ->
  filename <> "-" ->
  disk ss !! filename = Some (Text lines0 encoding) ->
  (forall line mt, line ∈ lines0 -> mt ∈ candidates' line ->
     misspellings ss !! Py.lower (m_group mt) = None) ->
  exists io',
    parse_file' ss
      = Some (0, mkSession (misspellings ss) (summary ss) io' (disk ss)) /\
    stdin io' = stdin (io ss) /\ stdout io' = stdout (io ss).
Proof.
  intros Hc Hf Hd Hclean. exists (io ss). split; [|done].
  unfold parse_file, load.
  rewrite decide_False, Hc, Hd by done.
  set (st0 := start ss (io ss) (summary ss) lines0 0).
  assert (forall rest i,
    (forall line, line ∈ rest -> line ∈ lines0) ->
    scan_lines' i rest st0 = Some st0) as Hscan.
  { induction rest as [|line rest IH]; intros i Hin; simpl; [done|].
    assert (scan_line' i line st0 = Some st0) as ->.
    { unfold scan_line. destruct (decide (line ∈ exclude_lines)); [done|].
      change (new_line st0) with st0. apply scan_matches_clean.
      intros mt Hmt. apply (Hclean line); [|done]. apply Hin. by left. }
    simpl. apply IH. intros l Hl. apply Hin. by right. }
  rewrite Hscan by done. done.
Qed.

End ScannerFrames.
Lemma parse_file_disk_frame_witness :
  exists ss',
    parse_file "f.txt" TermColors_disabled ∅ word_pattern None uri_pattern ∅
      None write_all (teh_session ["teh teh" +:+ NL] []) = Some (0, ss') /\
    forall other, other <> "f.txt" ->
      disk ss' !! other = disk (teh_session ["teh teh" +:+ NL] []) !! other.
Proof.
  eexists. split; [vm_compute; reflexivity|].
  apply (parse_file_disk_frame "f.txt" TermColors_disabled ∅ word_pattern None
           uri_pattern ∅ None write_all _ 0).
  vm_compute. reflexivity.
Defined.

Lemma report_only_leaves_disk_witness :
  exists n ss',
    parse_file "f.txt" TermColors_disabled ∅ word_pattern None uri_pattern ∅
      None report_only (teh_session ["teh teh" +:+ NL] []) = Some (n, ss') /\
    disk ss' = disk (teh_session ["teh teh" +:+ NL] []).
Proof.
  apply (report_only_leaves_disk "f.txt" TermColors_disabled ∅ word_pattern None
           uri_pattern ∅ None report_only).
  reflexivity.
Defined.

Lemma non_interactive_leaves_dictionary_witness :
  exists n ss',
    parse_file "f.txt" TermColors_disabled ∅ word_pattern None uri_pattern ∅
      None write_all (teh_session ["teh teh" +:+ NL] ["n"]) = Some (n, ss') /\
    misspellings ss' = teh_dict /\
    ("f.txt" <> "-" -> stdin (io ss') = ["n"]).
Proof.
  eexists _, _. split; [vm_compute; reflexivity|].
  apply (non_interactive_leaves_dictionary "f.txt" TermColors_disabled ∅
           word_pattern None uri_pattern ∅ None write_all
           (teh_session ["teh teh" +:+ NL] ["n"]) 0).
  - reflexivity.
  - vm_compute. reflexivity.
Defined.

Lemma skipped_file_witness :
  exists io',
    parse_file "f.bin" TermColors_disabled ∅ word_pattern None uri_pattern ∅
      None report_only
      (mkSession teh_dict None (mkConsole [] [] []) {[ "f.bin" := Binary ]})
      = Some (0, mkSession teh_dict None io' {[ "f.bin" := Binary ]}) /\
    stdin io' = [] /\ stdout io' = [] /\
    (({[ "f.bin" := Binary ]} : gmap string File) !! "f.bin" <> Some OpenFails ->
     stderr io' = [] \/ exists warning, stderr io' = [] ++ [warning]).
Proof.
  refine (skipped_file "f.bin" TermColors_disabled ∅ word_pattern None
            uri_pattern ∅ None report_only
            (mkSession teh_dict None (mkConsole [] [] []) {[ "f.bin" := Binary ]})
            _ _ _).
  - reflexivity.
  - discriminate.
  - intros lines0 encoding. vm_compute. discriminate.
Defined.

Lemma parse_file_keeps_reasons_witness :
  exists n ss',
    parse_file "f.txt" TermColors_disabled ∅ word_pattern None uri_pattern ∅
      None write_confirmed (teh_session ["teh" +:+ NL] ["y"]) = Some (n, ss') /\
    reason <$> misspellings ss' !! "teh" = Some "".
Proof.
  eexists _, _. split; [vm_compute; reflexivity|].
  apply (parse_file_keeps_reasons "f.txt" TermColors_disabled ∅ word_pattern None
           uri_pattern ∅ None write_confirmed
           (teh_session ["teh" +:+ NL] ["y"]) 0 _ "teh").
  vm_compute. reflexivity.
Defined.

Lemma quiet_counts_nothing_witness :
  exists ss',
    parse_file "f.txt" TermColors_disabled ∅ word_pattern None uri_pattern ∅
      None (mkOptions false 12 0 false) (teh_session ["teh teh" +:+ NL] [])
      = Some (0, ss') /\
    0 = 0.
Proof.
  eexists. split; [vm_compute; reflexivity|].
  eapply (quiet_counts_nothing "f.txt" TermColors_disabled ∅ word_pattern None
            uri_pattern ∅ None (mkOptions false 12 0 false)
            (teh_session ["teh teh" +:+ NL] []) 0).
  - reflexivity.
  - reflexivity.
  - vm_compute. reflexivity.
Defined.

Lemma count_bounds_witness :
  exists ss',
    parse_file "f.txt" TermColors_disabled ∅ word_pattern None uri_pattern ∅
      None report_only (teh_session ["teh cat teh" +:+ NL] []) = Some (2, ss') /\
    0 <= 2 <= total_candidates word_pattern None uri_pattern ∅
                ["teh cat teh" +:+ NL].
Proof.
  eexists. split; [vm_compute; reflexivity|].
  eapply (count_bounds "f.txt" TermColors_disabled ∅ word_pattern None
            uri_pattern ∅ None report_only
            (teh_session ["teh cat teh" +:+ NL] []) 2 _ _ "utf-8").
  - reflexivity.
  - discriminate.
  - vm_compute. reflexivity.
  - vm_compute. reflexivity.
Defined.

Lemma clean_file_witness :
  exists io',
    parse_file "f.txt" TermColors_disabled ∅ word_pattern None uri_pattern ∅
      None write_all (teh_session ["the cat" +:+ NL] [])
    = Some (0, mkSession teh_dict None io'
                 {[ "f.txt" := Text ["the cat" +:+ NL] "utf-8" ]}) /\
    stdin io' = [] /\ stdout io' = [].
Proof.
  refine (clean_file "f.txt" TermColors_disabled ∅ word_pattern None
           uri_pattern ∅ None write_all
           (teh_session ["the cat" +:+ NL] []) ["the cat" +:+ NL] "utf-8"
           _ _ _ _).
  - reflexivity.
  - discriminate.
  - vm_compute. reflexivity.
  - intros line mt Hl%list_elem_of_singleton Hm. subst line.
    vm_compute in Hm.
    repeat (apply elem_of_cons in Hm as [->|Hm]);
      [vm_compute; reflexivity..|by apply elem_of_nil in Hm].
Defined.

(** ** Option and file helpers *)


Lemma fold_add_elem {A} (f : A -> string) (l : list A) (s : gset string) w :
  w ∈ fold_left (fun acc x => {[f x]} ∪ acc) l s <->
  w ∈ s \/ exists x, x ∈ l /\ w = f x.
Proof.
  revert s. induction l as [|a l IH]; intros s; simpl.
  - split; [by left|]. intros [?|(x & Hx & _)]; [done|]. by apply elem_of_nil in Hx.
  - rewrite IH, elem_of_union, elem_of_singleton. split.
    + intros [[->|?]|(x & Hx & ->)]; [right; exists a; split; [left|done]|by left|].
      right. exists x. split; [by right|done].
    + intros [?|(x & [->|Hx]%elem_of_cons & ->)]; [left; by right|left; by left|].
      right. by exists x.
Qed.

(** X24.  The set [parse_ignore_words_option] builds holds exactly the
    stripped comma-separated pieces of the values given; without the
    option, or with no value, it is empty. *)
Theorem parse_ignore_words_option_elem (ignore_words_option : option (list string))
    (w : string) :
  w ∈ parse_ignore_words_option ignore_words_option <->
  exists l comma_separated_words word,
    ignore_words_option = Some l /\ comma_separated_words ∈ l /\
    word ∈ Py.split_char "," comma_separated_words /\ w = Py.strip word.
Proof.
  assert (forall l (s : gset string),
    w ∈ fold_left
          (fun ignore_words comma_separated_words =>
             fold_left (fun ignore_words word => {[Py.strip word]} ∪ ignore_words)
               (Py.split_char "," comma_separated_words) ignore_words) l s <->
    w ∈ s \/ exists c word, c ∈ l /\ word ∈ Py.split_char "," c /\ w = Py.strip word)
    as Hfold.
  { induction l as [|c l IH]; intros s; simpl.
    - split; [by left|]. intros [?|(c & ? & Hc & _)]; [done|]. by apply elem_of_nil in Hc.
    - rewrite IH, (fold_add_elem Py.strip). split.
      + intros [[?|(word & Hw & ->)]|(c' & word & Hc & Hw & ->)]; [by left| |].
        * right. exists c, word. split; [left|done].
        * right. exists c', word. split; [by right|done].
      + intros [?|(c' & word & [->|Hc]%elem_of_cons & Hw & ->)].
        * left. by left.
        * left. right. by exists word.
        * right. by exists c', word. }
  destruct ignore_words_option as [[|c l]|].
  - split; [intros H; by apply elem_of_empty in H|].
    intros (l & c & ? & [= <-] & Hc & _). by apply elem_of_nil in Hc.
  - unfold parse_ignore_words_option. rewrite Hfold. split.
    + intros [H|(c' & word & ? & ? & ->)]; [by apply elem_of_empty in H|].
      by exists (c :: l), c', word.
    + intros (l' & c' & word & [= <-] & ? & ? & ->). right. by exists c', word.
  - split; [intros H; by apply elem_of_empty in H|]. by intros (? & ? & ? & [=] & _).
Qed.

Lemma split_char_cons sep s : exists p ps, Py.split_char sep s = p :: ps.
Proof.
  induction s as [|c s (p & ps & IH)]; simpl; [by eexists _, _|].
  destruct (Ascii.eqb c sep); [by eexists _, _|]. rewrite IH. by eexists _, _.
Qed.

Lemma split_char_app sep a b :
  Py.split_char sep (a +:+ String sep b) = Py.split_char sep a ++ Py.split_char sep b.
Proof.
  induction a as [|c a IH].
  - rewrite append_nil_l. simpl. by rewrite Ascii.eqb_refl.
  - rewrite append_cons. simpl. rewrite IH.
    destruct (Ascii.eqb c sep); [done|].
    by destruct (split_char_cons sep a) as (p & ps & ->).
Qed.

Lemma split_char_join sep l :
  l <> [] ->
  Py.split_char sep (Py.join (String sep "") l) = concat (map (Py.split_char sep) l).
Proof.
  induction l as [|a l IH]; [done|]. intros _. destruct l as [|b l].
  - simpl. by rewrite app_nil_r.
  - change (Py.join (String sep "") (a :: b :: l))
      with (a +:+ String sep (Py.join (String sep "") (b :: l))).
    rewrite split_char_app, IH by done. done.
Qed.

(** X25.  A [GlobMatch] built from the values of the skip option
    matches a name exactly when the name matches one comma-separated
    piece of one value; built from no value, it matches nothing. *)
Theorem GlobMatch_match_pieces (fnmatch : string -> string -> bool)
    (pattern : option (list string)) (filename : string) :
  GlobMatch_match fnmatch (GlobMatch_init pattern) filename = true <->
  exists l value p,
    pattern = Some l /\ value ∈ l /\ p ∈ Py.split_char "," value /\
    fnmatch filename p = true.
Proof.
  destruct pattern as [[|a l]|]; cbn [GlobMatch_init GlobMatch_match].
  - split; [done|]. intros (? & ? & ? & [= <-] & H & _). by apply elem_of_nil in H.
  - rewrite (split_char_join "," (a :: l)) by done.
    rewrite existsb_exists. split.
    + intros (p & Hp & Hm).
      apply in_concat in Hp as (ps & Hps & Hp).
      apply in_map_iff in Hps as (value & <- & Hv).
      exists (a :: l), value, p. by rewrite !list_elem_of_In.
    + intros (l' & value & p & [= <-] & Hv & Hp & Hm). exists p. split; [|done].
      apply in_concat. exists (Py.split_char "," value).
      split; [|by apply list_elem_of_In]. apply in_map, list_elem_of_In, Hv.
  - split; [done|]. by intros (? & ? & ? & [=] & _).
Qed.

(** X26.  What [main] makes of the three context options.  The run
    ends with [EX_USAGE] exactly when [--context] comes together with
    one of the other two.  There is no context exactly when none of the
    three is given.  [--context] alone gives the same window on both
    sides, the other two give each its side and zero for the side not
    given; a negative value counts as zero, so no side of a window is
    negative. *)
Theorem main_context_cases (context before_context after_context : option Z) :
  let result := main_context context before_context after_context in
  (forall status,
     result = inl status <->
     status = EX_USAGE /\ context <> None /\
     (before_context <> None \/ after_context <> None)) /\
  (result = inr None <->
   context = None /\ before_context = None /\ after_context = None) /\
  (forall window,
     result = inr (Some window) <->
     (exists c,
        context = Some c /\ before_context = None /\ after_context = None /\
        window = (Z.max 0 c, Z.max 0 c)) \/
     (context = None /\ (before_context <> None \/ after_context <> None) /\
      window = (Z.max 0 (default 0 before_context),
                Z.max 0 (default 0 after_context)))) /\
  (forall window, result = inr (Some window) -> 0 <= window.1 /\ 0 <= window.2).
Proof.
  unfold main_context.
  destruct context as [c|], before_context as [b|], after_context as [a|];
    cbn -[Z.max]; (split; [|split; [|split]]).
  all: try (intros x; split).
  all: try split.
  all: try (intros [= <-]).
  all: try (intros (-> & ? & [?|?])).
  all: try (intros (? & ? & ?)).
  all: try (intros [(? & ? & ? & ? & ->)|(? & [?|?] & ->)]).
  all: simplify_eq; cbn -[Z.max]; try done; try lia; eauto 10.
Qed.

Lemma basename_join dir name :
  Py.contains "/" name = false -> basename (dir +:+ "/" +:+ name) = name.
Proof.
  intros H. unfold basename.
  change ("/" +:+ name) with (String "/" name).
  rewrite (rfind_char_last _ dir _ H).
  replace (Z.to_nat (Z.of_nat (String.length dir) + 1))
    with (String.length (dir +:+ "/")).
  - change (String "/" name) with ("/" +:+ name).
    rewrite <- append_assoc. apply slice_from_append.
  - rewrite length_append. simpl. lia.
Qed.

(** X27.  Only the last component of a path decides whether
    [is_hidden] hides it: the path is hidden exactly when hidden files
    are not checked and that component starts with a dot and is neither
    [.] nor [..]. *)
Theorem is_hidden_last_component (dir name : string) (check_hidden : bool) :
  Py.contains "/" name = false ->
  is_hidden (dir +:+ "/" +:+ name) check_hidden = true <->
  check_hidden = false /\
  exists rest, name = String "." rest /\ rest <> "" /\ rest <> ".".
Proof.
  intros H. unfold is_hidden. rewrite (basename_join _ _ H).
  cbv zeta. rewrite !andb_true_iff, !negb_true_iff, bool_decide_eq_false. split.
  - intros (Hn & -> & Hd). split; [done|]. destruct name as [|c rest]; [done|].
    apply Ascii.eqb_eq in Hd as ->. exists rest. split; [done|].
    split; intros ->; apply Hn; auto.
  - intros (-> & rest & -> & H1 & H2). split; [|done].
    intros [?|[[= ?]|[= ?]]]; done.
Qed.

Lemma is_hidden_last_component_witness :
  is_hidden (".git" +:+ "/" +:+ "config") false = true <->
  false = false /\
  exists rest, "config" = String "." rest /\ rest <> "" /\ rest <> ".".
Proof. apply (is_hidden_last_component ".git" "config" false). reflexivity. Defined.

Lemma build_exclude_hashes_elem file_lines exclude_lines line :
  line ∈ build_exclude_hashes file_lines exclude_lines <->
  line ∈ exclude_lines \/ line ∈ file_lines.
Proof.
  unfold build_exclude_hashes. revert exclude_lines.
  induction file_lines as [|a l IH]; intros s; simpl.
  - split; [by left|]. intros [?|H]; [done|]. by apply elem_of_nil in H.
  - rewrite IH, elem_of_union, elem_of_singleton, elem_of_cons. tauto.
Qed.

(** X28.  A file all of whose lines are lines of the exclude file
    counts nothing and changes nothing, whatever words it holds:
    [parse_file], given the set of [build_exclude_hashes], returns zero
    and leaves the dictionary, the summary, the disk, the input and the
    standard output as they were. *)
Theorem excluded_lines_count_nothing (filename : string) (colors : TermColors)
    (file_lines : list string) (exclude_lines : gset string)
    (word_regex : Pattern) (ignore_word_regex : option Pattern)
    (uri_regex : Pattern) (uri_ignore_words : gset string)
    (context : option (Z * Z)) (options : Options)
    (ss : Session) (lines0 : list string) (encoding : string) :
  check_filenames options = false ->
  filename <> "-" ->
  disk ss !! filename = Some (Text lines0 encoding) ->
  (forall line, line ∈ lines0 -> line ∈ file_lines) ->
  exists io',
    parse_file filename colors (build_exclude_hashes file_lines exclude_lines)
      word_regex ignore_word_regex uri_regex uri_ignore_words context options ss
    = Some (0, mkSession (misspellings ss) (summary ss) io' (disk ss)) /\
    stdin io' = stdin (io ss) /\ stdout io' = stdout (io ss).
Proof.
  intros Hc Hf Hd Hex. exists (io ss). split; [|done].
  unfold parse_file, load.
  rewrite decide_False, Hc, Hd by done.
  set (st0 := start ss (io ss) (summary ss) lines0 0).
  assert (forall rest i,
    (forall line, line ∈ rest -> line ∈ lines0) ->
    scan_lines filename colors (build_exclude_hashes file_lines exclude_lines)
      word_regex ignore_word_regex uri_regex uri_ignore_words context options
      i rest st0 = Some st0) as Hscan.
  { induction rest as [|line rest IH]; intros i Hin; simpl; [done|].
    unfold scan_line at 1. rewrite decide_True.
    - simpl. apply IH. intros l Hl. apply Hin. by right.
    - apply build_exclude_hashes_elem. right. apply Hex, Hin. by left. }
  rewrite Hscan by done. done.
Qed.

Lemma excluded_lines_count_nothing_witness :
  exists io',
    parse_file "f.txt" TermColors_disabled
      (build_exclude_hashes ["teh teh" +:+ NL] ∅)
      word_pattern None uri_pattern ∅ None write_all
      (teh_session ["teh teh" +:+ NL] [])
    = Some (0, mkSession teh_dict None io'
                 {[ "f.txt" := Text ["teh teh" +:+ NL] "utf-8" ]}) /\
    stdin io' = [] /\ stdout io' = [].
Proof.
  refine (excluded_lines_count_nothing "f.txt" TermColors_disabled
            ["teh teh" +:+ NL] ∅ word_pattern None uri_pattern ∅ None write_all
            (teh_session ["teh teh" +:+ NL] []) ["teh teh" +:+ NL] "utf-8"
            _ _ _ _).
  - reflexivity.
  - discriminate.
  - vm_compute. reflexivity.
  - intros line H. exact H.
Defined.

Lemma build_ignore_words_elem file_lines ignore_words w :
  w ∈ build_ignore_words file_lines ignore_words <->
  w ∈ ignore_words \/ exists line, line ∈ file_lines /\ w = Py.strip line.
Proof.
  unfold build_ignore_words. revert ignore_words.
  induction file_lines as [|a l IH]; intros s; simpl.
  - split; [by left|]. intros [?|(x & Hx & _)]; [done|]. by apply elem_of_nil in Hx.
  - rewrite IH, elem_of_union, elem_of_singleton. split.
    + intros [[->|?]|(x & Hx & ->)]; [right; exists a; split; [left|done]|by left|].
      right. exists x. split; [by right|done].
    + intros [?|(x & [->|Hx]%elem_of_cons & ->)]; [left; by right|left; by left|].
      right. by exists x.
Qed.

Lemma main_ignore_words_elem files ignore_words iw w :
  main_ignore_words files ignore_words = inr iw ->
  w ∈ iw <->
  w ∈ ignore_words \/
  exists file_lines line,
    Some file_lines ∈ files /\ line ∈ file_lines /\ w = Py.strip line.
Proof.
  revert ignore_words. induction files as [|[fl|] files IH]; intros s; simpl.
  - intros [= <-]. split; [by left|]. intros [?|(? & ? & H & _)]; [done|].
    by apply elem_of_nil in H.
  - intros H. rewrite (IH _ H), build_ignore_words_elem. split.
    + intros [[?|(line & ? & ->)]|(fl' & line & ? & ? & ->)]; [by left| |].
      * right. exists fl, line. split; [left|done].
      * right. exists fl', line. split; [by right|done].
    + intros [?|(fl' & line & [[= ->]|?]%elem_of_cons & ? & ->)].
      * left. by left.
      * left. right. by exists line.
      * right. by exists fl', line.
  - done.
Qed.

Lemma main_misspellings_other dicts d ignore_words d' k :
  main_misspellings dicts d ignore_words = Ok d' ->
  k ∈ ignore_words ->
  d' !! k = d !! k.
Proof.
  revert d. induction dicts as [|dct dicts IH]; intros d; simpl.
  - by intros [= <-].
  - destruct (build_dict dct d ignore_words) as [d1|] eqn:E; [|done].
    intros H Hk. rewrite (IH _ H Hk).
    apply (build_dict_other _ _ _ _ _ E).
    intros line m _ E'. by apply parse_entry_key_not_ignored in E'.
Qed.

(** X29.  A word of the ignore list, or the stripped line of an
    ignore file, is no key of the dictionary that [main] builds. *)
Theorem ignored_words_stay_out (ignore_words_list : option (list string))
    (ignore_words_files : list (option (list string)))
    (ignore_words : gset string) (use_dictionaries : list (list string))
    (misspellings : gmap string Misspelling) (w : string) :
  main_ignore_words ignore_words_files
    (parse_ignore_words_option ignore_words_list) = inr ignore_words ->
  main_misspellings use_dictionaries ∅ ignore_words = Ok misspellings ->
  (w ∈ parse_ignore_words_option ignore_words_list \/
   exists file_lines line,
     Some file_lines ∈ ignore_words_files /\ line ∈ file_lines /\
     w = Py.strip line) ->
  misspellings !! w = None.
Proof.
  intros Hi Hm Hw. apply (main_ignore_words_elem _ _ _ w Hi) in Hw.
  by rewrite (main_misspellings_other _ _ _ _ _ Hm Hw).
Qed.

Lemma ignored_words_stay_out_witness :
  exists d,
    main_misspellings [["teh->the" +:+ NL; "abandonned->abandoned" +:+ NL]] ∅
      {["teh"]} = Ok d /\
    d !! "teh" = None.
Proof.
  eexists. split; [vm_compute; reflexivity|].
  apply (ignored_words_stay_out None [Some [" teh " +:+ NL]] {["teh"]}
           [["teh->the" +:+ NL; "abandonned->abandoned" +:+ NL]] _ "teh").
  - vm_compute. reflexivity.
  - vm_compute. reflexivity.
  - right. exists [" teh " +:+ NL], (" teh " +:+ NL).
    split; [left|]. split; [left|]. vm_compute. reflexivity.
Defined.


Lemma print_context_stdout lines0 index ctx io0 :
  stdout (print_context lines0 index ctx io0)
  = stdout io0 ++
    map (fun i => ((if i =? Z.of_nat index then ">" else ":") +:+ " " +:+
                   Py.rstrip (lines0 !!! Z.to_nat i)) +:+ NL)
      (List.filter (fun i => (0 <=? i) && (i <? Z.of_nat (length lines0)))
         (range (Z.of_nat index - ctx.1) (Z.of_nat index + ctx.2 + 1))).
Proof.
  unfold print_context. generalize (range (Z.of_nat index - ctx.1)
                                      (Z.of_nat index + ctx.2 + 1)).
  intros l. revert io0. induction l as [|i l IH]; intros io0; simpl.
  - by rewrite app_nil_r.
  - rewrite IH. destruct (_ && _); [|done]. simpl. by rewrite <- app_assoc.
Qed.

Lemma filter_seqZ_bound (len : Z) (n : nat) (a : Z) :
  Z.of_nat (length (List.filter (fun i => (0 <=? i) && (i <? len))
                      (seqZ a (Z.of_nat n)))) <= Z.max 0 (len - Z.max 0 a).
Proof.
  revert a. induction n as [|n IH]; intros a.
  - simpl. lia.
  - rewrite seqZ_cons by lia.
    replace (Z.pred (Z.of_nat (S n))) with (Z.of_nat n) by lia.
    simpl. specialize (IH (Z.succ a)).
    destruct (Z.leb_spec 0 a), (Z.ltb_spec a len); simpl; lia.
Qed.

(** X30.  [print_context] only appends to standard output: at most one
    line per line of the buffer and at most the width of the window,
    among them the marked line [> ] of the index itself. *)
Theorem print_context_output (lines0 : list string) (index : nat)
    (context : Z * Z) (io0 : Console) :
  (index < length lines0)%nat -> 0 <= context.1 -> 0 <= context.2 ->
  exists out,
    stdout (print_context lines0 index context io0) = stdout io0 ++ out /\
    (length out <= length lines0)%nat /\
    Z.of_nat (length out) <= context.1 + context.2 + 1 /\
    (">" +:+ " " +:+ Py.rstrip (lines0 !!! index)) +:+ NL ∈ out.
Proof.
  intros Hi H1 H2. eexists. split; [apply print_context_stdout|].
  rewrite length_map. unfold range. repeat split.
  - pose proof (filter_seqZ_bound (Z.of_nat (length lines0))
                  (Z.to_nat (Z.of_nat index + context.2 + 1
                             - (Z.of_nat index - context.1)))
                  (Z.of_nat index - context.1)) as Hb.
    rewrite Z2Nat.id in Hb by lia. lia.
  - etransitivity; [apply Nat2Z.inj_le, List.filter_length_le|].
    rewrite length_seqZ. lia.
  - apply list_elem_of_In, in_map_iff. exists (Z.of_nat index). split.
    + by rewrite Z.eqb_refl, Nat2Z.id.
    + apply filter_In. split.
      * apply list_elem_of_In, elem_of_seqZ. lia.
      * apply andb_true_iff. split; [apply Z.leb_le|apply Z.ltb_lt]; lia.
Qed.

Lemma print_context_output_witness :
  exists out,
    stdout (print_context ["a" +:+ NL; "teh" +:+ NL; "c" +:+ NL] 1 (1, 0)
              (mkConsole [] [] [])) = [] ++ out /\
    (length out <= 3)%nat /\
    Z.of_nat (length out) <= 1 + 0 + 1 /\
    (">" +:+ " " +:+ "teh") +:+ NL ∈ out.
Proof.
  refine (print_context_output ["a" +:+ NL; "teh" +:+ NL; "c" +:+ NL] 1 (1, 0)
            (mkConsole [] [] []) _ _ _).
  - simpl. lia.
  - simpl. lia.
  - simpl. lia.
Defined.
